(** * Transaction and savings-goal state engine

    A shallow embedding of the state logic of the finance tracker:
    - [JS]                  the numbers, strings, dates and JSON built-ins
                            that the source calls;
    - [Heap]                arrays as objects that [sort] changes in place;
    - [TransactionContext]  the transaction store;
    - [ExpensesScreen]      the query pipeline [processedTransactions] and
                            [analytics];
    - [AddExpenseScreen]    [handleSubmit] of the transaction form;
    - [SavingsContext]      the updaters of the savings-goal store;
    - [SavingsProvider]     the state cell of the store, [loadSavingsGoals]
                            and [saveSavingsGoals] over AsyncStorage;
    - [AddSavingsGoalForm], [SavingsGoalCard]  the form handlers and the
                            figures of a goal card;
    - [SavingsSession]      [clearAllData] and the effects of the provider
                            around a session;
    - [AuthContext], [LoginScreen], [Index], [TabLayout]  signing in and
                            the route guards;
    - [TransactionApp], [SavingsApp]  the handlers of the screens as the
                            events of a session.

    The first part of the file holds the definitions, the second part the
    lemmas and theorems. *)

From Stdlib Require Import ZArith QArith Qpower Qround Lia Lqa String Ascii List.
From Stdlib Require Import Sorted Permutation.
From stdpp Require Import gmap strings list.
Import ListNotations.

Local Open Scope string_scope.
Local Open Scope list_scope.

(* ===================================================================== *)
(** * Part I: definitions                                                 *)
(* ===================================================================== *)

(** ** The JavaScript values and built-ins the source relies on *)

Module JS.

(** A JS [number].  The special values are kept; a finite double is
    idealised as an exact rational in lowest terms (no rounding, no
    overflow, no signed zero). *)
Inductive number : Type :=
  | NaN
  | PInf
  | NInf
  | Fin (q : Q).

Definition fin (q : Q) : number := Fin (Qred q).
Definition of_Z (z : Z) : number := Fin (inject_Z z).

Definition isNaN (a : number) : bool :=
  match a with NaN => true | _ => false end.

(** [a + b] *)
Definition add (a b : number) : number :=
  match a, b with
  | NaN, _ | _, NaN => NaN
  | PInf, NInf | NInf, PInf => NaN
  | PInf, _ | _, PInf => PInf
  | NInf, _ | _, NInf => NInf
  | Fin p, Fin q => fin (p + q)
  end.

(** [a - b] *)
Definition sub (a b : number) : number :=
  match a, b with
  | NaN, _ | _, NaN => NaN
  | PInf, PInf | NInf, NInf => NaN
  | PInf, _ | _, NInf => PInf
  | NInf, _ | _, PInf => NInf
  | Fin p, Fin q => fin (p - q)
  end.

Definition Qsign (q : Q) : comparison := (q ?= 0)%Q.

(** [a * b] *)
Definition mul (a b : number) : number :=
  match a, b with
  | NaN, _ | _, NaN => NaN
  | Fin p, Fin q => fin (p * q)
  | PInf, PInf | NInf, NInf => PInf
  | PInf, NInf | NInf, PInf => NInf
  | PInf, Fin q | Fin q, PInf =>
      match Qsign q with Eq => NaN | Gt => PInf | Lt => NInf end
  | NInf, Fin q | Fin q, NInf =>
      match Qsign q with Eq => NaN | Gt => NInf | Lt => PInf end
  end.

(** [a / b]; the zero of the model is the positive zero. *)
Definition div (a b : number) : number :=
  match a, b with
  | NaN, _ | _, NaN => NaN
  | Fin p, Fin q =>
      match Qsign q with
      | Eq => match Qsign p with Eq => NaN | Gt => PInf | Lt => NInf end
      | _ => fin (p / q)
      end
  | Fin _, PInf | Fin _, NInf => Fin 0
  | PInf, Fin q => match Qsign q with Lt => NInf | _ => PInf end
  | NInf, Fin q => match Qsign q with Lt => PInf | _ => NInf end
  | _, _ => NaN
  end.

(** [a < b]: false as soon as one side is [NaN]. *)
Definition lt (a b : number) : bool :=
  match a, b with
  | NaN, _ | _, NaN => false
  | _, NInf => false
  | NInf, _ => true
  | PInf, _ => false
  | _, PInf => true
  | Fin p, Fin q => negb (Qle_bool q p)
  end.

(** [a <= b] *)
Definition le (a b : number) : bool :=
  match a, b with
  | NaN, _ | _, NaN => false
  | NInf, _ => true
  | _, NInf => false
  | _, PInf => true
  | PInf, _ => false
  | Fin p, Fin q => Qle_bool p q
  end.

(** [a === b] on numbers: [NaN] equals nothing. *)
Definition strict_eq (a b : number) : bool :=
  match a, b with
  | PInf, PInf | NInf, NInf => true
  | Fin p, Fin q => Qeq_bool p q
  | _, _ => false
  end.

(** [a > b] and [a >= b] *)
Definition gt (a b : number) : bool := lt b a.
Definition ge (a b : number) : bool := le b a.

(** [Math.min(a, b)] *)
Definition Math_min (a b : number) : number :=
  match a, b with
  | NaN, _ | _, NaN => NaN
  | _, _ => if lt b a then b else a
  end.

(** [Math.ceil(a)] *)
Definition Math_ceil (a : number) : number :=
  match a with
  | Fin q => of_Z (Qceiling q)
  | _ => a
  end.

(** The values of the finite doubles: [m * 2^e] with [|m| < 2^53] and
    [-1074 <= e <= 971].  The arithmetic above is exact, where the engine
    returns the double nearest to the exact result; the two agree
    whenever the exact result is itself the value of a double. *)
Definition is_double (q : Q) : Prop :=
  exists m e : Z,
    (Z.abs m < 2 ^ 53)%Z /\ (-1074 <= e <= 971)%Z /\
    (q == inject_Z m * 2 ^ e)%Q.

(** *** Strings

    A JS string is modelled by the bytes of its UTF-8 encoding; the case
    mapping and the white space of the model are those of the characters
    below 128. *)

(** The code unit of the double quote. *)
Abbreviation quote := (Ascii false true false false false true false false).

(** A string is truthy when it is not empty. *)
Definition truthy (s : string) : bool := negb (String.eqb s "").

Definition code (c : ascii) : N := N_of_ascii c.

Definition is_digit (c : ascii) : bool :=
  ((48 <=? code c) && (code c <=? 57))%N.

Definition digit_value (c : ascii) : Z := (Z.of_N (code c) - 48)%Z.

Definition is_space (c : ascii) : bool :=
  match code c with
  | 9%N | 10%N | 11%N | 12%N | 13%N | 32%N => true
  | _ => false
  end.

Definition lower_char (c : ascii) : ascii :=
  if ((65 <=? code c) && (code c <=? 90))%N
  then ascii_of_N (code c + 32) else c.

(** [s.toLowerCase()] on a text of characters below 128: the letters A to
    Z are mapped to a to z.  (The case mapping of the other characters is
    the engine's; the screens take it as a parameter.) *)
Fixpoint toLowerCase (s : string) : string :=
  match s with
  | EmptyString => EmptyString
  | String c r => String (lower_char c) (toLowerCase r)
  end.

(** [s.includes(q)] *)
Fixpoint includes (s q : string) : bool :=
  if String.prefix q s then true
  else match s with
       | EmptyString => false
       | String _ r => includes r q
       end.

Fixpoint trimStart (s : string) : string :=
  match s with
  | EmptyString => EmptyString
  | String c r => if is_space c then trimStart r else s
  end.

Fixpoint trimEnd (s : string) : string :=
  match s with
  | EmptyString => EmptyString
  | String c r =>
      let r' := trimEnd r in
      if is_space c && String.eqb r' "" then EmptyString else String c r'
  end.

(** [s.trim()] *)
Definition trim (s : string) : string := trimEnd (trimStart s).

(** *** Decimal digits *)

(** The longest run of digits at the head of [s]: its value on top of
    [acc], the number of digits on top of [n], and the rest. *)
Fixpoint read_digits (s : string) (acc : Z) (n : nat) : Z * nat * string :=
  match s with
  | EmptyString => (acc, n, s)
  | String c r =>
      if is_digit c
      then read_digits r (acc * 10 + digit_value c)%Z (S n)
      else (acc, n, s)
  end.

Definition digit_char (d : Z) : ascii := ascii_of_N (Z.to_N d + 48).

(** The last [k] digits of [v], most significant first, in front of
    [tail]. *)
Fixpoint fixed_digits (k : nat) (v : Z) (tail : string) : string :=
  match k with
  | O => tail
  | S k' => fixed_digits k' (v / 10)%Z (String (digit_char (v mod 10)%Z) tail)
  end.

(** The digits of [v >= 0] without leading zeros, in front of [tail];
    [fuel] bounds the number of digits after the first. *)
Fixpoint natural_digits (fuel : nat) (v : Z) (tail : string) : string :=
  match fuel with
  | O => String (digit_char (v mod 10)%Z) tail
  | S fuel' =>
      if (v <? 10)%Z then String (digit_char v) tail
      else natural_digits fuel' (v / 10)%Z (String (digit_char (v mod 10)%Z) tail)
  end.

(** The decimal numeral of the integer [z], in front of [tail]. *)
Definition show_Z (z : Z) (tail : string) : string :=
  if (z <? 0)%Z
  then String "-" (natural_digits (Z.to_nat (Z.log2 (- z))) (- z) tail)
  else natural_digits (Z.to_nat (Z.log2 z)) z tail.

(** [z.toString()] for an integer [z]. *)
Definition Z_toString (z : Z) : string := show_Z z EmptyString.

(** *** parseFloat *)

(** An optional sign: whether it is a minus, and the rest. *)
Definition read_sign (s : string) : bool * string :=
  match s with
  | String "-" r => (true, r)
  | String "+" r => (false, r)
  | _ => (false, s)
  end.

(** An exponent part [e], [E] with an optional sign and at least one
    digit; without digits nothing is consumed. *)
Definition read_exponent (s : string) : Z * string :=
  match s with
  | String c r =>
      if Ascii.eqb c "e" || Ascii.eqb c "E" then
        let (negative, r1) := read_sign r in
        let '(e, n, r2) := read_digits r1 0%Z 0%nat in
        match n with
        | O => (0%Z, s)
        | S _ => ((if negative then - e else e)%Z, r2)
        end
      else (0%Z, s)
  | EmptyString => (0%Z, s)
  end.

(** The number [(-1)^negative * (ip + fp / 10^nf) * 10^e]. *)
Definition decimal_value (negative : bool) (ip fp : Z) (nf : nat) (e : Z)
  : number :=
  let scale := (10 ^ Z.of_nat nf)%Z in
  let m := (ip * scale + fp)%Z in
  fin (Qmake (if negative then - m else m)%Z (Z.to_pos scale)
       * Qpower (inject_Z 10) e).

(** [parseFloat(s)]: leading white space is skipped, the longest prefix
    that is a decimal literal is read, and [NaN] is returned when there
    is none. *)
Definition parseFloat (s : string) : number :=
  let (negative, s1) := read_sign (trimStart s) in
  if String.prefix "Infinity" s1 then (if negative then NInf else PInf)
  else
    let '(ip, ni, s2) := read_digits s1 0%Z 0%nat in
    let '(fp, nf, s3) :=
      match s2 with
      | String "." r => read_digits r 0%Z 0%nat
      | _ => (0%Z, 0%nat, s2)
      end in
    match (ni + nf)%nat with
    | O => NaN
    | S _ => let (e, _) := read_exponent s3 in decimal_value negative ip fp nf e
    end.

(** *** Dates *)

Definition is_leap (y : Z) : bool :=
  ((y mod 4 =? 0) && (negb (y mod 100 =? 0) || (y mod 400 =? 0)))%Z.

Definition days_in_month (y m : Z) : Z :=
  match m with
  | 2%Z => if is_leap y then 29%Z else 28%Z
  | 4%Z | 6%Z | 9%Z | 11%Z => 30%Z
  | _ => 31%Z
  end.

(** The number of days from 1970-01-01 to the day [d] of the month [m] of
    the year [y] of the proleptic Gregorian calendar. *)
Definition days_from_civil (y m d : Z) : Z :=
  let y' := (if m <=? 2 then y - 1 else y)%Z in
  let era := (y' / 400)%Z in
  let yoe := (y' - era * 400)%Z in
  let mp := ((m + 9) mod 12)%Z in
  let doy := ((153 * mp + 2) / 5 + d - 1)%Z in
  let doe := (yoe * 365 + yoe / 4 - yoe / 100 + doy)%Z in
  (era * 146097 + doe - 719468)%Z.

(** One instance of [new Date(s).getTime()]: the date-only form
    YYYY-MM-DD, which is read as midnight UTC of that day.  What an
    engine reads from other texts is implementation-defined; this
    instance reads them as [NaN]. *)
Definition iso_date_getTime (s : string) : number :=
  match s with
  | String y1 (String y2 (String y3 (String y4 (String "-"
      (String m1 (String m2 (String "-"
        (String d1 (String d2 EmptyString))))))))) =>
      if forallb is_digit [y1; y2; y3; y4; m1; m2; d1; d2] then
        let y := (((digit_value y1 * 10 + digit_value y2) * 10
                   + digit_value y3) * 10 + digit_value y4)%Z in
        let m := (digit_value m1 * 10 + digit_value m2)%Z in
        let d := (digit_value d1 * 10 + digit_value d2)%Z in
        if ((1 <=? m) && (m <=? 12) && (1 <=? d) && (d <=? days_in_month y m))%Z
        then of_Z (days_from_civil y m d * 86400000)
        else NaN
      else NaN
  | _ => NaN
  end.

(** *** Objects used as maps

    An object literal inherits from [Object.prototype]: reading [o[k]]
    finds an own property of [o] or, failing that, the property that the
    prototype has under the name [k].  These are the names that
    [Object.prototype] defines (the standard ones and those of Annex B);
    their values are functions, and for [__proto__] the prototype object
    itself, all of which count as true in a condition. *)
Definition Object_prototype : list string :=
  [ "constructor"; "hasOwnProperty"; "isPrototypeOf"; "propertyIsEnumerable";
    "toLocaleString"; "toString"; "valueOf";
    "__defineGetter__"; "__defineSetter__"; "__lookupGetter__";
    "__lookupSetter__"; "__proto__" ]%string.

Definition inherited (k : string) : bool :=
  List.existsb (String.eqb k) Object_prototype.

(** *** Values and JSON

    The values that JSON text can denote. *)

#[local] Set Warnings "-register-all".
Inductive value : Type :=
  | VNull
  | VBool (b : bool)
  | VNum (n : number)
  | VStr (s : string)
  | VArr (elements : list value)
  | VObj (members : list (string * value)).

(** **** JSON.stringify

    Every printer puts its text in front of [tail]. *)

Definition hex_digit (n : N) : ascii :=
  if (n <? 10)%N then ascii_of_N (48 + n) else ascii_of_N (87 + n).

(** A character inside a string literal: the quote, the backslash and the
    control characters are escaped. *)
Definition show_char (c : ascii) (tail : string) : string :=
  match code c with
  | 34%N => String "\" (String quote tail)
  | 92%N => String "\" (String "\" tail)
  | 8%N => String "\" (String "b" tail)
  | 9%N => String "\" (String "t" tail)
  | 10%N => String "\" (String "n" tail)
  | 12%N => String "\" (String "f" tail)
  | 13%N => String "\" (String "r" tail)
  | n =>
      if (n <? 32)%N
      then String "\" (String "u" (String "0" (String "0"
             (String (hex_digit (n / 16)) (String (hex_digit (n mod 16)) tail)))))
      else String c tail
  end.

Fixpoint show_chars (s : string) (tail : string) : string :=
  match s with
  | EmptyString => tail
  | String c r => show_char c (show_chars r tail)
  end.

Definition show_string (s : string) (tail : string) : string :=
  String quote (show_chars s (String quote tail)).

(** The number of decimal places of a fraction with the denominator [d]:
    the exponent [k] of a power of ten that [d] divides, when there is
    one. *)
Fixpoint decimal_places (fuel : nat) (d : Z) : option nat :=
  if (d =? 1)%Z then Some O
  else match fuel with
       | O => None
       | S fuel' =>
           if (d mod 10 =? 0)%Z then option_map S (decimal_places fuel' (d / 10)%Z)
           else if (d mod 2 =? 0)%Z then option_map S (decimal_places fuel' (d / 2)%Z)
           else if (d mod 5 =? 0)%Z then option_map S (decimal_places fuel' (d / 5)%Z)
           else None
       end.

Definition places_of (q : Q) : option nat :=
  decimal_places (Pos.to_nat (Pos.size (Qden q))) (Z.pos (Qden q)).

(** [m / 10^k] for [m >= 0] in positional notation. *)
Definition show_scaled (m : Z) (k : nat) (tail : string) : string :=
  let scale := (10 ^ Z.of_nat k)%Z in
  let ip := (m / scale)%Z in
  natural_digits (Z.to_nat (Z.log2 ip)) ip
    match k with
    | O => tail
    | S _ => String "." (fixed_digits k (m mod scale)%Z tail)
    end.

(** The text of a finite number.  Positional notation is used at every
    magnitude (an engine switches to exponent notation from 1e21 on and
    below 1e-6).  A fraction that has no finite decimal expansion stands
    for no double; it is cut after 17 places. *)
Definition show_Q (q : Q) (tail : string) : string :=
  let negative := (Qnum q <? 0)%Z in
  let n := Z.abs (Qnum q) in
  let d := Z.pos (Qden q) in
  let body :=
    match places_of q with
    | Some k => show_scaled (n * (10 ^ Z.of_nat k / d))%Z k tail
    | None => show_scaled (n * 10 ^ 17 / d)%Z 17 tail
    end in
  if negative then String "-" body else body.

(** [NaN] and the infinities are written as [null]. *)
Definition show_number (n : number) (tail : string) : string :=
  match n with
  | Fin q => show_Q q tail
  | _ => ("null" ++ tail)%string
  end.

Fixpoint show_value (v : value) (tail : string) : string :=
  match v with
  | VNull => ("null" ++ tail)%string
  | VBool true => ("true" ++ tail)%string
  | VBool false => ("false" ++ tail)%string
  | VNum n => show_number n tail
  | VStr s => show_string s tail
  | VArr l =>
      String "["
        ((fix elements (l : list value) : string :=
            match l with
            | [] => String "]" tail
            | [v] => show_value v (String "]" tail)
            | v :: l' => show_value v (String "," (elements l'))
            end) l)
  | VObj ms =>
      String "{"
        ((fix members (ms : list (string * value)) : string :=
            match ms with
            | [] => String "}" tail
            | [(k, v)] => show_string k (String ":" (show_value v (String "}" tail)))
            | (k, v) :: ms' =>
                show_string k (String ":" (show_value v (String "," (members ms'))))
            end) ms)
  end.

(** The elements of an array and the members of an object, as
    [show_value] writes them. *)
Fixpoint show_elements (l : list value) (tail : string) : string :=
  match l with
  | [] => String "]" tail
  | [v] => show_value v (String "]" tail)
  | v :: l' => show_value v (String "," (show_elements l' tail))
  end.

Fixpoint show_members (ms : list (string * value)) (tail : string) : string :=
  match ms with
  | [] => String "}" tail
  | [(k, v)] => show_string k (String ":" (show_value v (String "}" tail)))
  | (k, v) :: ms' =>
      show_string k (String ":" (show_value v (String "," (show_members ms' tail))))
  end.

(** The text after a number literal does not continue it. *)
Definition ends_number (tail : string) : bool :=
  match tail with
  | EmptyString => true
  | String c _ =>
      negb (is_digit c || Ascii.eqb c "." || Ascii.eqb c "e" || Ascii.eqb c "E")
  end.

(** A finite number that is written out in full: a fraction in lowest
    terms with a finite decimal expansion, as every finite double is. *)
Definition finite_decimal (n : number) : bool :=
  match n with
  | Fin q =>
      (Qnum (Qred q) =? Qnum q)%Z && (Qden (Qred q) =? Qden q)%positive
      && match places_of q with Some _ => true | None => false end
  | _ => false
  end.

(** [JSON.stringify(v)] *)
Definition JSON_stringify (v : value) : string := show_value v EmptyString.

(** **** JSON.parse *)

Definition is_json_space (c : ascii) : bool :=
  match code c with
  | 9%N | 10%N | 13%N | 32%N => true
  | _ => false
  end.

Fixpoint skip_spaces (s : string) : string :=
  match s with
  | EmptyString => EmptyString
  | String c r => if is_json_space c then skip_spaces r else s
  end.

Definition hex_value (c : ascii) : option N :=
  let n := code c in
  if ((48 <=? n) && (n <=? 57))%N then Some (n - 48)%N
  else if ((97 <=? n) && (n <=? 102))%N then Some (n - 87)%N
  else if ((65 <=? n) && (n <=? 70))%N then Some (n - 55)%N
  else None.

(** The UTF-8 bytes of the code unit [n < 65536] of a [\u] escape, in
    front of [tail]; an escaped surrogate is encoded on its own. *)
Definition utf8 (n : N) (tail : string) : string :=
  if (n <? 128)%N then String (ascii_of_N n) tail
  else if (n <? 2048)%N then
    String (ascii_of_N (192 + n / 64))
      (String (ascii_of_N (128 + n mod 64)) tail)
  else
    String (ascii_of_N (224 + n / 4096))
      (String (ascii_of_N (128 + (n / 64) mod 64))
         (String (ascii_of_N (128 + n mod 64)) tail)).

Definition prepend (f : string -> string) (r : option (string * string))
  : option (string * string) :=
  match r with
  | Some (s, rest) => Some (f s, rest)
  | None => None
  end.

(** The characters of a string literal after its opening quote: the
    string denoted, and the text after the closing quote. *)
Fixpoint parse_chars (s : string) : option (string * string) :=
  match s with
  | EmptyString => None
  | String c r =>
      if Ascii.eqb c quote then Some (EmptyString, r)
      else if Ascii.eqb c "\" then
        match r with
        | String e r' =>
            if Ascii.eqb e quote then prepend (String quote) (parse_chars r')
            else if Ascii.eqb e "\" then prepend (String "\") (parse_chars r')
            else if Ascii.eqb e "/" then prepend (String "/") (parse_chars r')
            else if Ascii.eqb e "b" then prepend (String (ascii_of_N 8)) (parse_chars r')
            else if Ascii.eqb e "f" then prepend (String (ascii_of_N 12)) (parse_chars r')
            else if Ascii.eqb e "n" then prepend (String (ascii_of_N 10)) (parse_chars r')
            else if Ascii.eqb e "r" then prepend (String (ascii_of_N 13)) (parse_chars r')
            else if Ascii.eqb e "t" then prepend (String (ascii_of_N 9)) (parse_chars r')
            else if Ascii.eqb e "u" then
              match r' with
              | String h1 (String h2 (String h3 (String h4 r''))) =>
                  match hex_value h1, hex_value h2, hex_value h3, hex_value h4 with
                  | Some a, Some b, Some c, Some d =>
                      prepend (utf8 (((a * 16 + b) * 16 + c) * 16 + d))
                        (parse_chars r'')
                  | _, _, _, _ => None
                  end
              | _ => None
              end
            else None
        | EmptyString => None
        end
      else if (code c <? 32)%N then None
      else prepend (String c) (parse_chars r)
  end.

(** A number literal: an optional minus, an integer part without a
    superfluous leading zero, an optional fraction with at least one
    digit, an optional exponent with at least one digit. *)
Definition parse_number (s : string) : option (number * string) :=
  let (negative, s1) :=
    match s with
    | String c r => if Ascii.eqb c "-" then (true, r) else (false, s)
    | EmptyString => (false, s)
    end in
  let '(ip, ni, s2) := read_digits s1 0%Z 0%nat in
  let leading_zero :=
    match s1 with
    | String c _ => Ascii.eqb c "0" && (1 <? ni)%nat
    | EmptyString => false
    end in
  match ni with
  | O => None
  | S _ =>
      if leading_zero then None
      else
        let fraction :=
          match s2 with
          | String c r =>
              if Ascii.eqb c "." then
                let '(fp, nf, s3) := read_digits r 0%Z 0%nat in
                match nf with
                | O => None
                | S _ => Some (fp, nf, s3)
                end
              else Some (0%Z, 0%nat, s2)
          | EmptyString => Some (0%Z, 0%nat, s2)
          end in
        match fraction with
        | None => None
        | Some (fp, nf, s3) =>
            let exponent :=
              match s3 with
              | String c r =>
                  if Ascii.eqb c "e" || Ascii.eqb c "E" then
                    let (eneg, r1) := read_sign r in
                    let '(e, n, r2) := read_digits r1 0%Z 0%nat in
                    match n with
                    | O => None
                    | S _ => Some ((if eneg then - e else e)%Z, r2)
                    end
                  else Some (0%Z, s3)
              | EmptyString => Some (0%Z, s3)
              end in
            match exponent with
            | None => None
            | Some (e, s4) => Some (decimal_value negative ip fp nf e, s4)
            end
        end
  end.

(** [s] starts with the text [lit]: the rest. *)
Fixpoint expect (lit s : string) : option string :=
  match lit with
  | EmptyString => Some s
  | String a lit' =>
      match s with
      | String b s' => if Ascii.eqb a b then expect lit' s' else None
      | EmptyString => None
      end
  end.

(** [s] starts with the character [c]: the rest. *)
Definition begins (c : ascii) (s : string) : option string :=
  match s with
  | String b r => if Ascii.eqb b c then Some r else None
  | EmptyString => None
  end.

(** An object holds one member for a name: a later member of the same
    name replaces the value of the earlier one. *)
Fixpoint set_member (k : string) (v : value) (ms : list (string * value))
  : list (string * value) :=
  match ms with
  | [] => [(k, v)]
  | (k', v') :: ms' =>
      if String.eqb k' k then (k', v) :: ms' else (k', v') :: set_member k v ms'
  end.

Definition object_of (ms : list (string * value)) : value :=
  VObj (List.fold_left (fun acc kv => set_member (fst kv) (snd kv) acc) ms []).

(** The parser of values, of the elements of an array after its opening
    bracket and of the members of an object after its opening brace;
    [fuel] bounds the nesting of the calls. *)
Fixpoint parse_value (fuel : nat) (s : string) {struct fuel}
  : option (value * string) :=
  match fuel with
  | O => None
  | S fuel' =>
      match skip_spaces s with
      | EmptyString => None
      | String c r =>
          if Ascii.eqb c "n" then option_map (pair VNull) (expect "ull" r)
          else if Ascii.eqb c "t" then option_map (pair (VBool true)) (expect "rue" r)
          else if Ascii.eqb c "f" then option_map (pair (VBool false)) (expect "alse" r)
          else if Ascii.eqb c quote then
            match parse_chars r with
            | Some (str, r') => Some (VStr str, r')
            | None => None
            end
          else if Ascii.eqb c "[" then
            match begins "]" (skip_spaces r) with
            | Some r' => Some (VArr [], r')
            | None =>
                match parse_elements fuel' r with
                | Some (l, r') => Some (VArr l, r')
                | None => None
                end
            end
          else if Ascii.eqb c "{" then
            match begins "}" (skip_spaces r) with
            | Some r' => Some (VObj [], r')
            | None =>
                match parse_members fuel' r with
                | Some (ms, r') => Some (object_of ms, r')
                | None => None
                end
            end
          else
            match parse_number (String c r) with
            | Some (n, r') => Some (VNum n, r')
            | None => None
            end
      end
  end

with parse_elements (fuel : nat) (s : string) {struct fuel}
  : option (list value * string) :=
  match fuel with
  | O => None
  | S fuel' =>
      match parse_value fuel' s with
      | Some (v, r) =>
          match begins "," (skip_spaces r), begins "]" (skip_spaces r) with
          | Some r', _ =>
              match parse_elements fuel' r' with
              | Some (l, r'') => Some (v :: l, r'')
              | None => None
              end
          | None, Some r' => Some ([v], r')
          | None, None => None
          end
      | None => None
      end
  end

with parse_members (fuel : nat) (s : string) {struct fuel}
  : option (list (string * value) * string) :=
  match fuel with
  | O => None
  | S fuel' =>
      match begins quote (skip_spaces s) with
      | Some r =>
          match parse_chars r with
          | Some (k, r1) =>
              match begins ":" (skip_spaces r1) with
              | Some r2 =>
                  match parse_value fuel' r2 with
                  | Some (v, r3) =>
                      match begins "," (skip_spaces r3),
                            begins "}" (skip_spaces r3) with
                      | Some r4, _ =>
                          match parse_members fuel' r4 with
                          | Some (ms, r5) => Some ((k, v) :: ms, r5)
                          | None => None
                          end
                      | None, Some r4 => Some ([(k, v)], r4)
                      | None, None => None
                      end
                  | None => None
                  end
              | None => None
              end
          | None => None
          end
      | None => None
      end
  end.

(** [JSON.parse(s)]: [None] stands for the SyntaxError it throws. *)
Definition JSON_parse (s : string) : option value :=
  match parse_value (S (String.length s)) s with
  | Some (v, r) =>
      match skip_spaces r with
      | EmptyString => Some v
      | _ => None
      end
  | None => None
  end.

End JS.

Abbreviation number := JS.number.

(** ** The dialogs shown with [Alert.alert(title, message)] *)

Definition Alerts : Type := list (string * string).

(** ** The savings-goal store (SavingsProvider) *)

Module SavingsContext.

Record SavingsGoal : Type := {
  id : string;
  title : string;
  targetAmount : number;
  currentAmount : number;
  deadline : string;
  category : string
}.

(** [{ ...goal, currentAmount: c }] *)
Definition with_currentAmount (goal : SavingsGoal) (c : number) : SavingsGoal :=
  {| id := id goal;
     title := title goal;
     targetAmount := targetAmount goal;
     currentAmount := c;
     deadline := deadline goal;
     category := category goal |}.

(** The updater [prev => [goal, ...prev]] of [addSavingsGoal]. *)
Definition addSavingsGoal (goal : SavingsGoal) (prev : list SavingsGoal)
  : list SavingsGoal :=
  goal :: prev.

(** The updater of [updateSavingsGoal]: [prev.map(goal => goal.id === id ?
    {...goal, currentAmount: Math.min(goal.targetAmount,
    goal.currentAmount + amount)} : goal)]. *)
Definition updateSavingsGoal (id0 : string) (amount : number)
    (prev : list SavingsGoal) : list SavingsGoal :=
  List.map
    (fun goal =>
       if String.eqb (id goal) id0
       then with_currentAmount goal
              (JS.Math_min (targetAmount goal)
                           (JS.add (currentAmount goal) amount))
       else goal)
    prev.

(** The two buttons of the confirmation dialog of [deleteSavingsGoal]. *)
Inductive AlertButton : Type := Cancel | Delete.

(** [deleteSavingsGoal]: the dialog is shown and the updater
    [prev => prev.filter(goal => goal.id !== id)] runs when the user
    presses "Delete"; "Cancel" has no handler. *)
Definition deleteSavingsGoal (id0 : string) (pressed : AlertButton)
    (prev : list SavingsGoal) : list SavingsGoal :=
  match pressed with
  | Cancel => prev
  | Delete => List.filter (fun goal => negb (String.eqb (id goal) id0)) prev
  end.

End SavingsContext.

(** ** SavingsProvider: the state cell and its persistence *)

Module SavingsProvider.
Import SavingsContext.

Definition STORAGE_KEY : string := "@savings_goals".

(** A goal and a goal list as JS values; the members are in the order of
    the object literal that creates a goal. *)
Definition goal_value (g : SavingsGoal) : JS.value :=
  JS.VObj
    [ ("id", JS.VStr (id g));
      ("title", JS.VStr (title g));
      ("targetAmount", JS.VNum (targetAmount g));
      ("currentAmount", JS.VNum (currentAmount g));
      ("deadline", JS.VStr (deadline g));
      ("category", JS.VStr (category g)) ].

Definition goals_value (goals : list SavingsGoal) : JS.value :=
  JS.VArr (List.map goal_value goals).

(** Both amounts of the goal are written out in full by
    [JSON.stringify]. *)
Definition storable (g : SavingsGoal) : Prop :=
  JS.finite_decimal (targetAmount g) = true /\
  JS.finite_decimal (currentAmount g) = true.

(** The state of the provider and of its collaborators.  [savingsGoals]
    is typed [SavingsGoal[]] in the source, but what [loadSavingsGoals]
    puts into it is the untyped result of [JSON.parse]: the cell holds a
    JS value.  [storage] is the key-value store behind AsyncStorage,
    whose reads and writes succeed; [alerts] and [console] record the
    calls of [Alert.alert] and [console.error]. *)
Record State : Type := {
  savingsGoals : JS.value;
  isLoading : bool;
  storage : gmap string string;
  alerts : Alerts;
  console : list (string * string)
}.

(** The state at the start of a session: [useState([])],
    [useState(true)]. *)
Definition initial (stored : gmap string string) : State :=
  {| savingsGoals := JS.VArr []; isLoading := true; storage := stored;
     alerts := []; console := [] |}.

(** A call returns or throws. *)
Inductive outcome (A : Type) : Type :=
  | Returned (a : A)
  | Thrown (error : string).
Arguments Returned {A} a.
Arguments Thrown {A} error.

Definition M (A : Type) : Type := State -> outcome A * State.

Definition ret {A} (a : A) : M A := fun st => (Returned a, st).

Definition throw {A} (error : string) : M A := fun st => (Thrown error, st).

Definition bind {A B} (m : M A) (k : A -> M B) : M B :=
  fun st => match m st with
            | (Returned a, st') => k a st'
            | (Thrown e, st') => (Thrown e, st')
            end.

(** [try { m } catch (error) { handler error }] *)
Definition try_catch {A} (m : M A) (handler : string -> M A) : M A :=
  fun st => match m st with
            | (Returned a, st') => (Returned a, st')
            | (Thrown e, st') => handler e st'
            end.

(** [try { m } finally { cleanup }] *)
Definition try_finally {A} (m : M A) (cleanup : M unit) : M A :=
  fun st => match m st with
            | (r, st') =>
                match cleanup st' with
                | (Returned _, st'') => (r, st'')
                | (Thrown e, st'') => (Thrown e, st'')
                end
            end.

Definition setSavingsGoals (v : JS.value) : M unit :=
  fun st => (Returned tt,
             {| savingsGoals := v; isLoading := isLoading st;
                storage := storage st; alerts := alerts st;
                console := console st |}).

Definition setIsLoading (b : bool) : M unit :=
  fun st => (Returned tt,
             {| savingsGoals := savingsGoals st; isLoading := b;
                storage := storage st; alerts := alerts st;
                console := console st |}).

Definition AsyncStorage_getItem (key : string) : M (option string) :=
  fun st => (Returned (storage st !! key), st).

Definition AsyncStorage_setItem (key text : string) : M unit :=
  fun st => (Returned tt,
             {| savingsGoals := savingsGoals st; isLoading := isLoading st;
                storage := <[key := text]> (storage st); alerts := alerts st;
                console := console st |}).

Definition Alert_alert (t m : string) : M unit :=
  fun st => (Returned tt,
             {| savingsGoals := savingsGoals st; isLoading := isLoading st;
                storage := storage st; alerts := alerts st ++ [(t, m)];
                console := console st |}).

Definition console_error (m error : string) : M unit :=
  fun st => (Returned tt,
             {| savingsGoals := savingsGoals st; isLoading := isLoading st;
                storage := storage st; alerts := alerts st;
                console := console st ++ [(m, error)] |}).

(** [JSON.parse(text)], which throws on a text that is not JSON. *)
Definition JSON_parse (text : string) : M JS.value :=
  match JS.JSON_parse text with
  | Some v => ret v
  | None => throw "SyntaxError"
  end.

Declare Scope provider_scope.
Notation "x <- m ;; k" := (bind m (fun x => k))
  (at level 100, m at next level, right associativity) : provider_scope.
Local Open Scope provider_scope.

(** [loadSavingsGoals] *)
Definition loadSavingsGoals : M unit :=
  try_finally
    (try_catch
       (storedGoals <- AsyncStorage_getItem STORAGE_KEY ;;
        match storedGoals with
        | Some text =>
            if JS.truthy text then
              parsedGoals <- JSON_parse text ;;
              setSavingsGoals parsedGoals
            else ret tt
        | None => ret tt
        end)
       (fun error =>
          _ <- console_error "Error loading savings goals:" error ;;
          Alert_alert "Error" "Failed to load savings goals from storage"))
    (setIsLoading false).

(** [saveSavingsGoals(goals)] *)
Definition saveSavingsGoals (goals : JS.value) : M unit :=
  try_catch
    (AsyncStorage_setItem STORAGE_KEY (JS.JSON_stringify goals))
    (fun error =>
       _ <- console_error "Error saving savings goals:" error ;;
       Alert_alert "Error" "Failed to save savings goals to storage").

(** The effect that saves the list whenever it or [isLoading] changed. *)
Definition save_effect : M unit :=
  fun st => if isLoading st then ret tt st
            else saveSavingsGoals (savingsGoals st) st.

(** The session that [saveSavingsGoals(goals)] leaves behind for the
    next start of the app, and that start: the state after
    [loadSavingsGoals] ran in a new session over the storage. *)
Definition save_then_load (goals : JS.value) (st : State) : outcome unit * State :=
  let (_, st1) := saveSavingsGoals goals st in
  loadSavingsGoals (initial (storage st1)).

End SavingsProvider.

(** ** The transaction store (TransactionProvider) *)

Module TransactionContext.

Inductive TransactionType : Type := income | expense.

Record Transaction : Type := {
  id : string;
  title : string;
  amount : number;
  category : string;
  type : TransactionType;
  date : string
}.

(** The updater [prev => [tx, ...prev]] of [addTransaction]. *)
Definition addTransaction (tx : Transaction) (prev : list Transaction)
  : list Transaction :=
  tx :: prev.

(** The updater [prev => prev.filter(tx => tx.id !== id)] of
    [deleteTransaction]. *)
Definition deleteTransaction (id0 : string) (prev : list Transaction)
  : list Transaction :=
  List.filter (fun tx => negb (String.eqb (id tx) id0)) prev.

End TransactionContext.

(** ** Arrays

    A JS array is an object: a variable or a state cell holds a reference
    to it, and [sort] reorders the array it is called on while [filter]
    builds a new one.  The heap is the list of the arrays allocated so
    far, a reference is an index into it; a computation fails only on a
    reference that was never allocated. *)

Module Heap.

Definition ref : Type := nat.

Abbreviation heap T := (list (list T)).

Section Arrays.
Context {T : Type}.

Definition M (A : Type) : Type := heap T -> option (A * heap T).

Definition ret {A} (a : A) : M A := fun h => Some (a, h).

Definition bind {A B} (m : M A) (k : A -> M B) : M B :=
  fun h => match m h with
           | Some (a, h') => k a h'
           | None => None
           end.

Definition read (r : ref) : M (list T) :=
  fun h => match h !! r with
           | Some a => Some (a, h)
           | None => None
           end.

Definition write (r : ref) (a : list T) : M unit :=
  fun h => match h !! r with
           | Some _ => Some (tt, <[r := a]> h)
           | None => None
           end.

Definition alloc (a : list T) : M ref :=
  fun h => Some (length h, h ++ [a]).

(** [x] is put in front of the first element that it does not have to
    follow: [cmp x y > 0] says that [x] sorts after [y]; a comparator
    result that is 0, negative or [NaN] keeps [x] before [y]. *)
Fixpoint insert_sorted (cmp : T -> T -> number) (x : T) (l : list T) : list T :=
  match l with
  | [] => [x]
  | y :: l' =>
      if JS.lt (JS.of_Z 0) (cmp x y) then y :: insert_sorted cmp x l'
      else x :: l
  end.

(** The stable sort by the comparator [cmp].  When [cmp] orders the
    elements of the array consistently, which the comparators of the
    screen do unless a sort key is [NaN], the result of a stable sort is
    determined: the elements in the order of [cmp], those that [cmp]
    does not tell apart in the order they had.  For other comparators
    the order that [Array.prototype.sort] leaves depends on the engine:
    what is stated below about the order of a sorted array is stated for
    sort keys that are not [NaN], and otherwise only that the array is
    rearranged. *)
Definition stable_sort (cmp : T -> T -> number) (l : list T) : list T :=
  List.fold_right (insert_sorted cmp) [] l.

(** [r.filter(p)]: a new array. *)
Definition Array_filter (p : T -> bool) (r : ref) : M ref :=
  bind (read r) (fun a => alloc (List.filter p a)).

(** [r.sort(cmp)]: sorts the array in place and returns the reference it
    was called on. *)
Definition Array_sort (cmp : T -> T -> number) (r : ref) : M ref :=
  bind (read r) (fun a => bind (write r (stable_sort cmp a)) (fun _ => ret r)).

(** [r.reduce(f, init)] *)
Definition Array_reduce {B} (f : B -> T -> B) (init : B) (r : ref) : M B :=
  bind (read r) (fun a => ret (List.fold_left f a init)).

(** [r.length] *)
Definition Array_length (r : ref) : M nat :=
  bind (read r) (fun a => ret (length a)).

End Arrays.

Arguments M T A : clear implicits.

End Heap.

Declare Scope heap_scope.
Notation "x <- m ;; k" := (Heap.bind m (fun x => k))
  (at level 100, m at next level, right associativity) : heap_scope.

(** ** ExpensesScreen: the query pipeline and the analytics *)

Module FilterType.
Inductive t : Type := all | income | expense.
End FilterType.

Module CategoryStat.
Record t : Type := { income : number; expense : number }.
End CategoryStat.

Module ExpensesScreen.
Import TransactionContext.
Local Open Scope heap_scope.

Inductive SortType : Type := newest | oldest | highest | lowest.

(** [t.type === filterType] *)
Definition type_is (ty : TransactionType) (filterType : FilterType.t) : bool :=
  match ty, filterType with
  | income, FilterType.income => true
  | expense, FilterType.expense => true
  | _, _ => false
  end.

Section Screen.

(** [getTime s] stands for [new Date(s).getTime()]: the time stamp that
    the engine reads from the date text, [NaN] for a text it cannot
    read. *)
Variable getTime : string -> number.

(** [toLowerCase s] stands for [s.toLowerCase()], the case mapping of the
    engine. *)
Variable toLowerCase : string -> string.

(** The comparator given to [sort]. *)
Definition compare (sortType : SortType) (a b : Transaction) : number :=
  match sortType with
  | newest => JS.sub (getTime (date b)) (getTime (date a))
  | oldest => JS.sub (getTime (date a)) (getTime (date b))
  | highest => JS.sub (amount b) (amount a)
  | lowest => JS.sub (amount a) (amount b)
  end.

(** The predicate of the search filter. *)
Definition matches_search (searchQuery : string) (t : Transaction) : bool :=
  JS.includes (toLowerCase (title t)) (toLowerCase searchQuery)
  || JS.includes (toLowerCase (category t)) (toLowerCase searchQuery).

(** [processedTransactions]; [transactions] is the reference held by the
    state cell of the store. *)
Definition processedTransactions (transactions : Heap.ref)
    (searchQuery : string) (filterType : FilterType.t) (sortType : SortType)
  : Heap.M Transaction Heap.ref :=
  let filtered := transactions in
  filtered <-
    (if JS.truthy searchQuery
     then Heap.Array_filter (matches_search searchQuery) filtered
     else Heap.ret filtered) ;;
  filtered <-
    (match filterType with
     | FilterType.all => Heap.ret filtered
     | _ => Heap.Array_filter (fun t => type_is (type t) filterType) filtered
     end) ;;
  _ <- Heap.Array_sort (compare sortType) filtered ;;
  Heap.ret filtered.

End Screen.

Record Analytics : Type := {
  totalIncome : number;
  totalExpense : number;
  balance : number;
  transactionCount : nat;
  categoryStats : gmap string CategoryStat.t
}.

(** [acc[t.category][t.type] += t.amount] on the entry of the category. *)
Definition add_to_stat (ty : TransactionType) (a : number)
    (st : CategoryStat.t) : CategoryStat.t :=
  match ty with
  | income =>
      {| CategoryStat.income := JS.add (CategoryStat.income st) a;
         CategoryStat.expense := CategoryStat.expense st |}
  | expense =>
      {| CategoryStat.income := CategoryStat.income st;
         CategoryStat.expense := JS.add (CategoryStat.expense st) a |}
  end.

(** The reducer of [categoryStats].  The accumulator [acc] is the object
    [{}] used as a map from category names to their entry; the finite map
    holds its own properties.  [acc[t.category]] finds an own entry or a
    property inherited from [Object.prototype]: for an inherited name
    the guard [!acc[t.category]] is false, no entry is created, and the
    [+=] that follows writes to the inherited function or object, which
    is no part of [acc] (and whose properties the reducer never reads
    back as an entry: what it leaves there is [NaN]). *)
Definition category_step (acc : gmap string CategoryStat.t) (t : Transaction)
  : gmap string CategoryStat.t :=
  let acc :=
    match acc !! category t with
    | None =>
        if JS.inherited (category t) then acc
        else <[category t := {| CategoryStat.income := JS.of_Z 0;
                                CategoryStat.expense := JS.of_Z 0 |}]> acc
    | Some _ => acc
    end in
  alter (add_to_stat (type t) (amount t)) (category t) acc.

(** [analytics] *)
Definition analytics (transactions : Heap.ref) : Heap.M Transaction Analytics :=
  incomes <- Heap.Array_filter (fun t => type_is (type t) FilterType.income)
               transactions ;;
  totalIncome <- Heap.Array_reduce (fun sum t => JS.add sum (amount t))
                   (JS.of_Z 0) incomes ;;
  expenses <- Heap.Array_filter (fun t => type_is (type t) FilterType.expense)
                transactions ;;
  totalExpense <- Heap.Array_reduce (fun sum t => JS.add sum (amount t))
                    (JS.of_Z 0) expenses ;;
  let balance := JS.sub totalIncome totalExpense in
  categoryStats <- Heap.Array_reduce category_step ∅ transactions ;;
  transactionCount <- Heap.Array_length transactions ;;
  Heap.ret {| totalIncome := totalIncome;
              totalExpense := totalExpense;
              balance := balance;
              transactionCount := transactionCount;
              categoryStats := categoryStats |}.

End ExpensesScreen.

(** ** The derived views as the specification words them *)

Module AnalyticsSpec.
Import TransactionContext.

(** The sum of a list of amounts: they are added to 0 one after the
    other, in the order of the list. *)
Definition sum (l : list number) : number :=
  List.fold_left JS.add l (JS.of_Z 0).

Definition has_type (ty : TransactionType) (t : Transaction) : bool :=
  match ty, type t with
  | income, income | expense, expense => true
  | _, _ => false
  end.

Definition in_category (c : string) (t : Transaction) : bool :=
  String.eqb (category t) c.

(** The sum of the amounts of the transactions of a type. *)
Definition total (ty : TransactionType) (ts : list Transaction) : number :=
  sum (List.map amount (List.filter (has_type ty) ts)).

(** The sum of the amounts of the transactions of a type and a category. *)
Definition category_total (ty : TransactionType) (c : string)
    (ts : list Transaction) : number :=
  sum (List.map amount
         (List.filter (fun t => has_type ty t && in_category c t) ts)).

(** The entry of a category: present when a transaction of the list has
    the category. *)
Definition category_entry (c : string) (ts : list Transaction)
  : option CategoryStat.t :=
  if List.existsb (in_category c) ts
  then Some {| CategoryStat.income := category_total income c ts;
               CategoryStat.expense := category_total expense c ts |}
  else None.

Definition zero_stat : CategoryStat.t :=
  {| CategoryStat.income := JS.of_Z 0; CategoryStat.expense := JS.of_Z 0 |}.

(** The entry [st] of the category [c] after the transactions [ts] have
    been accumulated into it, first to last. *)
Definition stat_fold (c : string) (st : CategoryStat.t)
    (ts : list Transaction) : CategoryStat.t :=
  List.fold_left
    (fun st t =>
       if in_category c t
       then ExpensesScreen.add_to_stat (type t) (amount t) st else st)
    ts st.

End AnalyticsSpec.

Module QuerySpec.
Import TransactionContext ExpensesScreen.

(** [q] occurs in [s]. *)
Definition substring (q s : string) : Prop :=
  exists pre post, s = (pre ++ q ++ post)%string.

(** [q] occurs in [s] when the case of the letters is ignored:
    [toLowerCase] is the case mapping of the engine. *)
Definition contains_ci (toLowerCase : string -> string) (s q : string) : Prop :=
  substring (toLowerCase q) (toLowerCase s).

(** Stage 1 keeps everything for an empty query, and otherwise the
    transactions whose title or category contains the query. *)
Definition search_keeps (toLowerCase : string -> string)
    (searchQuery : string) (t : Transaction) : Prop :=
  searchQuery = "" \/
  contains_ci toLowerCase (title t) searchQuery \/
  contains_ci toLowerCase (category t) searchQuery.

(** Stage 2 keeps everything for [all], and otherwise the transactions of
    the type. *)
Definition type_keeps (filterType : FilterType.t) (t : Transaction) : Prop :=
  match filterType with
  | FilterType.all => True
  | FilterType.income => type t = income
  | FilterType.expense => type t = expense
  end.

(** The key selected by the sort type. *)
Definition sort_key (getTime : string -> number) (sortType : SortType)
    (t : Transaction) : number :=
  match sortType with
  | newest | oldest => getTime (date t)
  | highest | lowest => amount t
  end.

(** [a] may stand before [b]: descending keys for [newest] and [highest],
    ascending keys for [oldest] and [lowest]. *)
Definition in_order (getTime : string -> number) (sortType : SortType)
    (a b : Transaction) : Prop :=
  match sortType with
  | newest | highest =>
      JS.le (sort_key getTime sortType b) (sort_key getTime sortType a) = true
  | oldest | lowest =>
      JS.le (sort_key getTime sortType a) (sort_key getTime sortType b) = true
  end.

(** The two filter stages and the whole pipeline on a plain list. *)
Definition search_stage (toLowerCase : string -> string)
    (searchQuery : string) (ts : list Transaction) : list Transaction :=
  if JS.truthy searchQuery
  then List.filter (matches_search toLowerCase searchQuery) ts else ts.

Definition type_stage (filterType : FilterType.t) (ts : list Transaction)
  : list Transaction :=
  match filterType with
  | FilterType.all => ts
  | _ => List.filter (fun t => type_is (type t) filterType) ts
  end.

Definition pipeline (getTime : string -> number)
    (toLowerCase : string -> string) (searchQuery : string)
    (filterType : FilterType.t) (sortType : SortType)
    (ts : list Transaction) : list Transaction :=
  Heap.stable_sort (compare getTime sortType)
    (type_stage filterType (search_stage toLowerCase searchQuery ts)).

(** The sort is called on the array of the store itself when no stage
    has built a new one. *)
Definition sorts_store_array (searchQuery : string)
    (filterType : FilterType.t) : bool :=
  negb (JS.truthy searchQuery)
  && match filterType with FilterType.all => true | _ => false end.

(** The transactions whose sort key is [k]. *)
Definition has_key (getTime : string -> number) (sortType : SortType)
    (k : number) (t : Transaction) : bool :=
  JS.strict_eq (sort_key getTime sortType t) k.

(** The display list of a run of [processedTransactions]: the array that
    the returned reference points to. *)
Definition display (run : option (Heap.ref * Heap.heap Transaction))
  : option (list Transaction) :=
  match run with
  | Some (r, h) => h !! r
  | None => None
  end.

(** What the store cell [transactions] holds after a run. *)
Definition stored_after {A} (transactions : Heap.ref)
    (run : option (A * Heap.heap Transaction)) : option (list Transaction) :=
  match run with
  | Some (_, h) => h !! transactions
  | None => None
  end.

End QuerySpec.

(** ** AddExpenseScreen: the transaction form *)

Module AddExpenseScreen.
Import TransactionContext.

Record State : Type := {
  transactions : list Transaction;
  title : string;
  amount : string;
  type : TransactionType;
  category : string;
  alerts : Alerts
}.

Definition alert (st : State) (t m : string) : State :=
  {| transactions := transactions st; title := title st; amount := amount st;
     type := type st; category := category st;
     alerts := alerts st ++ [(t, m)] |}.

(** [handleSubmit]; [uuid] is the value of [uuid()] and [today] the value
    of [new Date().toLocaleDateString()] at the call. *)
Definition handleSubmit (uuid today : string) (st : State) : State :=
  if negb (JS.truthy (JS.trim (title st))) then
    alert st "Error" "Please enter a title"
  else if negb (JS.truthy (amount st))
          || JS.isNaN (JS.parseFloat (amount st))
          || JS.le (JS.parseFloat (amount st)) (JS.of_Z 0) then
    alert st "Error" "Please enter a valid amount"
  else
    {| transactions :=
         addTransaction
           {| TransactionContext.id := uuid;
              TransactionContext.title := JS.trim (title st);
              TransactionContext.amount := JS.parseFloat (amount st);
              TransactionContext.category := category st;
              TransactionContext.type := type st;
              TransactionContext.date := today |}
           (transactions st);
       title := title st; amount := amount st;
       type := type st; category := category st;
       alerts := alerts st ++
         [("Success",
           ((match type st with income => "Income" | expense => "Expense" end)
              ++ " added successfully!")%string)] |}.

End AddExpenseScreen.

(** ** AddSavingsGoalForm: the savings-goal form *)

Module AddSavingsGoalForm.
Import SavingsContext.

Record FormData : Type := {
  title : string;
  targetAmount : string;
  deadline : string;
  category : string
}.

Definition empty_form : FormData :=
  {| title := ""; targetAmount := ""; deadline := ""; category := "" |}.

Record State : Type := {
  savingsGoals : list SavingsGoal;
  formData : FormData;
  alerts : Alerts
}.

Definition alert (st : State) (t m : string) : State :=
  {| savingsGoals := savingsGoals st; formData := formData st;
     alerts := alerts st ++ [(t, m)] |}.

(** [handleSubmit]; [now] is the value of [Date.now()] at the call. *)
Definition handleSubmit (now : Z) (st : State) : State :=
  let f := formData st in
  if negb (JS.truthy (title f)) || negb (JS.truthy (targetAmount f))
     || negb (JS.truthy (deadline f)) || negb (JS.truthy (category f)) then
    alert st "Error" "Please fill in all fields"
  else if JS.le (JS.parseFloat (targetAmount f)) (JS.of_Z 0) then
    alert st "Error" "Target amount must be greater than 0"
  else
    {| savingsGoals :=
         addSavingsGoal
           {| SavingsContext.id := JS.Z_toString now;
              SavingsContext.title := title f;
              SavingsContext.targetAmount := JS.parseFloat (targetAmount f);
              SavingsContext.currentAmount := JS.of_Z 0;
              SavingsContext.deadline := deadline f;
              SavingsContext.category := category f |}
           (savingsGoals st);
       formData := empty_form;
       alerts := alerts st ++
         [("Success", "Savings goal created and saved successfully!")] |}.

(** No field of the form is blank. *)
Definition filled (f : FormData) : Prop :=
  title f <> "" /\ targetAmount f <> "" /\ deadline f <> "" /\ category f <> "".

(** The outcome of a submission is a rejection when the goal list is the
    one before the call and an error dialog was added. *)
Definition rejected (st st' : State) : Prop :=
  savingsGoals st' = savingsGoals st /\
  exists m, alerts st' = alerts st ++ [("Error", m)].

End AddSavingsGoalForm.

(** ** SavingsGoalCard: the card of one goal *)

Module SavingsGoalCard.
Import SavingsContext.

Record State : Type := {
  savingsGoals : list SavingsGoal;
  addAmount : string;
  alerts : Alerts
}.

(** [progress], [remaining] and [isCompleted] of the card of [goal]. *)
Definition progress (goal : SavingsGoal) : number :=
  JS.mul (JS.div (currentAmount goal) (targetAmount goal)) (JS.of_Z 100).

Definition remaining (goal : SavingsGoal) : number :=
  JS.sub (targetAmount goal) (currentAmount goal).

Definition isCompleted (goal : SavingsGoal) : bool :=
  JS.ge (currentAmount goal) (targetAmount goal).

(** [getDaysRemaining]; [today] is the time stamp of [new Date()] at the
    call and [getTime s] the time stamp of [new Date(s)]. *)
Definition getDaysRemaining (getTime : string -> number) (today : number)
    (goal : SavingsGoal) : number :=
  let deadline := getTime (deadline goal) in
  let timeDiff := JS.sub deadline today in
  let daysDiff := JS.Math_ceil (JS.div timeDiff (JS.of_Z (1000 * 3600 * 24))) in
  daysDiff.

(** [handleAddMoney] of the card of [goal]. *)
Definition handleAddMoney (goal : SavingsGoal) (st : State) : State :=
  if negb (JS.truthy (addAmount st))
     || JS.le (JS.parseFloat (addAmount st)) (JS.of_Z 0) then
    {| savingsGoals := savingsGoals st; addAmount := addAmount st;
       alerts := alerts st ++ [("Error", "Please enter a valid amount")] |}
  else
    {| savingsGoals :=
         updateSavingsGoal (id goal) (JS.parseFloat (addAmount st))
           (savingsGoals st);
       addAmount := "";
       alerts := alerts st ++
         [("Success", "Amount added and saved successfully!")] |}.

End SavingsGoalCard.

(** ** Sequences of contributions and the amount invariant of a goal *)

Module SavingsSpec.
Import SavingsContext.

(** [0 <= currentAmount <= targetAmount], with the comparisons of JS. *)
Definition amount_invariant (g : SavingsGoal) : Prop :=
  JS.le (JS.of_Z 0) (currentAmount g) = true /\
  JS.le (currentAmount g) (targetAmount g) = true.

(** A contribution [(id, delta)] with [delta > 0]. *)
Definition positive_contribution (op : string * number) : Prop :=
  JS.lt (JS.of_Z 0) (snd op) = true.

(** The store after the calls [updateSavingsGoal(id, delta)] of [ops],
    first to last. *)
Definition contribute_all (ops : list (string * number))
    (goals : list SavingsGoal) : list SavingsGoal :=
  List.fold_left (fun gs op => updateSavingsGoal (fst op) (snd op) gs) ops goals.

(** No goal of the list has the identifier. *)
Definition goal_absent (id0 : string) (goals : list SavingsGoal) : Prop :=
  Forall (fun g => id g <> id0) goals.

(** What one contribution [(id0, delta)] does to the goal at a position:
    [g] before, [g'] after. *)
Definition contribution_step (id0 : string) (delta : number)
    (g g' : SavingsGoal) : Prop :=
  targetAmount g' = targetAmount g /\
  currentAmount g' =
    (if String.eqb (id g) id0
     then JS.Math_min (targetAmount g) (JS.add (currentAmount g) delta)
     else currentAmount g) /\
  JS.le (currentAmount g) (currentAmount g') = true /\
  JS.le (currentAmount g') (targetAmount g') = true.

End SavingsSpec.

(** ** Reading back what was written *)

Module TextSpec.

(** [v] is read back from its text with [fuel] or more, whatever
    follows it that does not continue a number. *)
Definition reads (fuel : nat) (v : JS.value) : Prop :=
  forall f rest, JS.ends_number rest = true ->
    JS.parse_value (fuel + f) (JS.show_value v rest) = Some (v, rest).

(** [Y] is [X] with [n] or more characters in front. *)
Definition extends (n : nat) (X Y : string) : Prop :=
  (String.length X + n <= String.length Y)%nat.

End TextSpec.

(** ** Objects read by property name *)

Module JSObject.

(** The own property [k] of an object with the members [ms], whose names
    are distinct; [None] stands for [undefined]. *)
Fixpoint member (k : string) (ms : list (string * JS.value)) : option JS.value :=
  match ms with
  | [] => None
  | (k', v) :: r => if String.eqb k' k then Some v else member k r
  end.

(** [o.k] on an object and [o?.k] on an object or [undefined]. *)
Definition get (o : option JS.value) (k : string) : option JS.value :=
  match o with
  | Some (JS.VObj ms) => member k ms
  | _ => None
  end.

(** Whether a value counts as true in a condition. *)
Definition truthy (v : option JS.value) : bool :=
  match v with
  | None | Some JS.VNull => false
  | Some (JS.VBool b) => b
  | Some (JS.VNum n) => negb (JS.isNaN n || JS.strict_eq n (JS.of_Z 0))
  | Some (JS.VStr s) => JS.truthy s
  | Some (JS.VArr _) | Some (JS.VObj _) => true
  end.

(** [v === s] for a string literal [s]. *)
Definition is_string (v : option JS.value) (s : string) : bool :=
  match v with
  | Some (JS.VStr t) => String.eqb t s
  | _ => false
  end.

(** [v || d] *)
Definition or_else (v d : option JS.value) : option JS.value :=
  if truthy v then v else d.

(** The text of a string value; the messages handed to [Alert.alert] are
    strings. *)
Definition text (v : option JS.value) : string :=
  match v with
  | Some (JS.VStr s) => s
  | _ => ""
  end.

End JSObject.

(** ** AuthContext: the session of the signed-in user *)

Module Role.
Inductive t : Type := user | admin.
End Role.

Module AuthContext.

Record User : Type := {
  username : string;
  role : Role.t
}.

Definition DUMMY_USERS : list User :=
  [ {| username := "user1"; role := Role.user |};
    {| username := "admin1"; role := Role.admin |} ].

Definition PASSWORDS : gmap string string :=
  {[ "user1" := "1234"; "admin1" := "admin123" ]}.

(** [login(username, password)] on the state cell [user]: the object it
    returns and the cell after the call. *)
Definition login (username0 password : string) (user : option User)
  : JS.value * option User :=
  let found :=
    List.find (fun u => String.eqb (username u) username0) DUMMY_USERS in
  match found with
  | Some found =>
      if match PASSWORDS !! username found with
         | Some p => String.eqb p password
         | None => false
         end
      then (JS.VObj [("success", JS.VBool true)], Some found)
      else (JS.VObj [("success", JS.VBool false);
                     ("message", JS.VStr "Invalid credentials")], user)
  | None =>
      (JS.VObj [("success", JS.VBool false);
                ("message", JS.VStr "Invalid credentials")], user)
  end.

End AuthContext.

(** ** LoginScreen, Index and TabLayout: where the router is sent.
     [navigations] records the calls of [router.replace]. *)

Module LoginScreen.

Record State : Type := {
  username : string;
  password : string;
  isLoading : bool;
  user : option AuthContext.User;
  navigations : list string;
  alerts : Alerts
}.

(** [handleLogin] *)
Definition handleLogin (st : State) : State :=
  if negb (JS.truthy (JS.trim (username st)))
     || negb (JS.truthy (JS.trim (password st))) then
    {| username := username st; password := password st;
       isLoading := isLoading st; user := user st;
       navigations := navigations st;
       alerts := alerts st ++ [("Error", "Please fill in all fields")] |}
  else
    let (result, user') :=
      AuthContext.login (username st) (password st) (user st) in
    let result := Some result in
    if JSObject.truthy (JSObject.get result "success") then
      if JSObject.is_string (JSObject.get (JSObject.get result "user") "role")
           "admin"
      then
        {| username := username st; password := password st;
           isLoading := false; user := user';
           navigations := navigations st ++ ["/admin/admin"];
           alerts := alerts st |}
      else
        {| username := username st; password := password st;
           isLoading := false; user := user';
           navigations := navigations st ++ ["/expenses"];
           alerts := alerts st |}
    else
      {| username := username st; password := password st;
         isLoading := false; user := user';
         navigations := navigations st;
         alerts := alerts st ++
           [("Error",
             JSObject.text
               (JSObject.or_else (JSObject.get result "message")
                  (Some (JS.VStr "Login failed"))))] |}.

End LoginScreen.

Module Index.

(** The effect on [ready] and [user]. *)
Definition redirect (ready : bool) (user : option AuthContext.User)
    (navigations : list string) : list string :=
  if negb ready then navigations
  else
    match user with
    | None => navigations ++ ["/login"]
    | Some u =>
        match AuthContext.role u with
        | Role.admin => navigations ++ ["/admin"]
        | Role.user => navigations ++ ["/expenses"]
        end
    end.

End Index.

Module TabLayout.

(** [user?.role === 'admin'] *)
Definition is_admin (user : option AuthContext.User) : bool :=
  match user with
  | Some u => match AuthContext.role u with Role.admin => true | _ => false end
  | None => false
  end.

(** The effect on [isMounted] and [user]. *)
Definition redirect (isMounted : bool) (user : option AuthContext.User)
    (navigations : list string) : list string :=
  if negb isMounted then navigations
  else if is_admin user then navigations ++ ["/admin"]
  else if negb (bool_decide (is_Some user)) then navigations ++ ["/login"]
  else navigations.

(** Whether the tabs are rendered: [null] is returned for no user and for
    an admin. *)
Definition renders_tabs (user : option AuthContext.User) : bool :=
  if negb (bool_decide (is_Some user))
     || (bool_decide (is_Some user) && is_admin user)
  then false else true.

End TabLayout.

(** ** SavingsProvider: clearing, and the effects around a session *)

Module SavingsSession.
Import SavingsContext SavingsProvider.
Local Open Scope provider_scope.

Definition AsyncStorage_removeItem (key : string) : M unit :=
  fun st => (Returned tt,
             {| savingsGoals := savingsGoals st; isLoading := isLoading st;
                storage := delete key (storage st); alerts := alerts st;
                console := console st |}).

(** [clearAllData] *)
Definition clearAllData : M unit :=
  try_catch
    (_ <- AsyncStorage_removeItem STORAGE_KEY ;;
     _ <- setSavingsGoals (JS.VArr []) ;;
     Alert_alert "Success" "All savings goals cleared")
    (fun error =>
       _ <- console_error "Error clearing data:" error ;;
       Alert_alert "Error" "Failed to clear data").

(** The effects of the provider when it mounts: the save effect runs
    with [isLoading] still true, [loadSavingsGoals] completes, and the
    save effect runs again because [isLoading] changed. *)
Definition mount : M unit :=
  _ <- save_effect ;;
  _ <- loadSavingsGoals ;;
  save_effect.

(** A store operation that leaves [goals] in the cell, followed by the
    save effect that the change of [savingsGoals] triggers. *)
Definition commit (goals : list SavingsGoal) : M unit :=
  _ <- setSavingsGoals (goals_value goals) ;;
  save_effect.

(** The start of the next session over the storage that [st] leaves. *)
Definition restart (st : State) : outcome unit * State :=
  mount (initial (storage st)).

End SavingsSession.

(** ** The transaction screens as a state machine

    The state cells of AddExpenseScreen, the handlers of its controls and
    [handleDelete] of ExpensesScreen, as the events of a session. *)

Module TransactionApp.
Import TransactionContext AddExpenseScreen.

(** The values of [categoryOptions[type]], in the order of the picker. *)
Definition categoryOptions (ty : TransactionType) : list string :=
  match ty with
  | expense =>
      [ "Food"; "Transport"; "Shopping"; "Housing"; "Utilities";
        "Entertainment"; "Healthcare"; "Education"; "Clothing"; "Other" ]
  | income =>
      [ "Salary"; "Freelance"; "Investment"; "Gift"; "Bonus"; "Business";
        "Rental"; "Other" ]
  end.

(** [handleDelete(id, title)] of ExpensesScreen; [pressed] is the button
    of the dialog that the user chooses. *)
Definition handleDelete (id0 title0 : string)
    (pressed : SavingsContext.AlertButton) (st : State) : State :=
  let st :=
    alert st "Delete Transaction"
      ("Are you sure you want to delete "
         ++ String JS.quote (title0 ++ String JS.quote "?"))%string in
  match pressed with
  | SavingsContext.Cancel => st
  | SavingsContext.Delete =>
      {| transactions := deleteTransaction id0 (transactions st);
         title := title st; amount := amount st; type := type st;
         category := category st; alerts := alerts st |}
  end.

Inductive Event : Type :=
  | Mount
  | PressExpense
  | PressIncome
  | ChangeAmount (text : string)
  | ChangeTitle (text : string)
  | PickCategory (value : string)
  | PressSubmit (uuid today : string)
  | PressDelete (id0 title0 : string) (pressed : SavingsContext.AlertButton).

(** The state after an event.  [Mount] gives the state cells of the form
    their initial values, the empty texts, ['expense'] and ['Food']; the two
    buttons of the type toggle set the type and its first category. *)
Definition step (st : State) (e : Event) : State :=
  match e with
  | Mount =>
      {| transactions := transactions st; title := ""; amount := "";
         type := expense; category := "Food"; alerts := alerts st |}
  | PressExpense =>
      {| transactions := transactions st; title := title st;
         amount := amount st; type := expense; category := "Food";
         alerts := alerts st |}
  | PressIncome =>
      {| transactions := transactions st; title := title st;
         amount := amount st; type := income; category := "Salary";
         alerts := alerts st |}
  | ChangeAmount text =>
      {| transactions := transactions st; title := title st;
         amount := text; type := type st; category := category st;
         alerts := alerts st |}
  | ChangeTitle text =>
      {| transactions := transactions st; title := text;
         amount := amount st; type := type st; category := category st;
         alerts := alerts st |}
  | PickCategory value =>
      {| transactions := transactions st; title := title st;
         amount := amount st; type := type st; category := value;
         alerts := alerts st |}
  | PressSubmit uuid today => handleSubmit uuid today st
  | PressDelete id0 title0 pressed => handleDelete id0 title0 pressed st
  end.

Definition run (events : list Event) (st : State) : State :=
  List.fold_left step events st.

(** The state when the app starts and the form is mounted. *)
Definition start : State :=
  {| transactions := []; title := ""; amount := ""; type := expense;
     category := "Food"; alerts := [] |}.

(** The picker offers the options of the type that is selected: every
    value picked along the events is one of them. *)
Fixpoint offered (events : list Event) (st : State) : Prop :=
  match events with
  | [] => True
  | e :: events' =>
      match e with
      | PickCategory value => In value (categoryOptions (type st))
      | _ => True
      end /\ offered events' (step st e)
  end.

(** What the form guarantees of a stored transaction. *)
Definition well_formed (t : Transaction) : Prop :=
  JS.lt (JS.of_Z 0) (TransactionContext.amount t) = true /\
  TransactionContext.title t <> "" /\
  In (TransactionContext.category t)
     (categoryOptions (TransactionContext.type t)).

End TransactionApp.

(** ** The savings screen as a state machine *)

Module SavingsApp.
Import SavingsContext.

Record State : Type := {
  savingsGoals : list SavingsGoal;
  alerts : Alerts
}.

Inductive Event : Type :=
  | Submit (now : Z) (form : AddSavingsGoalForm.FormData)
  | AddMoney (goal : SavingsGoal) (text : string)
  | PressDelete (id0 : string) (pressed : AlertButton).

(** [Submit]: the form holds [form] and is submitted at the time [now];
    [AddMoney]: the input of the card of [goal] holds [text] and its
    button is pressed; [PressDelete]: the trash icon of the card of the
    goal [id0] and then a button of the dialog. *)
Definition step (st : State) (e : Event) : State :=
  match e with
  | Submit now form =>
      let st' :=
        AddSavingsGoalForm.handleSubmit now
          {| AddSavingsGoalForm.savingsGoals := savingsGoals st;
             AddSavingsGoalForm.formData := form;
             AddSavingsGoalForm.alerts := alerts st |} in
      {| savingsGoals := AddSavingsGoalForm.savingsGoals st';
         alerts := AddSavingsGoalForm.alerts st' |}
  | AddMoney goal text =>
      let st' :=
        SavingsGoalCard.handleAddMoney goal
          {| SavingsGoalCard.savingsGoals := savingsGoals st;
             SavingsGoalCard.addAmount := text;
             SavingsGoalCard.alerts := alerts st |} in
      {| savingsGoals := SavingsGoalCard.savingsGoals st';
         alerts := SavingsGoalCard.alerts st' |}
  | PressDelete id0 pressed =>
      {| savingsGoals := deleteSavingsGoal id0 pressed (savingsGoals st);
         alerts := alerts st |}
  end.

Definition run (events : list Event) (st : State) : State :=
  List.fold_left step events st.

Definition start : State := {| savingsGoals := []; alerts := [] |}.



End SavingsApp.

(** ** Sample data used by the closed instances of the theorems *)

Module Samples.

Definition emergency_fund : SavingsContext.SavingsGoal :=
  {| SavingsContext.id := "1700000000000";
     SavingsContext.title := "Emergency Fund";
     SavingsContext.targetAmount := JS.of_Z 1000;
     SavingsContext.currentAmount := JS.of_Z 250;
     SavingsContext.deadline := "2025-12-31";
     SavingsContext.category := "Emergency" |}.

Definition vacation : SavingsContext.SavingsGoal :=
  {| SavingsContext.id := "1700000000500";
     SavingsContext.title := "Vacation";
     SavingsContext.targetAmount := JS.of_Z 300;
     SavingsContext.currentAmount := JS.of_Z 0;
     SavingsContext.deadline := "2025-07-01";
     SavingsContext.category := "Vacation" |}.

Definition contributions : list (string * number) :=
  [ ("1700000000000", JS.of_Z 500);
    ("1700000000500", JS.of_Z 20);
    ("1700000000000", JS.of_Z 400) ].

(** A savings-goal form whose target amount is a lone decimal point. *)
Definition dot_form : AddSavingsGoalForm.State :=
  {| AddSavingsGoalForm.savingsGoals := [emergency_fund];
     AddSavingsGoalForm.formData :=
       {| AddSavingsGoalForm.title := "Car";
          AddSavingsGoalForm.targetAmount := ".";
          AddSavingsGoalForm.deadline := "2026-01-01";
          AddSavingsGoalForm.category := "Transport" |};
     AddSavingsGoalForm.alerts := [] |}.

(** The goal that [handleSubmit] builds from [dot_form]. *)
Definition dot_goal : SavingsContext.SavingsGoal :=
  {| SavingsContext.id := "1700000001000";
     SavingsContext.title := "Car";
     SavingsContext.targetAmount := JS.NaN;
     SavingsContext.currentAmount := JS.of_Z 0;
     SavingsContext.deadline := "2026-01-01";
     SavingsContext.category := "Transport" |}.

(** The transaction form with the same text as its amount. *)
Definition dot_expense : AddExpenseScreen.State :=
  {| AddExpenseScreen.transactions := [];
     AddExpenseScreen.title := "Car";
     AddExpenseScreen.amount := ".";
     AddExpenseScreen.type := TransactionContext.expense;
     AddExpenseScreen.category := "Transport";
     AddExpenseScreen.alerts := [] |}.

(** The two transactions of the query examples; the examples leave the
    categories open. *)
Definition coffee (category : string) : TransactionContext.Transaction :=
  {| TransactionContext.id := "1";
     TransactionContext.title := "Coffee";
     TransactionContext.amount := JS.of_Z 5;
     TransactionContext.category := category;
     TransactionContext.type := TransactionContext.expense;
     TransactionContext.date := "2024-01-02" |}.

Definition salary (category : string) : TransactionContext.Transaction :=
  {| TransactionContext.id := "2";
     TransactionContext.title := "Salary";
     TransactionContext.amount := JS.of_Z 1000;
     TransactionContext.category := category;
     TransactionContext.type := TransactionContext.income;
     TransactionContext.date := "2024-01-01" |}.

(** The three transactions of the analytics example, with the fields the
    example leaves open filled in. *)
Definition analytics_example : list TransactionContext.Transaction :=
  [ {| TransactionContext.id := "a";
       TransactionContext.title := "Salary";
       TransactionContext.amount := JS.of_Z 100;
       TransactionContext.category := "Salary";
       TransactionContext.type := TransactionContext.income;
       TransactionContext.date := "1/2/2024" |};
    {| TransactionContext.id := "b";
       TransactionContext.title := "Bus";
       TransactionContext.amount := JS.of_Z 40;
       TransactionContext.category := "Transport";
       TransactionContext.type := TransactionContext.expense;
       TransactionContext.date := "1/2/2024" |};
    {| TransactionContext.id := "c";
       TransactionContext.title := "Lunch";
       TransactionContext.amount := JS.of_Z 10;
       TransactionContext.category := "Food";
       TransactionContext.type := TransactionContext.expense;
       TransactionContext.date := "1/3/2024" |} ].

(** A payload that is not JSON. *)
Definition broken_payload : string := "[{id: 1700000000000, title: ".


End Samples.

(* ===================================================================== *)
(** * Part II: lemmas and theorems                                        *)
(* ===================================================================== *)

(** ** Arithmetic of the number model *)

Section NumberFacts.
Import JS.

Lemma le_not_NaN_l a b : le a b = true -> a <> NaN.
Proof. destruct a; simpl; congruence. Qed.

Lemma le_not_NaN_r a b : le a b = true -> b <> NaN.
Proof. destruct a, b; simpl; congruence. Qed.

Lemma lt_le a b : lt a b = true -> le a b = true.
Proof.
  destruct a as [| | |p], b as [| | |q]; simpl; try congruence.
  rewrite negb_true_iff. intros H.
  apply Qle_bool_iff. destruct (Qlt_le_dec q p) as [Hlt|Hle].
  - apply Qlt_le_weak in Hlt. apply Qle_bool_iff in Hlt. congruence.
  - destruct (Qlt_le_dec p q) as [Hlt'|Hle']; [now apply Qlt_le_weak|].
    apply Qle_bool_iff in Hle'. congruence.
Qed.

Lemma le_refl a : a <> NaN -> le a a = true.
Proof.
  destruct a; simpl; try congruence. intros _.
  apply Qle_bool_iff, Qle_refl.
Qed.

Lemma le_trans a b c : le a b = true -> le b c = true -> le a c = true.
Proof.
  destruct a as [| | |p], b as [| | |q], c as [| | |r]; simpl; try congruence.
  rewrite !Qle_bool_iff. apply Qle_trans.
Qed.

Lemma lt_false_le a b : a <> NaN -> b <> NaN -> lt b a = false -> le a b = true.
Proof.
  destruct a as [| | |p], b as [| | |q]; simpl; try congruence.
  intros _ _. rewrite negb_false_iff. trivial.
Qed.

(** [Math.min] never exceeds its first argument. *)
Lemma Math_min_le_l a b : a <> NaN -> b <> NaN -> le (Math_min a b) a = true.
Proof.
  intros Ha Hb. unfold Math_min.
  destruct (lt b a) eqn:Hlt.
  - destruct a, b; try congruence; now apply lt_le.
  - destruct a, b; try congruence; now apply le_refl.
Qed.

(** A lower bound of both arguments is a lower bound of [Math.min]. *)
Lemma Math_min_glb c a b :
  le c a = true -> le c b = true -> le c (Math_min a b) = true.
Proof.
  intros Ha Hb. unfold Math_min.
  pose proof (le_not_NaN_r _ _ Ha). pose proof (le_not_NaN_r _ _ Hb).
  destruct (lt b a); destruct a, b; congruence.
Qed.

(** Adding a positive amount to a non-negative one does not decrease it. *)
Lemma add_positive_le c d :
  le (of_Z 0) c = true -> lt (of_Z 0) d = true -> le c (add c d) = true.
Proof.
  destruct c as [| | |p], d as [| | |q]; simpl; try congruence.
  rewrite negb_true_iff. intros _ Hq.
  apply Qle_bool_iff. rewrite Qred_correct.
  assert (0 < q)%Q as Hpos.
  { destruct (Qlt_le_dec 0 q) as [H|H]; [exact H|].
    apply Qle_bool_iff in H. unfold inject_Z in Hq. congruence. }
  rewrite <- (Qplus_0_r p) at 1.
  apply Qplus_le_r. now apply Qlt_le_weak.
Qed.

End NumberFacts.

(** ** The savings-goal store *)

Section SavingsStore.
Import SavingsContext SavingsSpec.

Lemma clamp_keeps_invariant (g : SavingsGoal) (delta : number) :
  amount_invariant g ->
  JS.lt (JS.of_Z 0) delta = true ->
  let c := JS.Math_min (targetAmount g) (JS.add (currentAmount g) delta) in
  JS.le (currentAmount g) c = true /\ JS.le c (targetAmount g) = true.
Proof.
  intros [H0 Hle] Hd c.
  assert (JS.le (currentAmount g) (JS.add (currentAmount g) delta) = true) as Hadd
    by now apply add_positive_le.
  split.
  - now apply Math_min_glb.
  - apply Math_min_le_l.
    + exact (le_not_NaN_r _ _ Hle).
    + exact (le_not_NaN_r _ _ Hadd).
Qed.

Lemma updateSavingsGoal_step (goals : list SavingsGoal) id0 delta :
  Forall amount_invariant goals ->
  JS.lt (JS.of_Z 0) delta = true ->
  Forall2 (contribution_step id0 delta) goals (updateSavingsGoal id0 delta goals).
Proof.
  intros Hinv Hd. induction Hinv as [|g goals Hg _ IH]; simpl; constructor; [|exact IH].
  destruct (clamp_keeps_invariant g delta Hg Hd) as [Hlo Hhi].
  unfold contribution_step. destruct Hg as [H0 Hle].
  destruct (String.eqb (id g) id0); simpl; repeat split; auto.
  apply le_refl. exact (le_not_NaN_l _ _ Hle).
Qed.

Lemma updateSavingsGoal_invariant (goals : list SavingsGoal) id0 delta :
  Forall amount_invariant goals ->
  JS.lt (JS.of_Z 0) delta = true ->
  Forall amount_invariant (updateSavingsGoal id0 delta goals).
Proof.
  intros Hinv Hd. induction Hinv as [|g goals Hg _ IH]; simpl; constructor; [|exact IH].
  destruct (clamp_keeps_invariant g delta Hg Hd) as [Hlo Hhi].
  destruct (String.eqb (id g) id0); [|exact Hg].
  destruct Hg as [H0 Hle]. split; cbn [currentAmount targetAmount with_currentAmount];
    [|exact Hhi].
  now apply le_trans with (currentAmount g).
Qed.

Lemma contribute_all_invariant ops (goals : list SavingsGoal) :
  Forall positive_contribution ops ->
  Forall amount_invariant goals ->
  Forall amount_invariant (contribute_all ops goals).
Proof.
  intros Hops. revert goals.
  induction Hops as [|[i d] ops Hop _ IH]; intros goals Hinv; simpl; [exact Hinv|].
  apply IH. now apply updateSavingsGoal_invariant.
Qed.

Lemma contribute_all_snoc ops op (goals : list SavingsGoal) :
  contribute_all (ops ++ [op]) goals =
  updateSavingsGoal (fst op) (snd op) (contribute_all ops goals).
Proof. unfold contribute_all. now rewrite fold_left_app. Qed.

(** C1. In a store whose goals satisfy [0 <= currentAmount <=
    targetAmount], along every sequence of contributions with a positive
    amount, the [n]-th contribution [(id0, delta)] leaves every goal's
    target as it was, sets the current amount of a goal with that
    identifier to [Math.min(targetAmount, currentAmount + delta)] and
    keeps the others, and in both cases the current amount does not
    decrease and does not exceed the target. *)
Theorem contribute_clamp_invariant
    (goals : list SavingsGoal) (ops : list (string * number))
    (n : nat) (id0 : string) (delta : number) :
  Forall amount_invariant goals ->
  Forall positive_contribution ops ->
  ops !! n = Some (id0, delta) ->
  Forall2 (contribution_step id0 delta)
    (contribute_all (take n ops) goals)
    (contribute_all (take (S n) ops) goals).
Proof.
  intros Hinv Hops Hn.
  rewrite (take_S_r _ _ _ Hn), contribute_all_snoc. simpl.
  apply updateSavingsGoal_step.
  - apply contribute_all_invariant; [|exact Hinv].
    apply Forall_take. exact Hops.
  - rewrite Forall_forall in Hops. apply (Hops (id0, delta)).
    eapply list_elem_of_lookup_2. exact Hn.
Qed.

(** C10. A contribution keeps the number and the order of the goals; the
    goal at each position keeps its id, title, target, deadline and
    category, and is unchanged altogether when its id is not the one
    contributed to. *)
Theorem updateSavingsGoal_frame
    (goals : list SavingsGoal) (id0 : string) (amount : number) :
  length (updateSavingsGoal id0 amount goals) = length goals /\
  Forall2
    (fun g g' =>
       id g' = id g /\ title g' = title g /\
       targetAmount g' = targetAmount g /\
       deadline g' = deadline g /\ category g' = category g /\
       (id g <> id0 -> g' = g))
    goals (updateSavingsGoal id0 amount goals).
Proof.
  split.
  - unfold updateSavingsGoal. apply length_map.
  - induction goals as [|g goals IH]; simpl; constructor; [|exact IH].
    destruct (String.eqb_spec (id g) id0) as [Heq|Hne]; simpl.
    + repeat split; auto. intros Hc. congruence.
    + repeat split; auto.
Qed.

Lemma contribute_clamp_invariant_witness :
  Forall amount_invariant [Samples.emergency_fund; Samples.vacation] /\
  Forall positive_contribution Samples.contributions /\
  Samples.contributions !! 2%nat = Some ("1700000000000", JS.of_Z 400) /\
  Forall2 (contribution_step "1700000000000" (JS.of_Z 400))
    (contribute_all (take 2 Samples.contributions)
       [Samples.emergency_fund; Samples.vacation])
    (contribute_all (take 3 Samples.contributions)
       [Samples.emergency_fund; Samples.vacation]).
Proof.
  assert (Forall amount_invariant [Samples.emergency_fund; Samples.vacation]) as Hinv
    by (repeat constructor).
  assert (Forall positive_contribution Samples.contributions) as Hops
    by (repeat constructor).
  assert (Samples.contributions !! 2%nat = Some ("1700000000000", JS.of_Z 400)) as Hn
    by reflexivity.
  repeat split; try assumption.
  exact (contribute_clamp_invariant _ _ 2%nat _ _ Hinv Hops Hn).
Defined.

Lemma updateSavingsGoal_frame_witness :
  length (updateSavingsGoal "1700000000000" (JS.of_Z 500)
            [Samples.emergency_fund; Samples.vacation]) = 2%nat /\
  Forall2
    (fun g g' =>
       id g' = id g /\ title g' = title g /\
       targetAmount g' = targetAmount g /\
       deadline g' = deadline g /\ category g' = category g /\
       (id g <> "1700000000000" -> g' = g))
    [Samples.emergency_fund; Samples.vacation]
    (updateSavingsGoal "1700000000000" (JS.of_Z 500)
       [Samples.emergency_fund; Samples.vacation]).
Proof.
  exact (updateSavingsGoal_frame [Samples.emergency_fund; Samples.vacation]
           "1700000000000" (JS.of_Z 500)).
Defined.

Lemma filter_id_idempotent {A} (p : A -> bool) (l : list A) :
  List.filter p (List.filter p l) = List.filter p l.
Proof.
  induction l as [|x l IH]; simpl; [reflexivity|].
  destruct (p x) eqn:Hp; simpl; [rewrite Hp; now f_equal | exact IH].
Qed.

Lemma filter_all_true {A} (p : A -> bool) (l : list A) :
  Forall (fun x => p x = true) l -> List.filter p l = l.
Proof.
  induction 1 as [|x l Hx _ IH]; simpl; [reflexivity|].
  rewrite Hx. now f_equal.
Qed.

(** C7. Deleting twice is deleting once, for transactions and for savings
    goals; deleting or contributing to an identifier that no element of
    the store has returns the store as it was.  The three operations are
    total functions: there is no error outcome. *)
Theorem delete_idempotent_absent_noop
    (txs : list TransactionContext.Transaction)
    (goals : list SavingsGoal) (id0 : string) (amount : number) :
  TransactionContext.deleteTransaction id0
      (TransactionContext.deleteTransaction id0 txs) =
    TransactionContext.deleteTransaction id0 txs /\
  deleteSavingsGoal id0 Delete (deleteSavingsGoal id0 Delete goals) =
    deleteSavingsGoal id0 Delete goals /\
  (Forall (fun tx => TransactionContext.id tx <> id0) txs ->
   TransactionContext.deleteTransaction id0 txs = txs) /\
  (goal_absent id0 goals ->
   deleteSavingsGoal id0 Delete goals = goals /\
   updateSavingsGoal id0 amount goals = goals).
Proof.
  split; [apply filter_id_idempotent|].
  split; [apply filter_id_idempotent|].
  split.
  - intros Habs. apply filter_all_true.
    eapply Forall_impl; [exact Habs|]. intros tx Hne. cbn beta in *.
    destruct (String.eqb_spec (TransactionContext.id tx) id0); [contradiction|reflexivity].
  - intros Habs. split.
    + apply filter_all_true.
      eapply Forall_impl; [exact Habs|]. intros g Hne. cbn beta in *.
      destruct (String.eqb_spec (id g) id0); [contradiction|reflexivity].
    + induction Habs as [|g goals Hg _ IH]; simpl; [reflexivity|].
      destruct (String.eqb_spec (id g) id0); [contradiction|]. now f_equal.
Qed.

Lemma delete_idempotent_absent_noop_witness :
  Forall (fun tx => TransactionContext.id tx <> "3")
    [Samples.coffee "Food"; Samples.salary "Salary"] /\
  goal_absent "3" [Samples.emergency_fund; Samples.vacation] /\
  TransactionContext.deleteTransaction "3"
    [Samples.coffee "Food"; Samples.salary "Salary"] =
    [Samples.coffee "Food"; Samples.salary "Salary"] /\
  deleteSavingsGoal "3" Delete [Samples.emergency_fund; Samples.vacation] =
    [Samples.emergency_fund; Samples.vacation] /\
  updateSavingsGoal "3" (JS.of_Z 10) [Samples.emergency_fund; Samples.vacation] =
    [Samples.emergency_fund; Samples.vacation].
Proof.
  assert (Forall (fun tx => TransactionContext.id tx <> "3")
            [Samples.coffee "Food"; Samples.salary "Salary"]) as Htx
    by (repeat constructor; discriminate).
  assert (goal_absent "3" [Samples.emergency_fund; Samples.vacation]) as Hg
    by (repeat constructor; discriminate).
  destruct (delete_idempotent_absent_noop
              [Samples.coffee "Food"; Samples.salary "Salary"]
              [Samples.emergency_fund; Samples.vacation] "3" (JS.of_Z 10))
    as (_ & _ & Hdel & Hgoal).
  destruct (Hgoal Hg) as [Hd Hu].
  repeat split; auto.
Defined.

End SavingsStore.

(** ** The savings-goal form *)

Section SavingsForm.
Import SavingsContext AddSavingsGoalForm.

Lemma truthy_iff s : JS.truthy s = true <-> s <> "".
Proof.
  unfold JS.truthy. destruct (String.eqb_spec s ""); simpl; split; congruence.
Qed.

Lemma filled_guard (f : FormData) :
  filled f ->
  negb (JS.truthy (title f)) || negb (JS.truthy (targetAmount f))
  || negb (JS.truthy (deadline f)) || negb (JS.truthy (category f)) = false.
Proof.
  intros (H1 & H2 & H3 & H4).
  apply truthy_iff in H1, H2, H3, H4. now rewrite H1, H2, H3, H4.
Qed.

(** With every field filled in and a target text that [parseFloat] reads
    as a number that is zero or negative, the submission is rejected. *)
Lemma handleSubmit_rejects_nonpositive now (st : State) :
  filled (formData st) ->
  JS.le (JS.parseFloat (targetAmount (formData st))) (JS.of_Z 0) = true ->
  rejected st (handleSubmit now st).
Proof.
  intros Hf Hle. unfold handleSubmit. rewrite (filled_guard _ Hf), Hle.
  split; [reflexivity|]. eexists. reflexivity.
Qed.

(** A blank field rejects the submission as well. *)
Lemma handleSubmit_rejects_blank now (st : State) :
  ~ filled (formData st) -> rejected st (handleSubmit now st).
Proof.
  intros Hf. unfold handleSubmit.
  destruct (negb (JS.truthy (title (formData st))) || _ || _ || _) eqn:Hg.
  - split; [reflexivity|]. eexists. reflexivity.
  - exfalso. apply Hf.
    rewrite !orb_false_iff, !negb_false_iff, !truthy_iff in Hg.
    unfold filled. tauto.
Qed.

(** With every field filled in and a positive target, the goal is put at
    the head of the list with a current amount of 0. *)
Lemma handleSubmit_accepts_positive now (st : State) :
  filled (formData st) ->
  JS.lt (JS.of_Z 0) (JS.parseFloat (targetAmount (formData st))) = true ->
  exists goal,
    savingsGoals (handleSubmit now st) = goal :: savingsGoals st /\
    currentAmount goal = JS.of_Z 0 /\
    SavingsContext.targetAmount goal = JS.parseFloat (targetAmount (formData st)).
Proof.
  intros Hf Hlt. unfold handleSubmit. rewrite (filled_guard _ Hf).
  destruct (JS.le _ _) eqn:Hle.
  - exfalso. revert Hlt Hle.
    destruct (JS.parseFloat _) as [| | |q]; simpl; try congruence.
    rewrite negb_true_iff. congruence.
  - eexists. split; [reflexivity|]. split; reflexivity.
Qed.

(** C2, the code at the failing input.  The target text "." is not empty
    and [parseFloat] reads it as [NaN]; [NaN <= 0] is false, so the form
    handler does not reject it: the goal is stored with the target [NaN],
    which is not greater than 0.  The transaction form, which tests
    [isNaN(parseFloat(amount))] first, rejects the same text. *)
Theorem savings_form_accepts_NaN_target :
  JS.parseFloat "." = JS.NaN /\
  JS.lt (JS.of_Z 0) (JS.NaN) = false /\
  savingsGoals (handleSubmit 1700000001000 Samples.dot_form) =
    Samples.dot_goal :: savingsGoals Samples.dot_form /\
  ~ rejected Samples.dot_form (handleSubmit 1700000001000 Samples.dot_form) /\
  AddExpenseScreen.transactions
    (AddExpenseScreen.handleSubmit "uuid-1" "1/2/2026" Samples.dot_expense) =
    AddExpenseScreen.transactions Samples.dot_expense.
Proof.
  split; [reflexivity|]. split; [reflexivity|]. split; [reflexivity|].
  split; [|reflexivity].
  intros [Hsame _]. vm_compute in Hsame. discriminate Hsame.
Qed.


End SavingsForm.

(** ** Running array computations *)

Section HeapFacts.
Context {T : Type}.
Implicit Types (h : Heap.heap T) (r : Heap.ref) (a : list T).

Lemma read_run h r a : h !! r = Some a -> Heap.read r h = Some (a, h).
Proof. intros H. unfold Heap.read. now rewrite H. Qed.

Lemma Array_filter_run h r a (p : T -> bool) :
  h !! r = Some a ->
  Heap.Array_filter p r h = Some (length h, h ++ [List.filter p a]).
Proof.
  intros H. unfold Heap.Array_filter, Heap.bind. now rewrite (read_run _ _ _ H).
Qed.

Lemma Array_sort_run h r a (cmp : T -> T -> number) :
  h !! r = Some a ->
  Heap.Array_sort cmp r h = Some (r, <[r := Heap.stable_sort cmp a]> h).
Proof.
  intros H. unfold Heap.Array_sort, Heap.bind, Heap.write.
  now rewrite (read_run _ _ _ H), H.
Qed.

Lemma Array_reduce_run {B} h r a (f : B -> T -> B) (init : B) :
  h !! r = Some a ->
  Heap.Array_reduce f init r h = Some (List.fold_left f a init, h).
Proof.
  intros H. unfold Heap.Array_reduce, Heap.bind. now rewrite (read_run _ _ _ H).
Qed.

Lemma Array_length_run h r a :
  h !! r = Some a -> Heap.Array_length r h = Some (length a, h).
Proof.
  intros H. unfold Heap.Array_length, Heap.bind. now rewrite (read_run _ _ _ H).
Qed.

Lemma lookup_alloc_new h a : (h ++ [a]) !! length h = Some a.
Proof. rewrite lookup_app_r by lia. now rewrite Nat.sub_diag. Qed.

Lemma lookup_alloc_old h a r b : h !! r = Some b -> (h ++ [a]) !! r = Some b.
Proof. intros H. rewrite lookup_app_l; [exact H|]. eapply lookup_lt_Some, H. Qed.

End HeapFacts.

(** ** The analytics *)

Section AnalyticsFacts.
Import TransactionContext ExpensesScreen AnalyticsSpec.

Lemma type_is_income t : type_is (type t) FilterType.income = has_type income t.
Proof. unfold has_type. now destruct (type t). Qed.

Lemma type_is_expense t : type_is (type t) FilterType.expense = has_type expense t.
Proof. unfold has_type. now destruct (type t). Qed.

Lemma reduce_amounts (l : list Transaction) (a : number) :
  List.fold_left (fun sum t => JS.add sum (amount t)) l a =
  List.fold_left JS.add (List.map amount l) a.
Proof. revert a. induction l as [|t l IH]; intros a; simpl; [reflexivity|apply IH]. Qed.

(** The result of a run of [analytics], and the heap it leaves: the two
    arrays built by [filter] are added, nothing else is touched. *)
Lemma analytics_run (h : Heap.heap Transaction) r ts :
  h !! r = Some ts ->
  analytics r h =
  Some ({| totalIncome := total income ts;
           totalExpense := total expense ts;
           balance := JS.sub (total income ts) (total expense ts);
           transactionCount := length ts;
           categoryStats := List.fold_left category_step ts ∅ |},
        h ++ [List.filter (has_type income) ts]
          ++ [List.filter (has_type expense) ts]).
Proof.
  intros H. unfold analytics, Heap.bind at 1.
  rewrite (Array_filter_run _ _ _ _ H).
  unfold Heap.bind at 1.
  rewrite (Array_reduce_run _ _ _ _ _ (lookup_alloc_new _ _)).
  unfold Heap.bind at 1.
  rewrite (Array_filter_run _ _ _ _ (lookup_alloc_old _ _ _ _ H)).
  unfold Heap.bind at 1.
  rewrite (Array_reduce_run _ _ _ _ _ (lookup_alloc_new _ _)).
  assert (((h ++ [List.filter (fun t => type_is (type t) FilterType.income) ts])
            ++ [List.filter (fun t => type_is (type t) FilterType.expense) ts])
          !! r = Some ts) as H2.
  { apply lookup_alloc_old. now apply lookup_alloc_old. }
  unfold Heap.bind at 1.
  rewrite (Array_reduce_run _ _ _ _ _ H2).
  unfold Heap.bind at 1.
  rewrite (Array_length_run _ _ _ H2).
  unfold Heap.ret. rewrite !reduce_amounts. fold (sum (List.map amount
    (List.filter (fun t => type_is (type t) FilterType.income) ts))).
  fold (sum (List.map amount
    (List.filter (fun t => type_is (type t) FilterType.expense) ts))).
  rewrite (List.filter_ext _ _ type_is_income), (List.filter_ext _ _ type_is_expense).
  rewrite <- app_assoc. reflexivity.
Qed.

Lemma category_step_same acc t c :
  category t = c -> JS.inherited c = false ->
  category_step acc t !! c =
  Some (add_to_stat (type t) (amount t) (default zero_stat (acc !! c))).
Proof.
  intros <- Hown. unfold category_step. rewrite Hown.
  destruct (acc !! category t) as [st|] eqn:Hacc.
  - rewrite lookup_alter_eq, Hacc. reflexivity.
  - rewrite lookup_alter_eq, lookup_insert_eq. reflexivity.
Qed.

Lemma category_step_other acc t c :
  category t <> c -> category_step acc t !! c = acc !! c.
Proof.
  intros Hne. unfold category_step.
  destruct (acc !! category t) as [st|] eqn:Hacc.
  - now rewrite lookup_alter_ne.
  - rewrite lookup_alter_ne by exact Hne.
    destruct (JS.inherited (category t)); [reflexivity|].
    now rewrite lookup_insert_ne.
Qed.

(** A transaction in a category with an inherited name leaves an
    accumulator without an own entry of that name as it is. *)
Lemma category_step_inherited acc t :
  JS.inherited (category t) = true -> acc !! category t = None ->
  category_step acc t = acc.
Proof.
  intros Hin Hacc. unfold category_step. rewrite Hacc, Hin.
  apply map_eq. intros k. destruct (String.eqb_spec (category t) k) as [<-|Hne].
  - now rewrite lookup_alter_eq, Hacc.
  - now rewrite lookup_alter_ne.
Qed.

Lemma category_fold_lookup ts acc c :
  JS.inherited c = false ->
  List.fold_left category_step ts acc !! c =
  match acc !! c with
  | Some st => Some (stat_fold c st ts)
  | None => if List.existsb (in_category c) ts
            then Some (stat_fold c zero_stat ts) else None
  end.
Proof.
  intros Hown. revert acc. induction ts as [|t ts IH]; intros acc.
  - simpl. now destruct (acc !! c).
  - cbn [List.fold_left]. rewrite IH.
    destruct (String.eqb_spec (category t) c) as [Heq|Hne].
    + assert (in_category c t = true) as Hin
        by (unfold in_category; rewrite Heq; apply String.eqb_refl).
      rewrite (category_step_same _ _ _ Heq Hown).
      unfold stat_fold. cbn [List.fold_left List.existsb]. rewrite Hin.
      destruct (acc !! c); reflexivity.
    + assert (in_category c t = false) as Hin
        by (unfold in_category; now apply String.eqb_neq).
      rewrite (category_step_other _ _ _ Hne).
      unfold stat_fold. cbn [List.fold_left List.existsb]. rewrite Hin.
      destruct (acc !! c); reflexivity.
Qed.

Lemma category_fold_inherited ts acc c :
  JS.inherited c = true -> acc !! c = None ->
  List.fold_left category_step ts acc !! c = None.
Proof.
  intros Hin. revert acc. induction ts as [|t ts IH]; intros acc Hacc;
    [exact Hacc|].
  cbn [List.fold_left]. apply IH.
  destruct (String.eqb_spec (category t) c) as [Heq|Hne].
  - subst c. now rewrite category_step_inherited.
  - now rewrite category_step_other.
Qed.

Lemma stat_fold_income c ts st :
  CategoryStat.income (stat_fold c st ts) =
  List.fold_left JS.add
    (List.map amount (List.filter (fun t => has_type income t && in_category c t) ts))
    (CategoryStat.income st).
Proof.
  unfold stat_fold. revert st.
  induction ts as [|t ts IH]; intros st; [reflexivity|].
  cbn [List.fold_left List.filter]. rewrite IH. unfold has_type at 2.
  destruct (in_category c t), (type t); simpl; reflexivity.
Qed.

Lemma stat_fold_expense c ts st :
  CategoryStat.expense (stat_fold c st ts) =
  List.fold_left JS.add
    (List.map amount (List.filter (fun t => has_type expense t && in_category c t) ts))
    (CategoryStat.expense st).
Proof.
  unfold stat_fold. revert st.
  induction ts as [|t ts IH]; intros st; [reflexivity|].
  cbn [List.fold_left List.filter]. rewrite IH. unfold has_type at 2.
  destruct (in_category c t), (type t); simpl; reflexivity.
Qed.

(** The object built by the [categoryStats] reducer holds, for each
    category whose name is not inherited, the entry the specification
    describes, and no entry under an inherited name. *)
Lemma categoryStats_entry ts c :
  List.fold_left category_step ts ∅ !! c =
  if JS.inherited c then None else category_entry c ts.
Proof.
  destruct (JS.inherited c) eqn:Hin.
  - apply category_fold_inherited; [exact Hin|apply lookup_empty].
  - rewrite (category_fold_lookup _ _ _ Hin), lookup_empty. unfold category_entry.
    destruct (List.existsb (in_category c) ts); [|reflexivity].
    f_equal. unfold category_total, sum.
    change (JS.of_Z 0) with (CategoryStat.income zero_stat) at 1.
    change (JS.of_Z 0) with (CategoryStat.expense zero_stat) at 1.
    rewrite <- stat_fold_income, <- stat_fold_expense.
    now destruct (stat_fold c zero_stat ts).
Qed.

(** What [analytics] returns on every transaction list: the amounts of
    the income transactions and those of the expense transactions, each
    added up from 0 in the order of the list, their difference, the
    length of the list, and an object with the entry of every category
    that occurs, unless the name of the category is one that every
    object inherits. *)
Lemma analytics_result (h : Heap.heap Transaction) (r : Heap.ref)
    (ts : list Transaction) :
  h !! r = Some ts ->
  exists a h',
    analytics r h = Some (a, h') /\
    totalIncome a = total income ts /\
    totalExpense a = total expense ts /\
    balance a = JS.sub (totalIncome a) (totalExpense a) /\
    transactionCount a = length ts /\
    (forall c, categoryStats a !! c =
               if JS.inherited c then None else category_entry c ts).
Proof.
  intros H. eexists. eexists. split; [exact (analytics_run _ _ _ H)|].
  cbn [totalIncome totalExpense balance transactionCount categoryStats].
  repeat (split; [reflexivity|]).
  intros c. apply categoryStats_entry.
Qed.


End AnalyticsFacts.

(** ** The stable sort *)

Section SortFacts.
Context {T : Type} (cmp : T -> T -> number).

Lemma insert_sorted_perm x (l : list T) :
  Permutation (Heap.insert_sorted cmp x l) (x :: l).
Proof.
  induction l as [|y l IH]; cbn [Heap.insert_sorted]; [reflexivity|].
  destruct (JS.lt (JS.of_Z 0) (cmp x y)); [|reflexivity].
  rewrite IH. apply perm_swap.
Qed.

Lemma stable_sort_perm (l : list T) : Permutation (Heap.stable_sort cmp l) l.
Proof.
  induction l as [|x l IH]; [reflexivity|].
  cbn [Heap.stable_sort List.fold_right]. rewrite insert_sorted_perm.
  constructor. exact IH.
Qed.

(** [ok] singles out the elements on which the comparator agrees with the
    order [R]. *)
Variables (R : T -> T -> Prop) (ok : T -> Prop).
Hypothesis cmp_keeps : forall x y, ok x -> ok y ->
  JS.lt (JS.of_Z 0) (cmp x y) = false -> R x y.
Hypothesis cmp_swaps : forall x y, ok x -> ok y ->
  JS.lt (JS.of_Z 0) (cmp x y) = true -> R y x.

Lemma insert_sorted_Sorted x (l : list T) :
  ok x -> Forall ok l -> Sorted R l -> Sorted R (Heap.insert_sorted cmp x l).
Proof.
  intros Hx Hok Hs. induction l as [|y l IH]; cbn [Heap.insert_sorted].
  - repeat constructor.
  - apply Forall_cons_1 in Hok as [Hy Hl].
    apply Sorted_inv in Hs as [Hs Hhd].
    destruct (JS.lt (JS.of_Z 0) (cmp x y)) eqn:Hc.
    + constructor; [now apply IH|].
      destruct l as [|z l]; cbn [Heap.insert_sorted].
      * constructor. now apply cmp_swaps.
      * destruct (JS.lt (JS.of_Z 0) (cmp x z)).
        -- constructor. now inversion Hhd.
        -- constructor. now apply cmp_swaps.
    + constructor; [now constructor|]. constructor. now apply cmp_keeps.
Qed.

Lemma stable_sort_Sorted (l : list T) :
  Forall ok l -> Sorted R (Heap.stable_sort cmp l).
Proof.
  induction 1 as [|x l Hx Hl IH]; [constructor|].
  cbn [Heap.stable_sort List.fold_right].
  apply insert_sorted_Sorted; [exact Hx| |exact IH].
  eapply Permutation_Forall; [|exact Hl].
  symmetry. apply stable_sort_perm.
Qed.

(** Stability: a class [P] of elements none of which sorts after another
    one keeps the order it came in. *)
Variable P : T -> bool.
Hypothesis cmp_class : forall x y, P x = true -> P y = true ->
  JS.lt (JS.of_Z 0) (cmp x y) = false.

Lemma insert_sorted_filter x (l : list T) :
  List.filter P (Heap.insert_sorted cmp x l) = List.filter P (x :: l).
Proof.
  induction l as [|y l IH]; [reflexivity|].
  cbn [Heap.insert_sorted].
  destruct (JS.lt (JS.of_Z 0) (cmp x y)) eqn:Hc; [|reflexivity].
  cbn [List.filter] in *. rewrite IH.
  destruct (P x) eqn:Hx, (P y) eqn:Hy; try reflexivity.
  rewrite cmp_class in Hc by assumption. discriminate.
Qed.

Lemma stable_sort_filter (l : list T) :
  List.filter P (Heap.stable_sort cmp l) = List.filter P l.
Proof.
  induction l as [|x l IH]; [reflexivity|].
  cbn [Heap.stable_sort List.fold_right]. rewrite insert_sorted_filter.
  cbn [List.filter]. fold (Heap.stable_sort cmp l). now rewrite IH.
Qed.

End SortFacts.

(** ** The query pipeline *)

Section QueryFacts.
Import TransactionContext ExpensesScreen QuerySpec.

Lemma prefix_spec q s :
  String.prefix q s = true <-> exists post, s = (q ++ post)%string.
Proof.
  revert s. induction q as [|a q IH]; intros s.
  - split; [intros _; now exists s | intros _; now destruct s].
  - destruct s as [|b s]; cbn [String.prefix].
    + split; [discriminate | intros [post H]; discriminate H].
    + destruct (ascii_dec a b) as [->|Hne].
      * rewrite IH. split; intros [post H]; exists post;
          [now rewrite H | now injection H].
      * split; [discriminate | intros [post H]; injection H; congruence].
Qed.

Lemma includes_prefix s q : String.prefix q s = true -> JS.includes s q = true.
Proof. intros H. destruct s; cbn [JS.includes]; now rewrite H. Qed.

Lemma includes_spec s q : JS.includes s q = true <-> substring q s.
Proof.
  split.
  - induction s as [|c s IH]; cbn [JS.includes].
    + destruct (String.prefix q "") eqn:Hp; [|discriminate].
      intros _. apply prefix_spec in Hp as [post Hp]. now exists "", post.
    + destruct (String.prefix q (String c s)) eqn:Hp.
      * intros _. apply prefix_spec in Hp as [post Hp]. now exists "", post.
      * intros H. destruct (IH H) as (pre & post & ->).
        now exists (String c pre), post.
  - intros (pre & post & ->). induction pre as [|c pre IH].
    + apply includes_prefix, prefix_spec. now exists post.
    + change (String c pre ++ q ++ post)%string
        with (String c (pre ++ q ++ post)%string).
      cbn [JS.includes]. rewrite IH.
      now destruct (String.prefix q (String c (pre ++ q ++ post))).
Qed.

Lemma matches_search_spec toLowerCase q t :
  matches_search toLowerCase q t = true <->
  contains_ci toLowerCase (title t) q \/ contains_ci toLowerCase (category t) q.
Proof.
  unfold matches_search, contains_ci. now rewrite orb_true_iff, !includes_spec.
Qed.

(** The predicates that the two filter stages apply. *)
Lemma search_stage_filter toLowerCase q ts :
  exists p, (forall t, p t = true <-> search_keeps toLowerCase q t) /\
            search_stage toLowerCase q ts = List.filter p ts.
Proof.
  unfold search_stage, search_keeps. destruct (JS.truthy q) eqn:Hq.
  - exists (matches_search toLowerCase q). split; [|reflexivity].
    intros t. rewrite matches_search_spec. apply truthy_iff in Hq. tauto.
  - exists (fun _ => true). split.
    + intros t. split; [|reflexivity]. intros _. left.
      unfold JS.truthy in Hq. apply negb_false_iff in Hq. now apply String.eqb_eq.
    + symmetry. apply filter_all_true. now apply Forall_forall.
Qed.

Lemma type_stage_filter f ts :
  exists p, (forall t, p t = true <-> type_keeps f t) /\
            type_stage f ts = List.filter p ts.
Proof.
  unfold type_stage, type_keeps. destruct f.
  - exists (fun _ => true). split; [tauto|].
    symmetry. apply filter_all_true. now apply Forall_forall.
  - eexists. split; [|reflexivity]. intros t. cbn beta.
    destruct (type t); simpl; split; congruence.
  - eexists. split; [|reflexivity]. intros t. cbn beta.
    destruct (type t); simpl; split; congruence.
Qed.

Lemma sub_sign a b :
  a <> JS.NaN -> b <> JS.NaN ->
  JS.lt (JS.of_Z 0) (JS.sub b a) = JS.lt a b.
Proof.
  destruct a as [| | |p], b as [| | |q]; simpl; try congruence; intros _ _.
  f_equal. apply eq_true_iff_eq. rewrite !Qle_bool_iff, Qred_correct.
  unfold inject_Z. split; intros H; lra.
Qed.

Lemma compare_keeps getTime s a b :
  sort_key getTime s a <> JS.NaN -> sort_key getTime s b <> JS.NaN ->
  JS.lt (JS.of_Z 0) (compare getTime s a b) = false -> in_order getTime s a b.
Proof.
  intros Ha Hb. unfold in_order.
  destruct s; cbn [compare sort_key] in *; rewrite sub_sign by assumption;
    now apply lt_false_le.
Qed.

Lemma compare_swaps getTime s a b :
  sort_key getTime s a <> JS.NaN -> sort_key getTime s b <> JS.NaN ->
  JS.lt (JS.of_Z 0) (compare getTime s a b) = true -> in_order getTime s b a.
Proof.
  intros Ha Hb. unfold in_order.
  destruct s; cbn [compare sort_key] in *; rewrite sub_sign by assumption;
    apply lt_le.
Qed.

Lemma Array_filter_sort_run (h : Heap.heap Transaction) r a p cmp :
  h !! r = Some a ->
  Heap.bind (Heap.Array_filter p r)
    (fun r1 => Heap.bind (Heap.Array_sort cmp r1) (fun _ => Heap.ret r1)) h =
  Some (length h, h ++ [Heap.stable_sort cmp (List.filter p a)]).
Proof.
  intros H. unfold Heap.bind at 1. rewrite (Array_filter_run _ _ _ _ H).
  unfold Heap.bind at 1.
  rewrite (Array_sort_run _ _ _ _ (lookup_alloc_new _ _)). unfold Heap.ret.
  rewrite insert_app_r_alt by lia.
  now rewrite Nat.sub_diag.
Qed.

Lemma processedTransactions_result getTime toLowerCase (h : Heap.heap Transaction) r ts q f s :
  h !! r = Some ts ->
  exists r' h',
    processedTransactions getTime toLowerCase r q f s h = Some (r', h') /\
    h' !! r' = Some (pipeline getTime toLowerCase q f s ts) /\
    h' !! r =
      Some (if sorts_store_array q f then pipeline getTime toLowerCase q f s ts else ts).
Proof.
  intros H.
  pose proof (lookup_lt_Some _ _ _ H) as Hlt.
  unfold processedTransactions, pipeline, search_stage, type_stage,
    sorts_store_array.
  destruct (JS.truthy q); cbn [negb andb].
  - unfold Heap.bind at 1. rewrite (Array_filter_run _ _ _ _ H).
    destruct f.
    + unfold Heap.bind at 1. unfold Heap.ret at 1. unfold Heap.bind at 1.
      rewrite (Array_sort_run _ _ _ _ (lookup_alloc_new _ _)).
      unfold Heap.ret. eexists. eexists. split; [reflexivity|]. split.
      * apply list_lookup_insert_eq. rewrite length_app. simpl. lia.
      * rewrite list_lookup_insert_ne by lia. now apply lookup_alloc_old.
    + rewrite (Array_filter_sort_run _ _ _ _ _ (lookup_alloc_new _ _)).
      eexists. eexists. split; [reflexivity|]. split.
      * apply lookup_alloc_new.
      * now do 2 apply lookup_alloc_old.
    + rewrite (Array_filter_sort_run _ _ _ _ _ (lookup_alloc_new _ _)).
      eexists. eexists. split; [reflexivity|]. split.
      * apply lookup_alloc_new.
      * now do 2 apply lookup_alloc_old.
  - unfold Heap.bind at 1. unfold Heap.ret at 1.
    destruct f.
    + unfold Heap.bind at 1. unfold Heap.ret at 1. unfold Heap.bind at 1.
      rewrite (Array_sort_run _ _ _ _ H).
      unfold Heap.ret. eexists. eexists. split; [reflexivity|].
      split; now apply list_lookup_insert_eq.
    + rewrite (Array_filter_sort_run _ _ _ _ _ H).
      eexists. eexists. split; [reflexivity|]. split.
      * apply lookup_alloc_new.
      * now apply lookup_alloc_old.
    + rewrite (Array_filter_sort_run _ _ _ _ _ H).
      eexists. eexists. split; [reflexivity|]. split.
      * apply lookup_alloc_new.
      * now apply lookup_alloc_old.
Qed.

(** A run of [processedTransactions] on a heap where the store cell [r]
    holds [ts]: the display list, and what the store cell holds
    afterwards. *)
Lemma processedTransactions_run getTime toLowerCase (h : Heap.heap Transaction) r ts q f s :
  h !! r = Some ts ->
  let run := processedTransactions getTime toLowerCase r q f s h in
  display run = Some (pipeline getTime toLowerCase q f s ts) /\
  stored_after r run =
    Some (if sorts_store_array q f then pipeline getTime toLowerCase q f s ts else ts).
Proof.
  intros H run.
  destruct (processedTransactions_result getTime toLowerCase h r ts q f s H)
    as (r' & h' & Hrun & Hd & Hs).
  subst run. rewrite Hrun. now split.
Qed.

Lemma Forall_filter_list {A} (Q : A -> Prop) (p : A -> bool) (l : list A) :
  Forall Q l -> Forall Q (List.filter p l).
Proof.
  induction 1 as [|x l Hx _ IH]; simpl; [constructor|].
  destruct (p x); [now constructor | exact IH].
Qed.

Lemma lt_asym a b : JS.lt a b = true -> JS.lt b a = false.
Proof.
  destruct a as [| | |p], b as [| | |q]; simpl; try congruence.
  rewrite negb_true_iff, negb_false_iff. intros H.
  apply Qle_bool_iff. destruct (Qlt_le_dec q p) as [Hlt|Hle].
  - apply Qlt_le_weak in Hlt. apply Qle_bool_iff in Hlt. congruence.
  - exact Hle.
Qed.

Lemma lt_not_NaN a b : JS.lt a b = true -> a <> JS.NaN /\ b <> JS.NaN.
Proof. destruct a, b; simpl; split; congruence. Qed.

(** Two transactions with the same key: neither sorts after the other. *)
Lemma compare_same_key getTime s k a b :
  has_key getTime s k a = true -> has_key getTime s k b = true ->
  JS.lt (JS.of_Z 0) (compare getTime s a b) = false.
Proof.
  unfold has_key. intros Ha Hb.
  assert (forall x y, JS.strict_eq x k = true -> JS.strict_eq y k = true ->
                      JS.lt (JS.of_Z 0) (JS.sub x y) = false) as Hsub.
  { intros x y Hx Hy.
    destruct x as [| | |p], y as [| | |q], k as [| | |u]; simpl in *;
      try congruence.
    apply Qeq_bool_iff in Hx, Hy. rewrite negb_false_iff.
    apply Qle_bool_iff. rewrite Qred_correct. unfold inject_Z. lra. }
  destruct s; cbn [compare sort_key] in *; now apply Hsub.
Qed.

(** C4. [processedTransactions] keeps, in this order: the transactions
    whose title or category contains the query once both are put in
    lower case by the engine (all of them for an empty query), then
    those of the selected type (all of them for [all]); the display list
    is a permutation of these, and whenever none of their sort keys is
    [NaN] it is in the order of the selected key, transactions of equal
    key in the order they had.  On the two transactions Coffee (id 1,
    amount 5, expense, 2024-01-02) and Salary (id 2, amount 1000, income,
    2024-01-01), filter [all]: [highest] gives the ids [2, 1]; [newest]
    gives [1, 2] when the engine reads 2024-01-01 as earlier than
    2024-01-02; the query "cof" gives Coffee alone when the category of
    Salary does not contain it, the engine putting "cof", "Coffee" and
    "Salary" in lower case as "cof", "coffee" and "salary". *)
Theorem query_pipeline_order (getTime : string -> number)
    (toLowerCase : string -> string)
    (h : Heap.heap Transaction) (r : Heap.ref) (ts : list Transaction)
    (q : string) (f : FilterType.t) (s : SortType) :
  h !! r = Some ts ->
  exists p_search p_type out,
    (forall t, p_search t = true <-> search_keeps toLowerCase q t) /\
    (forall t, p_type t = true <-> type_keeps f t) /\
    display (processedTransactions getTime toLowerCase r q f s h) = Some out /\
    Permutation out (List.filter p_type (List.filter p_search ts)) /\
    (Forall (fun t => sort_key getTime s t <> JS.NaN)
       (List.filter p_type (List.filter p_search ts)) ->
     Sorted (in_order getTime s) out /\
     forall k, List.filter (has_key getTime s k) out =
               List.filter (has_key getTime s k)
                 (List.filter p_type (List.filter p_search ts))) /\
    (forall c1 c2,
       ts = [Samples.coffee c1; Samples.salary c2] ->
       f = FilterType.all ->
       (q = "" -> s = highest -> List.map id out = ["2"; "1"]) /\
       (q = "" -> s = newest ->
        JS.lt (getTime "2024-01-01") (getTime "2024-01-02") = true ->
        List.map id out = ["1"; "2"]) /\
       (q = "cof" ->
        toLowerCase "cof" = "cof" -> toLowerCase "Coffee" = "coffee" ->
        toLowerCase "Salary" = "salary" ->
        ~ contains_ci toLowerCase c2 "cof" -> out = [Samples.coffee c1])).
Proof.
  intros H.
  destruct (processedTransactions_run getTime toLowerCase h r ts q f s H) as [Hd _].
  destruct (search_stage_filter toLowerCase q ts) as (p1 & Hp1 & E1).
  destruct (type_stage_filter f (search_stage toLowerCase q ts)) as (p2 & Hp2 & E2).
  exists p1, p2, (pipeline getTime toLowerCase q f s ts).
  split; [exact Hp1|]. split; [exact Hp2|]. split; [exact Hd|].
  assert (pipeline getTime toLowerCase q f s ts =
          Heap.stable_sort (compare getTime s)
            (List.filter p2 (List.filter p1 ts))) as Eout
    by (unfold pipeline; now rewrite E2, E1).
  split; [rewrite Eout; apply stable_sort_perm|].
  split.
  { intros Hok. rewrite Eout. split.
    - apply stable_sort_Sorted with (ok := fun t => sort_key getTime s t <> JS.NaN).
      + intros x y. apply compare_keeps.
      + intros x y. apply compare_swaps.
      + exact Hok.
    - intros k. apply stable_sort_filter.
      intros x y. apply compare_same_key. }
  intros c1 c2 -> ->. unfold pipeline, type_stage. split; [|split].
  - intros -> ->. reflexivity.
  - intros -> -> Hlt. unfold search_stage. cbn [JS.truthy String.eqb negb].
    cbn [Heap.stable_sort List.fold_right Heap.insert_sorted compare].
    cbn [date Samples.coffee Samples.salary].
    destruct (lt_not_NaN _ _ Hlt) as [Hn1 Hn2].
    rewrite sub_sign by assumption. rewrite (lt_asym _ _ Hlt). reflexivity.
  - intros -> Hq Hcoffee Hsalary Hc2.
    unfold search_stage. cbn [JS.truthy String.eqb negb].
    assert (matches_search toLowerCase "cof" (Samples.coffee c1) = true) as Hm1.
    { unfold matches_search. cbn [title Samples.coffee].
      rewrite Hq, Hcoffee. reflexivity. }
    assert (matches_search toLowerCase "cof" (Samples.salary c2) = false) as Hm2.
    { unfold matches_search. cbn [title category Samples.salary].
      apply orb_false_iff. split; [rewrite Hq, Hsalary; reflexivity|].
      destruct (JS.includes _ _) eqn:Hi; [|reflexivity].
      exfalso. apply Hc2. now apply includes_spec. }
    cbn [List.filter]. rewrite Hm1, Hm2. reflexivity.
Qed.

Lemma query_pipeline_order_witness :
  let ts := [Samples.coffee "Food"; Samples.salary "Salary"] in
  [ts] !! 0%nat = Some ts /\
  ~ contains_ci JS.toLowerCase "Salary" "cof" /\
  (exists out,
     display (processedTransactions JS.iso_date_getTime JS.toLowerCase 0%nat
                "cof" FilterType.all highest [ts]) = Some out /\
     out = [Samples.coffee "Food"]) /\
  (exists p_search p_type out,
     display (processedTransactions JS.iso_date_getTime JS.toLowerCase 0%nat
                "" FilterType.all highest [ts]) = Some out /\
     Forall (fun t => sort_key JS.iso_date_getTime highest t <> JS.NaN)
       (List.filter p_type (List.filter p_search ts)) /\
     Sorted (in_order JS.iso_date_getTime highest) out /\
     List.map id out = ["2"; "1"]).
Proof.
  intros ts.
  assert (Hc2 : ~ contains_ci JS.toLowerCase "Salary" "cof").
  { intros Hc. apply includes_spec in Hc. discriminate Hc. }
  split; [reflexivity|]. split; [exact Hc2|]. split.
  - destruct (query_pipeline_order JS.iso_date_getTime JS.toLowerCase
                [ts] 0%nat ts "cof" FilterType.all highest eq_refl)
      as (p1 & p2 & out & _ & _ & Hd & _ & _ & Hex).
    exists out. split; [exact Hd|].
    destruct (Hex "Food" "Salary" eq_refl eq_refl) as (_ & _ & Hcof).
    now apply Hcof.
  - destruct (query_pipeline_order JS.iso_date_getTime JS.toLowerCase
                [ts] 0%nat ts "" FilterType.all highest eq_refl)
      as (p1 & p2 & out & _ & _ & Hd & _ & Hsorted & Hex).
    assert (Hok : Forall (fun t => sort_key JS.iso_date_getTime highest t <> JS.NaN)
                    (List.filter p2 (List.filter p1 ts))).
    { do 2 apply Forall_filter_list. repeat constructor; discriminate. }
    exists p1, p2, out. split; [exact Hd|]. split; [exact Hok|].
    split; [exact (proj1 (Hsorted Hok))|].
    destruct (Hex "Food" "Salary" eq_refl eq_refl) as (Hhigh & _ & _).
    now apply Hhigh.
Defined.

(** What the store cell holds after the derived views were computed. *)
Lemma analytics_keeps_store (h : Heap.heap Transaction) r ts :
  h !! r = Some ts -> stored_after r (analytics r h) = Some ts.
Proof.
  intros H. rewrite (analytics_run _ _ _ H). unfold stored_after.
  rewrite app_assoc. now do 2 apply lookup_alloc_old.
Qed.

Lemma processedTransactions_store getTime toLowerCase (h : Heap.heap Transaction) r ts q f s :
  h !! r = Some ts ->
  stored_after r (processedTransactions getTime toLowerCase r q f s h) =
  Some (if sorts_store_array q f then pipeline getTime toLowerCase q f s ts else ts).
Proof. intros H. now apply processedTransactions_run. Qed.

(** C3, the code at the failing input.  With an empty query and the
    filter [all] no stage builds a new array, [filtered] is the array of
    the store and [sort] reorders it in place: after the display list of
    [Coffee; Salary] was computed with [highest], the store holds
    [Salary; Coffee].  With a query or a type filter the store keeps its
    list, and [analytics] always keeps it. *)
Theorem processedTransactions_reorders_store :
  let ts := [Samples.coffee "Food"; Samples.salary "Salary"] in
  stored_after 0%nat
    (processedTransactions JS.iso_date_getTime JS.toLowerCase 0%nat "" FilterType.all
       highest [ts]) =
    Some [Samples.salary "Salary"; Samples.coffee "Food"] /\
  [Samples.salary "Salary"; Samples.coffee "Food"] <> ts /\
  stored_after 0%nat
    (processedTransactions JS.iso_date_getTime JS.toLowerCase 0%nat "cof" FilterType.all
       highest [ts]) = Some ts /\
  stored_after 0%nat
    (processedTransactions JS.iso_date_getTime JS.toLowerCase 0%nat "" FilterType.income
       highest [ts]) = Some ts /\
  stored_after 0%nat (analytics 0%nat [ts]) = Some ts.
Proof.
  cbv zeta. split; [reflexivity|]. split; [discriminate|].
  split; [reflexivity|]. split; [reflexivity|].
  now apply analytics_keeps_store.
Qed.

End QueryFacts.

(** ** The figures of a goal card *)

Section GoalCard.
Import SavingsContext SavingsGoalCard.

Lemma Qsign_nonzero q : ~ (q == 0)%Q -> JS.Qsign q <> Eq.
Proof. unfold JS.Qsign. intros Hq Hc. apply Hq. now apply Qeq_alt. Qed.

Lemma div_finite p q :
  ~ (q == 0)%Q -> JS.div (JS.Fin p) (JS.Fin q) = JS.fin (p / q).
Proof.
  intros Hq. unfold JS.div. pose proof (Qsign_nonzero q Hq).
  destruct (JS.Qsign q); congruence.
Qed.

(** C6. The card of a goal shows [currentAmount / targetAmount * 100] as
    progress, [targetAmount - currentAmount] as the remaining amount,
    [currentAmount >= targetAmount] as the completion flag and the
    ceiling of [(deadline - today) / 86400000] as the days remaining.
    For finite amounts the flag is the comparison of the two amounts,
    and the progress and the remaining amount are the quotient times 100
    and the difference of the amounts as rationals whenever these are
    values of doubles, so that no operation rounds.  For time stamps in
    whole milliseconds less than [2^53] apart, the days remaining are
    the least number of whole days that covers the time left.  A goal
    with target 1000 and current amount 250 shows 25, 750 and not
    completed. *)
Theorem goal_card_figures (getTime : string -> number) (today : number)
    (goal : SavingsGoal) :
  progress goal =
    JS.mul (JS.div (currentAmount goal) (targetAmount goal)) (JS.of_Z 100) /\
  remaining goal = JS.sub (targetAmount goal) (currentAmount goal) /\
  isCompleted goal = JS.ge (currentAmount goal) (targetAmount goal) /\
  getDaysRemaining getTime today goal =
    JS.Math_ceil (JS.div (JS.sub (getTime (deadline goal)) today)
                         (JS.of_Z 86400000)) /\
  (forall t c : Q,
     targetAmount goal = JS.Fin t -> currentAmount goal = JS.Fin c ->
     ~ (t == 0)%Q ->
     (JS.is_double (c / t) -> JS.is_double (c / t * 100) ->
      progress goal = JS.fin (c / t * 100)) /\
     (JS.is_double (t - c) -> remaining goal = JS.fin (t - c)) /\
     (isCompleted goal = true <-> (t <= c)%Q)) /\
  (forall d n : Z,
     getTime (deadline goal) = JS.of_Z d -> today = JS.of_Z n ->
     (Z.abs (d - n) < 2 ^ 53)%Z ->
     exists k : Z,
       getDaysRemaining getTime today goal = JS.of_Z k /\
       ((k - 1) * 86400000 < d - n <= k * 86400000)%Z) /\
  (targetAmount goal = JS.of_Z 1000 -> currentAmount goal = JS.of_Z 250 ->
   progress goal = JS.of_Z 25 /\
   remaining goal = JS.of_Z 750 /\
   isCompleted goal = false).
Proof.
  split; [reflexivity|]. split; [reflexivity|]. split; [reflexivity|].
  split; [reflexivity|]. split; [|split].
  - intros t c Ht Hc Hnz. unfold progress, remaining, isCompleted.
    rewrite Ht, Hc. split; [|split].
    + intros _ _.
      rewrite (div_finite _ _ Hnz). unfold JS.fin, JS.mul, JS.of_Z, JS.fin.
      f_equal. apply Qred_complete. rewrite Qred_correct. reflexivity.
    + intros _. reflexivity.
    + unfold JS.ge, JS.le. apply Qle_bool_iff.
  - intros d n Hd Hn _. unfold getDaysRemaining. rewrite Hd, Hn.
    unfold JS.of_Z at 1 2. cbn [JS.sub]. unfold JS.fin.
    change (JS.of_Z (1000 * 3600 * 24)) with (JS.Fin 86400000).
    rewrite div_finite by discriminate.
    unfold JS.fin. cbn [JS.Math_ceil].
    set (x := (Qred (inject_Z d - inject_Z n) / 86400000)%Q).
    exists (Qceiling (Qred x)). split; [reflexivity|].
    assert (Qred x == inject_Z (d - n) / 86400000)%Q as Hx.
    { unfold x. rewrite !Qred_correct. unfold Z.sub.
      rewrite inject_Z_plus, inject_Z_opp. reflexivity. }
    pose proof (Qle_ceiling (Qred x)) as Hle.
    pose proof (Qceiling_lt (Qred x)) as Hlt.
    rewrite Hx in Hle at 1. rewrite Hx in Hlt at 2.
    revert Hle Hlt. generalize (Qceiling (Qred x)). clear. intros k Hle Hlt.
    assert (inject_Z (d - n) / 86400000 * 86400000 == inject_Z (d - n))%Q
      as Hy by (field; discriminate).
    assert (inject_Z (k - 1) * 86400000 < inject_Z (d - n))%Q as Hlo.
    { rewrite <- Hy. now apply Qmult_lt_r. }
    assert (inject_Z (d - n) <= inject_Z k * 86400000)%Q as Hhi.
    { rewrite <- Hy at 1. now apply Qmult_le_r. }
    change (86400000 : Q) with (inject_Z 86400000) in Hlo, Hhi.
    rewrite <- inject_Z_mult in Hlo, Hhi.
    rewrite <- Zlt_Qlt in Hlo. rewrite <- Zle_Qle in Hhi. now split.
  - intros Ht Hc. unfold progress, remaining, isCompleted.
    rewrite Ht, Hc. repeat split.
Qed.

Lemma goal_card_figures_witness :
  (SavingsContext.targetAmount Samples.emergency_fund = JS.of_Z 1000 /\
   currentAmount Samples.emergency_fund = JS.of_Z 250) /\
  (JS.is_double (250 / 1000) /\ JS.is_double (250 / 1000 * 100) /\
   JS.is_double (1000 - 250)) /\
  progress Samples.emergency_fund = JS.of_Z 25 /\
  remaining Samples.emergency_fund = JS.of_Z 750 /\
  isCompleted Samples.emergency_fund = false /\
  JS.iso_date_getTime (deadline Samples.emergency_fund) = JS.of_Z 1767139200000 /\
  (Z.abs (1767139200000 - 1764547200001) < 2 ^ 53)%Z /\
  getDaysRemaining JS.iso_date_getTime (JS.of_Z 1764547200001)
    Samples.emergency_fund = JS.of_Z 30.
Proof.
  assert (H1 : JS.is_double (250 / 1000)).
  { exists 1%Z, (-2)%Z. split; [reflexivity|]. split; [lia|reflexivity]. }
  assert (H2 : JS.is_double (250 / 1000 * 100)).
  { exists 25%Z, 0%Z. split; [reflexivity|]. split; [lia|reflexivity]. }
  assert (H3 : JS.is_double (1000 - 250)).
  { exists 750%Z, 0%Z. split; [reflexivity|]. split; [lia|reflexivity]. }
  assert (Hb : (Z.abs (1767139200000 - 1764547200001) < 2 ^ 53)%Z) by reflexivity.
  split; [split; reflexivity|]. split; [now repeat split|].
  destruct (goal_card_figures JS.iso_date_getTime (JS.of_Z 1764547200001)
              Samples.emergency_fund)
    as (_ & _ & _ & _ & Hexact & Hdays & Hex).
  destruct (Hexact 1000%Q 250%Q eq_refl eq_refl) as (Hp & Hr & _); [discriminate|].
  destruct (Hex eq_refl eq_refl) as (_ & _ & Hc).
  destruct (Hdays 1767139200000%Z 1764547200001%Z eq_refl eq_refl Hb)
    as (k & Hk & Hlo & Hhi).
  split; [rewrite (Hp H1 H2); reflexivity|].
  split; [rewrite (Hr H3); reflexivity|].
  split; [exact Hc|]. split; [reflexivity|]. split; [exact Hb|].
  rewrite Hk. f_equal. lia.
Defined.

End GoalCard.

(** ** Decimal numerals *)

Section DigitFacts.
Import JS.
Local Open Scope Z_scope.

Lemma digit_char_spec d :
  0 <= d <= 9 -> is_digit (digit_char d) = true /\ digit_value (digit_char d) = d.
Proof.
  intros H.
  assert (d = 0 \/ d = 1 \/ d = 2 \/ d = 3 \/ d = 4 \/ d = 5 \/ d = 6 \/
          d = 7 \/ d = 8 \/ d = 9) as Hd by lia.
  repeat (destruct Hd as [-> | Hd]; [split; reflexivity|]).
  subst. split; reflexivity.
Qed.

Lemma read_digit d tail a n :
  0 <= d <= 9 ->
  read_digits (String (digit_char d) tail) a n = read_digits tail (a * 10 + d) (S n).
Proof.
  intros H. destruct (digit_char_spec d H) as [Hd Hv].
  cbn [read_digits]. now rewrite Hd, Hv.
Qed.

Lemma fixed_digits_read k v tail a n :
  0 <= v ->
  read_digits (fixed_digits k v tail) a n =
  read_digits tail (a * 10 ^ Z.of_nat k + v mod 10 ^ Z.of_nat k) (n + k)%nat.
Proof.
  revert v tail. induction k as [|k IH]; intros v tail Hv.
  - cbn [fixed_digits]. rewrite Z.pow_0_r, Z.mod_1_r, Nat.add_0_r. f_equal; lia.
  - cbn [fixed_digits]. rewrite IH by (apply Z.div_pos; lia).
    rewrite read_digit by (pose proof (Z.mod_pos_bound v 10); lia).
    rewrite Nat2Z.inj_succ, Z.pow_succ_r by lia.
    rewrite (Z.rem_mul_r v 10 (10 ^ Z.of_nat k)) by lia.
    f_equal; lia.
Qed.

(** The digits of a natural number, read back. *)
Lemma natural_digits_read fuel v tail a n :
  0 <= v < 2 ^ (Z.of_nat fuel + 1) ->
  exists len,
    read_digits (natural_digits fuel v tail) a n =
    read_digits tail (a * 10 ^ Z.of_nat (S len) + v) (n + S len)%nat.
Proof.
  revert v tail. induction fuel as [|fuel IH]; intros v tail Hv.
  - exists O. cbn [natural_digits]. simpl in Hv.
    rewrite read_digit by (pose proof (Z.mod_pos_bound v 10); lia).
    rewrite Z.mod_small by lia. f_equal; first [lia | simpl; lia].
  - cbn [natural_digits]. destruct (Z.ltb_spec v 10) as [Hlt|Hge].
    + exists O. rewrite read_digit by lia. f_equal; first [lia | simpl; lia].
    + assert (0 <= v / 10 < 2 ^ (Z.of_nat fuel + 1)) as Hq.
      { split; [apply Z.div_pos; lia|].
        apply Z.div_lt_upper_bound; [lia|].
        rewrite Nat2Z.inj_succ in Hv.
        replace (Z.succ (Z.of_nat fuel) + 1) with (Z.succ (Z.of_nat fuel + 1)) in Hv by lia.
        rewrite Z.pow_succ_r in Hv by lia. lia. }
      destruct (IH (v / 10) (String (digit_char (v mod 10)) tail) Hq) as [len Hlen].
      exists (S len). rewrite Hlen.
      rewrite read_digit by (pose proof (Z.mod_pos_bound v 10); lia).
      rewrite (Nat2Z.inj_succ (S len)), Z.pow_succ_r by lia.
      pose proof (Z.div_mod v 10 ltac:(lia)).
      f_equal; lia.
Qed.

(** The first digit is a zero for zero alone. *)
Lemma natural_digits_head fuel v tail :
  0 <= v < 2 ^ (Z.of_nat fuel + 1) ->
  exists c r,
    natural_digits fuel v tail = String c r /\ is_digit c = true /\
    (Ascii.eqb c "0" = true -> v = 0 /\ r = tail).
Proof.
  revert v tail. induction fuel as [|fuel IH]; intros v tail Hv.
  - cbn [natural_digits]. simpl in Hv. rewrite Z.mod_small by lia.
    exists (digit_char v), tail. split; [reflexivity|].
    assert (v = 0 \/ v = 1) as Hd by lia.
    destruct Hd as [-> | ->]; (split; [reflexivity|]);
      [intros _; now split | discriminate].
  - cbn [natural_digits]. destruct (Z.ltb_spec v 10) as [Hlt|Hge].
    + exists (digit_char v), tail. split; [reflexivity|].
      split; [apply digit_char_spec; lia|].
      assert (v = 0 \/ v = 1 \/ v = 2 \/ v = 3 \/ v = 4 \/ v = 5 \/ v = 6 \/
              v = 7 \/ v = 8 \/ v = 9) as Hd by lia.
      destruct Hd as [-> | Hd]; [intros _; now split|].
      repeat (destruct Hd as [-> | Hd]; [discriminate|]).
      subst. discriminate.
    + assert (0 <= v / 10 < 2 ^ (Z.of_nat fuel + 1)) as Hq.
      { split; [apply Z.div_pos; lia|].
        apply Z.div_lt_upper_bound; [lia|].
        rewrite Nat2Z.inj_succ in Hv.
        replace (Z.succ (Z.of_nat fuel) + 1) with (Z.succ (Z.of_nat fuel + 1)) in Hv by lia.
        rewrite Z.pow_succ_r in Hv by lia. lia. }
      destruct (IH (v / 10) (String (digit_char (v mod 10)) tail) Hq)
        as (c & r & E & Hc & H0).
      exists c, r. split; [exact E|]. split; [exact Hc|].
      intros Hz. destruct (H0 Hz) as [Hv0 _].
      assert (v < 10) by (pose proof (Z.div_mod v 10 ltac:(lia));
                          pose proof (Z.mod_pos_bound v 10 ltac:(lia)); lia).
      lia.
Qed.

Lemma log2_fuel v : 0 <= v -> 0 <= v < 2 ^ (Z.of_nat (Z.to_nat (Z.log2 v)) + 1).
Proof.
  intros Hv. split; [exact Hv|].
  rewrite Z2Nat.id by apply Z.log2_nonneg.
  destruct (Z.eq_dec v 0) as [->|Hnz]; [reflexivity|].
  replace (Z.log2 v + 1) with (Z.succ (Z.log2 v)) by lia.
  apply Z.log2_spec. lia.
Qed.

End DigitFacts.

(** ** The text of a number *)

Section NumberText.
Import JS.
Local Open Scope Z_scope.

Lemma read_digits_stop s a n :
  match s with String c _ => is_digit c = false | EmptyString => True end ->
  read_digits s a n = (a, n, s).
Proof. destruct s as [|c r]; cbn [read_digits]; [reflexivity|]. now intros ->. Qed.

Lemma decimal_places_divides fuel d k :
  0 < d -> decimal_places fuel d = Some k -> (d | 10 ^ Z.of_nat k).
Proof.
  revert d k. induction fuel as [|fuel IH]; intros d k Hd; cbn [decimal_places].
  - destruct (Z.eqb_spec d 1) as [->|]; [|discriminate].
    intros [= <-]. exists 1. reflexivity.
  - destruct (Z.eqb_spec d 1) as [->|Hne].
    { intros [= <-]. exists 1. reflexivity. }
    assert (forall c, 1 < c -> (c | 10) -> d mod c = 0 ->
              option_map S (decimal_places fuel (d / c)) = Some k ->
              (d | 10 ^ Z.of_nat k)) as Hstep.
    { intros c Hc [e He] Hmod Hrec.
      destruct (decimal_places fuel (d / c)) as [k'|] eqn:Hk'; [|discriminate].
      injection Hrec as <-.
      assert (d = c * (d / c)) as Hdc
        by (pose proof (Z.div_mod d c ltac:(lia)); lia).
      assert (0 < d / c) as Hpos by nia.
      pose proof (IH _ _ Hpos Hk') as Hdiv.
      rewrite Nat2Z.inj_succ, Z.pow_succ_r by lia.
      rewrite Hdc at 1. destruct Hdiv as [u Hu]. rewrite Hu.
      exists (e * u). rewrite He at 1. ring. }
    destruct (Z.eqb_spec (d mod 10) 0) as [H10|_].
    { apply (Hstep 10); [lia | now exists 1 | exact H10]. }
    destruct (Z.eqb_spec (d mod 2) 0) as [H2|_].
    { apply (Hstep 2); [lia | now exists 5 | exact H2]. }
    destruct (Z.eqb_spec (d mod 5) 0) as [H5|_]; [|discriminate].
    apply (Hstep 5); [lia | now exists 2 | exact H5].
Qed.

Lemma finite_decimal_inv q :
  finite_decimal (Fin q) = true ->
  Qred q = q /\ exists k, places_of q = Some k /\ (Z.pos (Qden q) | 10 ^ Z.of_nat k).
Proof.
  unfold finite_decimal. rewrite !andb_true_iff. intros [[Hn Hd] Hp].
  apply Z.eqb_eq in Hn. apply Pos.eqb_eq in Hd. split.
  - destruct (Qred q) as [n' d'], q as [n d]. simpl in *. now subst.
  - destruct (places_of q) as [k|] eqn:Hk; [|discriminate].
    exists k. split; [reflexivity|].
    eapply decimal_places_divides; [|exact Hk]. apply Pos2Z.pos_is_pos.
Qed.

(** The value that [parse_number] computes from the digits of [m]
    scaled by [10^k] is the fraction that was written. *)
Lemma decimal_value_scaled q k :
  Qred q = q -> (Z.pos (Qden q) | 10 ^ Z.of_nat k) ->
  let m := Z.abs (Qnum q) * (10 ^ Z.of_nat k / Z.pos (Qden q)) in
  decimal_value (Qnum q <? 0) (m / 10 ^ Z.of_nat k) (m mod 10 ^ Z.of_nat k) k 0
  = Fin q.
Proof.
  intros Hred [u Hu] m. unfold decimal_value, fin. f_equal.
  rewrite <- Hred at 2. apply Qred_complete.
  assert (0 < 10 ^ Z.of_nat k) as Hpow by (apply Z.pow_pos_nonneg; lia).
  assert (m / 10 ^ Z.of_nat k * 10 ^ Z.of_nat k + m mod 10 ^ Z.of_nat k = m) as Hm
    by (pose proof (Z.div_mod m (10 ^ Z.of_nat k)); lia).
  cbv zeta. rewrite Hm.
  assert (10 ^ Z.of_nat k / Z.pos (Qden q) = u) as Hdiv
    by (rewrite Hu; apply Z.div_mul; lia).
  unfold Qeq, Qmult, Qpower. cbn [Qnum Qden inject_Z].
  rewrite Pos.mul_1_r, Z2Pos.id by lia.
  subst m. rewrite Hdiv, Hu.
  destruct (Z.ltb_spec (Qnum q) 0); [rewrite Z.abs_neq by lia | rewrite Z.abs_eq by lia]; ring.
Qed.

Lemma is_digit_other c :
  is_digit c = true ->
  Ascii.eqb c "-" = false /\ Ascii.eqb c "." = false /\
  is_json_space c = false /\ Ascii.eqb c "n" = false /\ Ascii.eqb c "t" = false /\
  Ascii.eqb c "f" = false /\ Ascii.eqb c quote = false /\
  Ascii.eqb c "[" = false /\ Ascii.eqb c "{" = false.
Proof.
  destruct c as [[] [] [] [] [] [] [] []]; cbn; intros H;
    first [discriminate H | repeat split].
Qed.

Lemma ends_number_inv tail :
  ends_number tail = true ->
  match tail with
  | String c _ => is_digit c = false /\ Ascii.eqb c "." = false /\
                  Ascii.eqb c "e" || Ascii.eqb c "E" = false
  | EmptyString => True
  end.
Proof.
  destruct tail as [|c r]; [trivial|]. unfold ends_number.
  rewrite negb_true_iff, !orb_false_iff. intros [[[H1 H2] H3] H4].
  split; [exact H1|]. split; [exact H2|]. now rewrite H3, H4.
Qed.

(** A non-negative scaled integer, with or without a minus sign in
    front, is read back by [parse_number]. *)
Lemma parse_show_scaled (negative : bool) m k tail :
  0 <= m -> ends_number tail = true ->
  parse_number
    (if negative then String "-" (show_scaled m k tail) else show_scaled m k tail) =
  Some (decimal_value negative (m / 10 ^ Z.of_nat k) (m mod 10 ^ Z.of_nat k) k 0,
        tail).
Proof.
  intros Hm Htail. apply ends_number_inv in Htail.
  assert (0 < 10 ^ Z.of_nat k) as Hpow by (apply Z.pow_pos_nonneg; lia).
  unfold show_scaled. cbv zeta.
  set (ip := m / 10 ^ Z.of_nat k).
  set (rest := match k with
               | O => tail
               | S _ => String "." (fixed_digits k (m mod 10 ^ Z.of_nat k) tail)
               end).
  assert (0 <= ip) as Hip by (apply Z.div_pos; lia).
  assert (forall a n, read_digits rest a n = (a, n, rest)) as Hstop.
  { intros a n. apply read_digits_stop. subst rest.
    destruct k; [destruct tail; tauto | reflexivity]. }
  destruct (natural_digits_read _ ip rest 0 0%nat (log2_fuel ip Hip)) as [len Hread].
  destruct (natural_digits_head _ ip rest (log2_fuel ip Hip)) as (c & r & E & Hc & Hzero).
  rewrite Hstop, Z.mul_0_l, Z.add_0_l, Nat.add_0_l in Hread.
  rewrite E in *.
  destruct (is_digit_other c Hc) as (Hminus & _).
  assert (parse_number (if negative then String "-" (String c r) else String c r) =
          match
            (if Ascii.eqb c "0" && (1 <? S len)%nat then None
             else
               match
                 match rest with
                 | String c0 r0 =>
                     if Ascii.eqb c0 "."
                     then let '(fp, nf, s3) := read_digits r0 0 0%nat in
                          match nf with
                          | O => None
                          | S _ => Some (fp, nf, s3)
                          end
                     else Some (0, 0%nat, rest)
                 | EmptyString => Some (0, 0%nat, rest)
                 end
               with
               | None => None
               | Some (fp, nf, s3) =>
                   match
                     match s3 with
                     | String c0 r0 =>
                         if Ascii.eqb c0 "e" || Ascii.eqb c0 "E"
                         then let (eneg, r1) := read_sign r0 in
                              let '(e, n, r2) := read_digits r1 0 0%nat in
                              match n with
                              | O => None
                              | S _ => Some (if eneg then - e else e, r2)
                              end
                         else Some (0, s3)
                     | EmptyString => Some (0, s3)
                     end
                   with
                   | None => None
                   | Some (e, s4) => Some (decimal_value negative ip fp nf e, s4)
                   end
               end)
          with x => x end) as Hparse.
  { unfold parse_number. destruct negative.
    - rewrite Ascii.eqb_refl, Hread. reflexivity.
    - rewrite Hminus, Hread. reflexivity. }
  rewrite Hparse. clear Hparse.
  assert (Ascii.eqb c "0" && (1 <? S len)%nat = false) as Hlead.
  { destruct (Ascii.eqb c "0") eqn:Hc0; [|reflexivity].
    destruct (Hzero eq_refl) as [_ ->].
    cbn [read_digits] in Hread. rewrite Hc, Hstop in Hread.
    injection Hread as _ Hlen. now rewrite <- Hlen. }
  rewrite Hlead. subst rest. destruct k as [|k].
  - rewrite Z.mod_1_r.
    destruct tail as [|c0 r0]; [reflexivity|].
    destruct Htail as (_ & Hdot & He). now rewrite Hdot, He.
  - rewrite Ascii.eqb_refl.
    rewrite fixed_digits_read by (apply Z.mod_pos_bound; lia).
    rewrite Z.mod_mod by lia.
    assert (read_digits tail (0 * 10 ^ Z.of_nat (S k) + m mod 10 ^ Z.of_nat (S k))
              (0 + S k)%nat =
            (m mod 10 ^ Z.of_nat (S k), S k, tail)) as ->.
    { apply read_digits_stop. destruct tail; tauto. }
    destruct tail as [|c0 r0]; [reflexivity|].
    destruct Htail as (_ & _ & He). now rewrite He.
Qed.

(** A finite decimal is read back from its text. *)
Lemma parse_show_Q q tail :
  finite_decimal (Fin q) = true -> ends_number tail = true ->
  parse_number (show_Q q tail) = Some (Fin q, tail).
Proof.
  intros Hq Htail. destruct (finite_decimal_inv q Hq) as (Hred & k & Hk & Hdiv).
  unfold show_Q. cbv zeta. rewrite Hk.
  assert (0 <= Z.abs (Qnum q) * (10 ^ Z.of_nat k / Z.pos (Qden q))) as Hm.
  { apply Z.mul_nonneg_nonneg; [apply Z.abs_nonneg|].
    apply Z.div_pos; [apply Z.pow_nonneg|]; lia. }
  rewrite (parse_show_scaled _ _ _ _ Hm Htail).
  now rewrite decimal_value_scaled.
Qed.

End NumberText.

(** ** Amounts that are written out in full *)

Section DecimalClosure.
Import JS.
Local Open Scope Z_scope.

Lemma gcd_2_or_5 d p :
  p = 2 \/ p = 5 -> d mod p <> 0 -> Z.gcd d p = 1.
Proof.
  intros Hp Hmod.
  pose proof (Z.gcd_divide_l d p) as Hl.
  pose proof (Z.gcd_divide_r d p) as Hr.
  pose proof (Z.gcd_nonneg d p) as Hnn.
  set (g := Z.gcd d p) in *.
  destruct (Z.eq_dec g p) as [E|Hne].
  - exfalso. apply Hmod. rewrite E in Hl. apply Z.mod_divide; [lia | exact Hl].
  - assert (0 < p) as Hpos by lia.
    assert (g <= p) as Hle by (apply Z.divide_pos_le; assumption).
    destruct Hr as [c Hc].
    destruct Hp as [E | E]; rewrite E in *.
    + assert (g = 0 \/ g = 1) as Hg by lia.
      destruct Hg as [E' | E']; [rewrite E' in Hc; lia | exact E'].
    + assert (g = 0 \/ g = 1 \/ g = 2 \/ g = 3 \/ g = 4) as Hg by lia.
      destruct Hg as [E' | [E' | [E' | [E' | E']]]];
        first [exact E' | rewrite E' in Hc; lia].
Qed.

(** A divisor of a power of ten other than 1 is even or a multiple of 5. *)
Lemma divisor_of_power_of_ten d k :
  1 < d -> (d | 10 ^ Z.of_nat k) -> d mod 2 = 0 \/ d mod 5 = 0.
Proof.
  intros Hd Hdiv.
  destruct (Z.eq_dec (d mod 2) 0) as [H2|H2]; [now left|].
  destruct (Z.eq_dec (d mod 5) 0) as [H5|H5]; [now right|].
  exfalso.
  assert (forall j, (d | 10 ^ Z.of_nat j) -> (d | 1)) as Hone.
  { induction j as [|j IH]; intros Hj; [exact Hj|].
    rewrite Nat2Z.inj_succ, Z.pow_succ_r in Hj by lia.
    apply IH. change 10 with (2 * 5) in Hj at 1. rewrite <- Z.mul_assoc in Hj.
    apply Z.gauss in Hj; [|apply gcd_2_or_5; auto].
    apply Z.gauss in Hj; [exact Hj|apply gcd_2_or_5; auto]. }
  apply Hone in Hdiv. apply Z.divide_1_r_nonneg in Hdiv; lia.
Qed.

Lemma decimal_places_complete fuel d k :
  0 < d < 2 ^ Z.of_nat fuel -> (d | 10 ^ Z.of_nat k) ->
  exists k', decimal_places fuel d = Some k'.
Proof.
  revert d k. induction fuel as [|fuel IH]; intros d k Hd Hdiv.
  - simpl in Hd. lia.
  - cbn [decimal_places]. destruct (Z.eqb_spec d 1) as [->|Hne]; [now exists O|].
    rewrite Nat2Z.inj_succ, Z.pow_succ_r in Hd by lia.
    assert (forall c, 2 <= c -> d mod c = 0 -> (d / c | 10 ^ Z.of_nat k) ->
              exists k', option_map S (decimal_places fuel (d / c)) = Some k') as Hstep.
    { intros c Hc Hmod Hq.
      assert (d = c * (d / c)) as Hdc
        by (pose proof (Z.div_mod d c ltac:(lia)); lia).
      destruct (IH (d / c) k) as [k' Hk']; [nia | exact Hq |].
      exists (S k'). now rewrite Hk'. }
    assert (forall c, 2 <= c -> d mod c = 0 -> (d / c | d)) as Hsub.
    { intros c Hc Hmod. exists c.
      pose proof (Z.div_mod d c ltac:(lia)). lia. }
    destruct (Z.eqb_spec (d mod 10) 0) as [H10|H10].
    { apply (Hstep 10); [lia | exact H10|].
      eapply Z.divide_trans; [apply Hsub; [lia | exact H10] | exact Hdiv]. }
    destruct (Z.eqb_spec (d mod 2) 0) as [H2|H2].
    { apply (Hstep 2); [lia | exact H2|].
      eapply Z.divide_trans; [apply Hsub; [lia | exact H2] | exact Hdiv]. }
    destruct (divisor_of_power_of_ten d k ltac:(lia) Hdiv) as [Hc|H5]; [contradiction|].
    rewrite (proj2 (Z.eqb_eq _ _) H5).
    apply (Hstep 5); [lia | exact H5|].
    eapply Z.divide_trans; [apply Hsub; [lia | exact H5] | exact Hdiv].
Qed.

Lemma size_fuel d : 0 < Z.pos d < 2 ^ Z.of_nat (Pos.to_nat (Pos.size d)).
Proof.
  split; [lia|]. rewrite positive_nat_Z.
  pose proof (Pos.size_gt d) as H.
  apply Pos2Z.pos_lt_pos in H. now rewrite Pos2Z.inj_pow in H.
Qed.

(** A fraction equal to an integer over a power of ten, brought to
    lowest terms, is a finite decimal. *)
Lemma finite_decimal_fin x m k :
  (x == m # Z.to_pos (10 ^ Z.of_nat k))%Q -> finite_decimal (fin x) = true.
Proof.
  intros Hx. unfold fin, finite_decimal.
  assert (Qred (Qred x) = Qred x) as Hinv
    by (apply Qred_complete, Qred_correct).
  rewrite Hinv, Z.eqb_refl, Pos.eqb_refl. cbn [andb].
  assert (0 < 10 ^ Z.of_nat k) as Hpow by (apply Z.pow_pos_nonneg; lia).
  assert (Z.pos (Qden (Qred x)) | 10 ^ Z.of_nat k) as Hdiv.
  { assert (Qred x == m # Z.to_pos (10 ^ Z.of_nat k))%Q as Hr
      by now rewrite Qred_correct.
    unfold Qeq in Hr. cbn [Qnum Qden] in Hr. rewrite Z2Pos.id in Hr by lia.
    pose proof (gcd_Qred x) as Hgcd.
    apply Z.gauss with (Qnum (Qred x)).
    - exists m. rewrite Hr. ring.
    - now rewrite Z.gcd_comm. }
  unfold places_of.
  destruct (decimal_places_complete _ _ _ (size_fuel _) Hdiv) as [k' ->].
  reflexivity.
Qed.

Lemma finite_decimal_ratio q :
  finite_decimal (Fin q) = true ->
  exists m k, (q == m # Z.to_pos (10 ^ Z.of_nat k))%Q.
Proof.
  unfold finite_decimal. rewrite !andb_true_iff. intros [_ Hp].
  destruct (places_of q) as [k|] eqn:Hk; [|discriminate].
  assert (Z.pos (Qden q) | 10 ^ Z.of_nat k) as [u Hu].
  { eapply decimal_places_divides; [|exact Hk]. apply Pos2Z.pos_is_pos. }
  assert (0 < 10 ^ Z.of_nat k) as Hpow by (apply Z.pow_pos_nonneg; lia).
  exists (Qnum q * u), k. unfold Qeq. cbn [Qnum Qden].
  rewrite Z2Pos.id by lia. rewrite Hu. ring.
Qed.

Lemma pow10_to_pos k : Z.pos (Z.to_pos (10 ^ Z.of_nat k)) = 10 ^ Z.of_nat k.
Proof. apply Z2Pos.id. apply Z.pow_pos_nonneg; lia. Qed.

Lemma finite_decimal_of_Z z : finite_decimal (of_Z z) = true.
Proof.
  assert (of_Z z = fin (inject_Z z)) as ->.
  { unfold of_Z, fin, inject_Z. f_equal.
    pose proof (gcd_Qred (z # 1)) as Hg. pose proof (Qred_correct (z # 1)) as Hc.
    destruct (Qred (z # 1)) as [n d]. unfold Qeq in Hc. cbn [Qnum Qden] in *.
    assert (n = Z.pos d * z) as Hn by lia.
    rewrite Hn, Z.gcd_comm, Z.gcd_mul_diag_l in Hg by lia.
    injection Hg as ->. f_equal. lia. }
  apply (finite_decimal_fin _ z O). reflexivity.
Qed.

(** The amounts that are written out in full are closed under the
    arithmetic of the store. *)
Lemma finite_decimal_add a b :
  finite_decimal a = true -> finite_decimal b = true ->
  finite_decimal (add a b) = true.
Proof.
  destruct a as [| | |p], b as [| | |q]; try discriminate. intros Hp Hq.
  destruct (finite_decimal_ratio p Hp) as (m1 & k1 & E1).
  destruct (finite_decimal_ratio q Hq) as (m2 & k2 & E2).
  cbn [add].
  apply (finite_decimal_fin _ (m1 * 10 ^ Z.of_nat k2 + m2 * 10 ^ Z.of_nat k1)
           (k1 + k2)).
  rewrite E1, E2. unfold Qeq, Qplus. cbn [Qnum Qden].
  rewrite Pos2Z.inj_mul, !pow10_to_pos, Nat2Z.inj_add, Z.pow_add_r by lia. ring.
Qed.

Lemma finite_decimal_Math_min a b :
  finite_decimal a = true -> finite_decimal b = true ->
  finite_decimal (Math_min a b) = true.
Proof.
  destruct a as [| | |p], b as [| | |q]; try discriminate. intros Hp Hq.
  unfold Math_min. now destruct (lt (Fin q) (Fin p)).
Qed.

Lemma finite_decimal_decimal_value negative ip fp nf e :
  finite_decimal (decimal_value negative ip fp nf e) = true.
Proof.
  unfold decimal_value. cbv zeta.
  set (m := if negative then - (ip * 10 ^ Z.of_nat nf + fp)
            else ip * 10 ^ Z.of_nat nf + fp).
  assert (0 < 10 ^ Z.of_nat nf) as Hpow by (apply Z.pow_pos_nonneg; lia).
  destruct (Z.le_gt_cases 0 e) as [He|He].
  - apply (finite_decimal_fin _ (m * 10 ^ e) nf).
    rewrite <- Zpower_Qpower by exact He.
    unfold Qeq, Qmult. cbn [Qnum Qden inject_Z]. rewrite Pos.mul_1_r. reflexivity.
  - apply (finite_decimal_fin _ m (nf + Z.to_nat (- e))).
    replace e with (- (- e)) at 1 by lia.
    rewrite Qpower_opp. rewrite <- Zpower_Qpower by lia.
    assert (0 < 10 ^ (- e)) as Hpe by (apply Z.pow_pos_nonneg; lia).
    unfold Qeq, Qmult, Qinv. cbn [Qnum Qden inject_Z].
    destruct (10 ^ (- e)) as [|pe|pe] eqn:Epe; try lia.
    cbn [Qnum Qden]. rewrite !pow10_to_pos, Pos2Z.inj_mul, pow10_to_pos.
    rewrite Nat2Z.inj_add, Z2Nat.id, Z.pow_add_r, Epe by lia. ring.
Qed.

(** [parseFloat] returns [NaN], an infinity, or a number that is written
    out in full. *)
Lemma parseFloat_finite_decimal s :
  match parseFloat s with
  | Fin q => finite_decimal (Fin q) = true
  | _ => True
  end.
Proof.
  unfold parseFloat.
  destruct (read_sign (trimStart s)) as [negative s1].
  destruct (String.prefix "Infinity" s1); [now destruct negative|].
  destruct (read_digits s1 0 0%nat) as [[ip ni] s2].
  destruct (match s2 with
            | String "." r => read_digits r 0 0%nat
            | _ => (0, 0%nat, s2)
            end) as [[fp nf] s3].
  destruct (ni + nf)%nat; [exact I|].
  destruct (read_exponent s3) as [e s4].
  pose proof (finite_decimal_decimal_value negative ip fp nf e) as H.
  destruct (decimal_value negative ip fp nf e); try discriminate H. exact H.
Qed.

End DecimalClosure.

(** ** The text of strings, objects and arrays *)

Section JsonText.
Import JS TextSpec.

Lemma parse_show_char c rest :
  parse_chars (show_char c rest) = prepend (String c) (parse_chars rest).
Proof.
  destruct c as [[] [] [] [] [] [] [] []]; reflexivity.
Qed.

(** A string literal is read back. *)
Lemma parse_show_chars s tail :
  parse_chars (show_chars s (String quote tail)) = Some (s, tail).
Proof.
  induction s as [|c s IH]; [reflexivity|].
  cbn [show_chars]. now rewrite parse_show_char, IH.
Qed.

Lemma parse_value_string fuel s tail :
  parse_value (S fuel) (show_string s tail) = Some (VStr s, tail).
Proof.
  unfold show_string. cbn [parse_value skip_spaces]. 
  change (is_json_space quote) with false. cbv iota.
  change (Ascii.eqb quote "n") with false.
  change (Ascii.eqb quote "t") with false.
  change (Ascii.eqb quote "f") with false.
  change (Ascii.eqb quote quote) with true. cbv iota.
  now rewrite parse_show_chars.
Qed.

(** The text of a finite number starts with a minus sign or a digit. *)
Lemma show_Q_head q tail :
  exists c r, show_Q q tail = String c r /\
              (c = "-"%char \/ is_digit c = true).
Proof.
  unfold show_Q. cbv zeta.
  assert (forall m k, (0 <= m)%Z ->
            exists c r, show_scaled m k tail = String c r /\ is_digit c = true) as Hbody.
  { intros m k Hm. unfold show_scaled. cbv zeta.
    assert (0 <= m / 10 ^ Z.of_nat k)%Z as Hip
      by (apply Z.div_pos; [lia | apply Z.pow_pos_nonneg; lia]).
    destruct (natural_digits_head _ _
                match k with
                | O => tail
                | S _ => String "." (fixed_digits k (m mod 10 ^ Z.of_nat k) tail)
                end (log2_fuel _ Hip)) as (c & r & E & Hc & _).
    now exists c, r. }
  assert (exists c r,
            match places_of q with
            | Some k => show_scaled (Z.abs (Qnum q) * (10 ^ Z.of_nat k / Z.pos (Qden q))) k tail
            | None => show_scaled (Z.abs (Qnum q) * 10 ^ 17 / Z.pos (Qden q)) 17 tail
            end = String c r /\ is_digit c = true) as (c & r & E & Hc).
  { destruct (places_of q) as [k|]; apply Hbody.
    - apply Z.mul_nonneg_nonneg; [apply Z.abs_nonneg|].
      apply Z.div_pos; [apply Z.pow_nonneg|]; lia.
    - apply Z.div_pos; [|lia]. apply Z.mul_nonneg_nonneg; [apply Z.abs_nonneg|lia]. }
  rewrite E. destruct (Qnum q <? 0)%Z.
  - exists "-"%char, (String c r). split; [reflexivity | now left].
  - exists c, r. split; [reflexivity | now right].
Qed.

Lemma parse_value_number fuel n tail :
  finite_decimal n = true -> ends_number tail = true ->
  parse_value (S fuel) (show_number n tail) = Some (VNum n, tail).
Proof.
  intros Hn Htail. destruct n as [| | |q]; try discriminate Hn.
  cbn [show_number].
  pose proof (parse_show_Q q tail Hn Htail) as Hparse.
  destruct (show_Q_head q tail) as (c & r & E & Hc). rewrite E in *.
  cbn [parse_value]. destruct Hc as [-> | Hc].
  - cbn [skip_spaces]. change (is_json_space "-") with false. cbv iota.
    change (Ascii.eqb "-" "n") with false. change (Ascii.eqb "-" "t") with false.
    change (Ascii.eqb "-" "f") with false. change (Ascii.eqb "-" quote) with false.
    change (Ascii.eqb "-" "[") with false. change (Ascii.eqb "-" "{") with false.
    cbv iota. now rewrite Hparse.
  - destruct (is_digit_other c Hc) as (_ & _ & Hs & H1 & H2 & H3 & H4 & H5 & H6).
    cbn [skip_spaces]. rewrite Hs, H1, H2, H3, H4, H5, H6. now rewrite Hparse.
Qed.

Lemma begins_quote_string s rest :
  begins quote (skip_spaces (show_string s rest)) =
  Some (show_chars s (String quote rest)).
Proof. reflexivity. Qed.

(** One member of an object: its name, the colon and its value are read,
    and the parser goes on with what follows. *)
Lemma parse_member fuel k v rest :
  parse_value fuel (show_value v rest) = Some (v, rest) ->
  parse_members (S fuel) (show_string k (String ":" (show_value v rest))) =
  match begins "," (skip_spaces rest), begins "}" (skip_spaces rest) with
  | Some r4, _ =>
      match parse_members fuel r4 with
      | Some (ms, r5) => Some ((k, v) :: ms, r5)
      | None => None
      end
  | None, Some r4 => Some ([(k, v)], r4)
  | None, None => None
  end.
Proof.
  intros Hv. cbn [parse_members]. rewrite begins_quote_string, parse_show_chars.
  change (begins ":" (skip_spaces (String ":" (show_value v rest))))
    with (Some (show_value v rest)).
  cbv iota. now rewrite Hv.
Qed.

Lemma reads_string s : reads 1 (VStr s).
Proof. intros f rest _. apply parse_value_string. Qed.

Lemma reads_number n : finite_decimal n = true -> reads 1 (VNum n).
Proof. intros Hn f rest Hrest. now apply parse_value_number. Qed.

Lemma show_value_array l tail :
  show_value (VArr l) tail = String "[" (show_elements l tail).
Proof.
  cbn [show_value]. f_equal.
  induction l as [|v l IH]; [reflexivity|].
  destruct l as [|v' l]; [reflexivity|].
  change (show_elements (v :: v' :: l) tail)
    with (show_value v (String "," (show_elements (v' :: l) tail))).
  now rewrite <- IH.
Qed.

Lemma show_value_object ms tail :
  show_value (VObj ms) tail = String "{" (show_members ms tail).
Proof.
  cbn [show_value]. f_equal.
  induction ms as [|[k v] ms IH]; [reflexivity|].
  destruct ms as [|kv' ms]; [reflexivity|].
  change (show_members ((k, v) :: kv' :: ms) tail)
    with (show_string k (String ":" (show_value v
            (String "," (show_members (kv' :: ms) tail))))).
  now rewrite <- IH.
Qed.

Lemma parse_show_members ms fuel f tail :
  ms <> [] -> Forall (fun kv => reads fuel (snd kv)) ms ->
  parse_members (length ms + (fuel + f)) (show_members ms tail) = Some (ms, tail).
Proof.
  intros Hne Hall. induction Hall as [|[k v] ms Hv Hall IH]; [congruence|].
  destruct ms as [|kv' ms].
  - cbn [show_members length Nat.add].
    rewrite parse_member by (apply Hv; reflexivity). reflexivity.
  - change (show_members ((k, v) :: kv' :: ms) tail)
      with (show_string k (String ":" (show_value v
              (String "," (show_members (kv' :: ms) tail))))).
    change (length ((k, v) :: kv' :: ms) + (fuel + f))%nat
      with (S (length (kv' :: ms) + (fuel + f))).
    rewrite parse_member.
    + change (begins "," (skip_spaces (String "," (show_members (kv' :: ms) tail))))
        with (Some (show_members (kv' :: ms) tail)).
      cbv iota. rewrite IH by congruence. reflexivity.
    + replace (length (kv' :: ms) + (fuel + f))%nat
        with (fuel + (length (kv' :: ms) + f))%nat by lia.
      apply Hv. reflexivity.
Qed.

Lemma show_members_head ms tail :
  ms <> [] -> exists r, show_members ms tail = String quote r.
Proof.
  destruct ms as [|[k v] [|kv' ms]]; [congruence| |]; intros _; eexists; reflexivity.
Qed.

(** An object whose member names are distinct is read back. *)
Lemma reads_object ms fuel :
  ms <> [] -> object_of ms = VObj ms ->
  Forall (fun kv => reads fuel (snd kv)) ms ->
  reads (S (length ms + fuel)) (VObj ms).
Proof.
  intros Hne Hobj Hall f rest _. rewrite show_value_object.
  destruct (show_members_head ms rest Hne) as [r E].
  change (S (length ms + fuel) + f)%nat with (S (length ms + fuel + f)).
  cbn [parse_value skip_spaces]. change (is_json_space "{") with false. cbv iota.
  change (Ascii.eqb "{" "n") with false. change (Ascii.eqb "{" "t") with false.
  change (Ascii.eqb "{" "f") with false. change (Ascii.eqb "{" quote) with false.
  change (Ascii.eqb "{" "[") with false. change (Ascii.eqb "{" "{") with true.
  cbv iota. rewrite E at 1.
  change (begins "}" (skip_spaces (String quote r))) with (@None string). cbv iota.
  rewrite <- Nat.add_assoc, parse_show_members by assumption.
  now rewrite Hobj.
Qed.

Lemma parse_show_elements l fuel f tail :
  l <> [] -> Forall (reads fuel) l ->
  parse_elements (length l + (fuel + f)) (show_elements l tail) = Some (l, tail).
Proof.
  intros Hne Hall. induction Hall as [|v l Hv Hall IH]; [congruence|].
  destruct l as [|v' l].
  - cbn [show_elements length Nat.add parse_elements].
    rewrite (Hv f (String "]" tail) eq_refl). reflexivity.
  - change (show_elements (v :: v' :: l) tail)
      with (show_value v (String "," (show_elements (v' :: l) tail))).
    change (length (v :: v' :: l) + (fuel + f))%nat
      with (S (length (v' :: l) + (fuel + f))).
    cbn [parse_elements].
    replace (length (v' :: l) + (fuel + f))%nat
      with (fuel + (length (v' :: l) + f))%nat at 1 by lia.
    rewrite (Hv _ (String "," (show_elements (v' :: l) tail)) eq_refl).
    change (begins "," (skip_spaces (String "," (show_elements (v' :: l) tail))))
      with (Some (show_elements (v' :: l) tail)).
    cbv iota. rewrite IH by congruence. reflexivity.
Qed.

End JsonText.

(** ** The length of the text *)

Section TextLength.
Import JS TextSpec.

Lemma extends_refl X : extends 0 X X.
Proof. unfold extends. lia. Qed.

Lemma extends_String n c X Y : extends n X Y -> extends (S n) X (String c Y).
Proof. unfold extends. cbn [String.length]. lia. Qed.

Lemma extends_weaken n m X Y : (m <= n)%nat -> extends n X Y -> extends m X Y.
Proof. unfold extends. lia. Qed.

Lemma extends_show_char c X : extends 0 X (show_char c X).
Proof.
  unfold extends.
  destruct c as [[] [] [] [] [] [] [] []]; unfold show_char, code; simpl; lia.
Qed.

Lemma extends_show_chars n s X Y : extends n X Y -> extends n X (show_chars s Y).
Proof.
  intros H. induction s as [|c s IH]; [exact H|].
  cbn [show_chars]. pose proof (extends_show_char c (show_chars s Y)).
  unfold extends in *. lia.
Qed.

Lemma extends_show_string n s X Y :
  extends n X Y -> extends (S (S n)) X (show_string s Y).
Proof.
  intros H. unfold show_string. apply extends_String.
  apply (extends_show_chars (S n)). now apply extends_String.
Qed.

Lemma extends_fixed_digits n k v X Y :
  extends n X Y -> extends n X (fixed_digits k v Y).
Proof.
  revert v Y. induction k as [|k IH]; intros v Y H; [exact H|].
  cbn [fixed_digits]. apply IH.
  apply (extends_weaken (S n)); [lia|]. now apply extends_String.
Qed.

Lemma extends_natural_digits n fuel v X Y :
  extends n X Y -> extends n X (natural_digits fuel v Y).
Proof.
  revert v Y. induction fuel as [|fuel IH]; intros v Y H; cbn [natural_digits].
  - apply (extends_weaken (S n)); [lia|]. now apply extends_String.
  - destruct (v <? 10)%Z.
    + apply (extends_weaken (S n)); [lia|]. now apply extends_String.
    + apply IH. apply (extends_weaken (S n)); [lia|]. now apply extends_String.
Qed.

Lemma extends_show_number n v X Y :
  extends n X Y -> extends n X (show_number v Y).
Proof.
  intros H.
  assert (forall m k, extends n X (show_scaled m k Y)) as Hs.
  { intros m k. unfold show_scaled. cbv zeta. apply extends_natural_digits.
    destruct k; [exact H|].
    apply (extends_weaken (S n)); [lia|]. apply extends_String.
    now apply extends_fixed_digits. }
  destruct v as [| | |q]; cbn [show_number];
    try (apply (extends_weaken (4 + n)); [lia|]; now repeat apply extends_String).
  unfold show_Q. cbv zeta.
  destruct (Qnum q <? 0)%Z, (places_of q);
    first [apply Hs
          | apply (extends_weaken (S n)); [lia|]; apply extends_String, Hs].
Qed.

End TextLength.

(** ** Saving and loading the goal list *)

Section Persistence.
Import JS TextSpec SavingsContext SavingsProvider.

Lemma reads_goal g : storable g -> reads 8 (goal_value g).
Proof.
  intros [Ht Hc]. unfold goal_value.
  match goal with |- reads 8 (VObj ?ms) =>
    assert (Forall (fun kv => reads 1 (snd kv)) ms) as Hall
  end.
  { repeat constructor; cbn [snd];
      first [apply reads_string | now apply reads_number]. }
  refine (reads_object _ 1 _ eq_refl Hall). discriminate.
Qed.

Lemma extends_String0 c X Y : extends 0 X Y -> extends 0 X (String c Y).
Proof. intros H. apply (extends_weaken 1); [lia|]. now apply extends_String. Qed.

Lemma extends_goal g X : extends 10 X (show_value (goal_value g) X).
Proof.
  unfold goal_value. rewrite show_value_object.
  cbn [show_members show_value]. unfold show_string.
  repeat first
    [ apply extends_refl
    | apply extends_show_chars
    | apply extends_show_number
    | apply extends_String
    | apply extends_String0
    ].
Qed.

Lemma extends_goals gs X :
  extends (10 * length gs) X (show_elements (List.map goal_value gs) X).
Proof.
  induction gs as [|g gs IH].
  - apply (extends_weaken 1); [simpl; lia|]. apply extends_String, extends_refl.
  - destruct gs as [|g' gs].
    + cbn [List.map show_elements].
      pose proof (extends_goal g (String "]" X)). unfold extends in *.
      cbn [String.length length] in *. lia.
    + change (show_elements (List.map goal_value (g :: g' :: gs)) X)
        with (show_value (goal_value g)
                (String "," (show_elements (List.map goal_value (g' :: gs)) X))).
      pose proof (extends_goal g
                    (String "," (show_elements (List.map goal_value (g' :: gs)) X))).
      unfold extends in *. cbn [String.length length] in *. lia.
Qed.

(** The text that [JSON.stringify] writes for a list of goals whose
    amounts are finite decimals is read back by [JSON.parse] as the same
    list. *)
Lemma JSON_parse_stringify_goals gs :
  Forall storable gs ->
  JS.JSON_parse (JSON_stringify (goals_value gs)) = Some (goals_value gs).
Proof.
  intros Hgs. unfold JS.JSON_parse, JSON_stringify, goals_value.
  rewrite show_value_array.
  destruct gs as [|g gs]; [reflexivity|].
  set (l := List.map goal_value (g :: gs)).
  pose proof (extends_goals (g :: gs) "") as Hlen. fold l in Hlen.
  unfold extends in Hlen. cbn [String.length length] in Hlen.
  assert (exists r, show_elements l "" = String "{" r) as [r E].
  { subst l. unfold goal_value. destruct gs; cbn [List.map show_elements];
      rewrite show_value_object; eexists; reflexivity. }
  assert (parse_elements (String.length (String "[" (show_elements l "")))
            (show_elements l "") = Some (l, "")) as Hparse.
  { assert (exists f, String.length (String "[" (show_elements l "")) =
                      (length l + (8 + f))%nat) as [f ->].
    { exists (String.length (String "[" (show_elements l "")) - length l - 8)%nat.
      subst l. cbn [String.length]. rewrite length_map. cbn [length]. lia. }
    apply parse_show_elements; [subst l; discriminate|].
    subst l. apply Forall_map. eapply Forall_impl; [exact Hgs|].
    intros g0. apply reads_goal. }
  cbn [parse_value skip_spaces]. change (is_json_space "[") with false. cbv iota.
  change (Ascii.eqb "[" "n") with false. change (Ascii.eqb "[" "t") with false.
  change (Ascii.eqb "[" "f") with false. change (Ascii.eqb "[" quote) with false.
  change (Ascii.eqb "[" "[") with true. cbv iota.
  rewrite E at 1.
  change (begins "]" (skip_spaces (String "{" r))) with (@None string). cbv iota.
  rewrite Hparse. reflexivity.
Qed.

Lemma stringify_goals_truthy gs :
  JS.truthy (JSON_stringify (goals_value gs)) = true.
Proof. unfold JSON_stringify, goals_value. now rewrite show_value_array. Qed.

(** What [loadSavingsGoals] does at the start of a session, by what the
    storage holds under the key. *)
Lemma load_nothing stored :
  stored !! STORAGE_KEY = None \/ stored !! STORAGE_KEY = Some "" ->
  loadSavingsGoals (initial stored) =
  (Returned tt,
   {| savingsGoals := VArr []; isLoading := false; storage := stored;
      alerts := []; console := [] |}).
Proof.
  intros H. unfold loadSavingsGoals, try_finally, try_catch, bind,
    AsyncStorage_getItem. cbn [storage initial].
  destruct H as [-> | ->]; reflexivity.
Qed.

Lemma load_parsed stored text v :
  stored !! STORAGE_KEY = Some text -> JS.truthy text = true ->
  JS.JSON_parse text = Some v ->
  loadSavingsGoals (initial stored) =
  (Returned tt,
   {| savingsGoals := v; isLoading := false; storage := stored;
      alerts := []; console := [] |}).
Proof.
  intros Hget Ht Hv. unfold loadSavingsGoals, try_finally, try_catch, bind,
    AsyncStorage_getItem, JSON_parse. cbn [storage initial].
  rewrite Hget, Ht, Hv. reflexivity.
Qed.

Lemma load_malformed stored text :
  stored !! STORAGE_KEY = Some text -> text <> "" ->
  JS.JSON_parse text = None ->
  loadSavingsGoals (initial stored) =
  (Returned tt,
   {| savingsGoals := VArr []; isLoading := false; storage := stored;
      alerts := [("Error", "Failed to load savings goals from storage")];
      console := [("Error loading savings goals:", "SyntaxError")] |}).
Proof.
  intros Hget Ht Hv. apply truthy_iff in Ht.
  unfold loadSavingsGoals, try_finally, try_catch, bind,
    AsyncStorage_getItem, JSON_parse. cbn [storage initial].
  rewrite Hget, Ht, Hv. reflexivity.
Qed.

Lemma save_run goals st :
  saveSavingsGoals goals st =
  (Returned tt,
   {| savingsGoals := savingsGoals st; isLoading := isLoading st;
      storage := <[STORAGE_KEY := JSON_stringify goals]> (storage st);
      alerts := alerts st; console := console st |}).
Proof. reflexivity. Qed.

(** C8, as amended.  For every list of goals whose amounts are finite
    numbers written out in full, [saveSavingsGoals] puts the text of the
    whole list under the one storage key, and [loadSavingsGoals] in the
    session that follows returns normally with the goal list equal to
    the one saved, no dialog shown and loading finished. *)
Theorem save_load_roundtrip (goals : list SavingsGoal) (st : State) :
  Forall storable goals ->
  let stored := storage (snd (saveSavingsGoals (goals_value goals) st)) in
  stored !! STORAGE_KEY = Some (JSON_stringify (goals_value goals)) /\
  save_then_load (goals_value goals) st =
  (Returned tt,
   {| savingsGoals := goals_value goals; isLoading := false;
      storage := stored; alerts := []; console := [] |}).
Proof.
  intros Hgoals stored. subst stored. unfold save_then_load.
  rewrite save_run. cbn [snd storage].
  assert (<[STORAGE_KEY := JSON_stringify (goals_value goals)]> (storage st)
            !! STORAGE_KEY = Some (JSON_stringify (goals_value goals))) as Hget
    by apply lookup_insert_eq.
  split; [exact Hget|].
  apply (load_parsed _ _ _ Hget).
  - apply stringify_goals_truthy.
  - now apply JSON_parse_stringify_goals.
Qed.

Lemma save_load_roundtrip_witness :
  Forall storable [Samples.emergency_fund; Samples.vacation] /\
  savingsGoals
    (snd (save_then_load
            (goals_value [Samples.emergency_fund; Samples.vacation])
            (initial ∅))) =
  goals_value [Samples.emergency_fund; Samples.vacation].
Proof.
  assert (Forall storable [Samples.emergency_fund; Samples.vacation]) as H
    by (repeat constructor).
  split; [exact H|].
  destruct (save_load_roundtrip _ (initial ∅) H) as [_ Hload].
  now rewrite Hload.
Defined.

(** C8 as stated fails on a goal whose target is [NaN], the goal that the
    form stores for the target text ".": [JSON.stringify] writes [null]
    for it, and the list loaded is not the list saved. *)
Lemma save_load_NaN_goal_differs :
  savingsGoals (snd (save_then_load (goals_value [Samples.dot_goal]) (initial ∅)))
  = VArr [VObj [("id", VStr "1700000001000"); ("title", VStr "Car");
                ("targetAmount", VNull); ("currentAmount", VNum (JS.of_Z 0));
                ("deadline", VStr "2026-01-01"); ("category", VStr "Transport")]]
  /\ savingsGoals
       (snd (save_then_load (goals_value [Samples.dot_goal]) (initial ∅)))
     <> goals_value [Samples.dot_goal].
Proof.
  assert (save_then_load (goals_value [Samples.dot_goal]) (initial ∅) =
          (Returned tt,
           {| savingsGoals :=
                VArr [VObj [("id", VStr "1700000001000"); ("title", VStr "Car");
                            ("targetAmount", VNull);
                            ("currentAmount", VNum (JS.of_Z 0));
                            ("deadline", VStr "2026-01-01");
                            ("category", VStr "Transport")]];
              isLoading := false;
              storage := <[STORAGE_KEY :=
                             JSON_stringify (goals_value [Samples.dot_goal])]> ∅;
              alerts := []; console := [] |})) as Hrun.
  { unfold save_then_load. rewrite save_run. cbn [storage initial].
    eapply load_parsed; [apply lookup_insert_eq | reflexivity | reflexivity]. }
  rewrite Hrun. cbn [snd savingsGoals]. split; [reflexivity | discriminate].
Qed.

(** C9, as amended.  At the start of a session, when nothing is stored
    under the key, or the empty text is, the goal list stays empty and
    nothing is reported; when a text that is not empty and not JSON is
    stored, the dialog "Failed to load savings goals from storage" is
    shown, the goal list stays empty, and the call returns with loading
    finished. *)
Theorem load_absent_or_malformed (stored : gmap string string) :
  (stored !! STORAGE_KEY = None \/ stored !! STORAGE_KEY = Some "" ->
   loadSavingsGoals (initial stored) =
   (Returned tt,
    {| savingsGoals := VArr []; isLoading := false; storage := stored;
       alerts := []; console := [] |})) /\
  (forall text,
     stored !! STORAGE_KEY = Some text -> text <> "" ->
     JS.JSON_parse text = None ->
     loadSavingsGoals (initial stored) =
     (Returned tt,
      {| savingsGoals := VArr []; isLoading := false; storage := stored;
         alerts := [("Error", "Failed to load savings goals from storage")];
         console := [("Error loading savings goals:", "SyntaxError")] |})).
Proof.
  split; [apply load_nothing | apply load_malformed].
Qed.

Lemma load_absent_or_malformed_witness :
  (∅ : gmap string string) !! STORAGE_KEY = None /\
  savingsGoals (snd (loadSavingsGoals (initial ∅))) = VArr [] /\
  ({[STORAGE_KEY := Samples.broken_payload]} : gmap string string) !! STORAGE_KEY
    = Some Samples.broken_payload /\
  Samples.broken_payload <> "" /\
  JS.JSON_parse Samples.broken_payload = None /\
  alerts (snd (loadSavingsGoals
                 (initial {[STORAGE_KEY := Samples.broken_payload]}))) =
    [("Error", "Failed to load savings goals from storage")].
Proof.
  assert ((∅ : gmap string string) !! STORAGE_KEY = None) as H0
    by apply lookup_empty.
  assert (({[STORAGE_KEY := Samples.broken_payload]} : gmap string string)
            !! STORAGE_KEY = Some Samples.broken_payload) as H1
    by apply lookup_singleton_eq.
  assert (Samples.broken_payload <> "") as H2 by discriminate.
  assert (JS.JSON_parse Samples.broken_payload = None) as H3 by reflexivity.
  destruct (load_absent_or_malformed ∅) as [Habs _].
  destruct (load_absent_or_malformed {[STORAGE_KEY := Samples.broken_payload]})
    as [_ Hmal].
  rewrite (Habs (or_introl H0)), (Hmal _ H1 H2 H3).
  repeat split; assumption.
Defined.

(** C9 as stated fails on the empty text: it is stored under the key and
    it is not JSON, but the guard [if (storedGoals)] takes it for no
    payload and no dialog is shown. *)
Lemma load_empty_text_not_reported :
  ({[STORAGE_KEY := ""]} : gmap string string) !! STORAGE_KEY = Some "" /\
  JS.JSON_parse "" = None /\
  alerts (snd (loadSavingsGoals (initial {[STORAGE_KEY := ""]}))) = [].
Proof.
  assert (({[STORAGE_KEY := ""]} : gmap string string) !! STORAGE_KEY = Some "")
    as H by apply lookup_singleton_eq.
  split; [exact H|]. split; [reflexivity|].
  now rewrite (load_nothing _ (or_intror H)).
Qed.

(** The goals that the forms build from amounts that [parseFloat] reads
    as finite numbers are written out in full. *)
Lemma updateSavingsGoal_storable id0 amount goals :
  finite_decimal amount = true -> Forall storable goals ->
  Forall storable (updateSavingsGoal id0 amount goals).
Proof.
  intros Ha. induction 1 as [|g goals [Ht Hc] _ IH]; simpl; constructor; [|exact IH].
  destruct (String.eqb (id g) id0); [|now split].
  split; cbn [SavingsContext.targetAmount currentAmount with_currentAmount];
    [exact Ht|].
  apply finite_decimal_Math_min; [exact Ht|]. now apply finite_decimal_add.
Qed.

Lemma handleSubmit_storable now (st : AddSavingsGoalForm.State) q :
  parseFloat (AddSavingsGoalForm.targetAmount (AddSavingsGoalForm.formData st))
    = Fin q ->
  Forall storable (AddSavingsGoalForm.savingsGoals st) ->
  Forall storable
    (AddSavingsGoalForm.savingsGoals (AddSavingsGoalForm.handleSubmit now st)).
Proof.
  intros Hq Hall. unfold AddSavingsGoalForm.handleSubmit.
  destruct (_ || _ || _ || _); [exact Hall|].
  destruct (JS.le _ _); [exact Hall|].
  cbn [AddSavingsGoalForm.savingsGoals addSavingsGoal]. constructor; [|exact Hall].
  split; cbn [SavingsContext.targetAmount currentAmount].
  - pose proof (parseFloat_finite_decimal
                  (AddSavingsGoalForm.targetAmount (AddSavingsGoalForm.formData st)))
      as H.
    now rewrite Hq in *.
  - apply finite_decimal_of_Z.
Qed.

Lemma handleAddMoney_storable goal (st : SavingsGoalCard.State) q :
  parseFloat (SavingsGoalCard.addAmount st) = Fin q ->
  Forall storable (SavingsGoalCard.savingsGoals st) ->
  Forall storable
    (SavingsGoalCard.savingsGoals (SavingsGoalCard.handleAddMoney goal st)).
Proof.
  intros Hq Hall. unfold SavingsGoalCard.handleAddMoney.
  destruct (_ || _); [exact Hall|].
  cbn [SavingsGoalCard.savingsGoals]. apply updateSavingsGoal_storable; [|exact Hall].
  pose proof (parseFloat_finite_decimal (SavingsGoalCard.addAmount st)) as H.
  now rewrite Hq in *.
Qed.

End Persistence.

(** ** Contributions seen from the card *)

Section CardFacts.
Import SavingsContext SavingsGoalCard SavingsSpec.

Lemma fin_zero q : (q == 0)%Q -> JS.fin q = JS.of_Z 0.
Proof.
  intros H. unfold JS.fin, JS.of_Z. f_equal.
  rewrite (Qred_complete _ _ H). reflexivity.
Qed.

Lemma updateSavingsGoal_lookup goals i g id0 amount :
  goals !! i = Some g ->
  updateSavingsGoal id0 amount goals !! i =
  Some (if String.eqb (id g) id0
        then with_currentAmount g
               (JS.Math_min (targetAmount g) (JS.add (currentAmount g) amount))
        else g).
Proof.
  intros H. unfold updateSavingsGoal.
  change (@List.map) with (@fmap list _).
  now rewrite list_lookup_fmap, H.
Qed.

(** X1. a contribution completes the goal exactly when the sum
    [currentAmount + amount] that the code computes reaches the target:
    the goal at the position then has exactly its target as current
    amount (never more), nothing remains and the card shows it as
    completed.  When the sum stays below the target it becomes the
    current amount and the goal stays open. *)
Theorem contribution_completes_goal (goals : list SavingsGoal) (i : nat)
    (g : SavingsGoal) (t c : Q) (delta : number) :
  goals !! i = Some g ->
  targetAmount g = JS.Fin t -> currentAmount g = JS.Fin c ->
  exists g',
    updateSavingsGoal (id g) delta goals !! i = Some g' /\
    (JS.le (targetAmount g) (JS.add (currentAmount g) delta) = true ->
     currentAmount g' = targetAmount g' /\ isCompleted g' = true /\
     remaining g' = JS.of_Z 0) /\
    (JS.lt (JS.add (currentAmount g) delta) (targetAmount g) = true ->
     currentAmount g' = JS.add (currentAmount g) delta /\
     isCompleted g' = false).
Proof.
  intros Hi Ht Hc. eexists. split.
  - rewrite (updateSavingsGoal_lookup _ _ _ _ _ Hi), String.eqb_refl. reflexivity.
  - unfold remaining, isCompleted, JS.ge.
    cbn [with_currentAmount targetAmount currentAmount].
    rewrite Ht. split.
    + intros Hle.
      assert (E : JS.Math_min (JS.Fin t) (JS.add (currentAmount g) delta) = JS.Fin t).
      { destruct (JS.add (currentAmount g) delta) as [| | |s];
          cbn in Hle |- *; try discriminate; [reflexivity|].
        now rewrite Hle. }
      rewrite E. split; [reflexivity|]. split.
      * cbn. apply Qle_bool_iff. lra.
      * cbn [JS.sub]. apply fin_zero. lra.
    + intros Hlt.
      assert (E : JS.Math_min (JS.Fin t) (JS.add (currentAmount g) delta) =
                  JS.add (currentAmount g) delta).
      { destruct (JS.add (currentAmount g) delta) as [| | |s];
          cbn in Hlt |- *; try discriminate; [reflexivity|].
        now rewrite Hlt. }
      rewrite E. split; [reflexivity|].
      destruct (JS.add (currentAmount g) delta) as [| | |s];
        cbn in Hlt |- *; try discriminate; [reflexivity|].
      now apply negb_true_iff in Hlt.
Qed.

Lemma contribution_completes_goal_witness :
  [Samples.emergency_fund; Samples.vacation] !! 0%nat = Some Samples.emergency_fund /\
  JS.le (targetAmount Samples.emergency_fund)
    (JS.add (currentAmount Samples.emergency_fund) (JS.of_Z 900)) = true /\
  exists g',
    updateSavingsGoal "1700000000000" (JS.of_Z 900)
      [Samples.emergency_fund; Samples.vacation] !! 0%nat = Some g' /\
    currentAmount g' = JS.of_Z 1000 /\ isCompleted g' = true /\
    remaining g' = JS.of_Z 0.
Proof.
  split; [reflexivity|]. split; [reflexivity|].
  destruct (contribution_completes_goal
              [Samples.emergency_fund; Samples.vacation] 0 Samples.emergency_fund
              1000 250 (JS.of_Z 900) eq_refl eq_refl eq_refl)
    as (g' & Hg & Hfull & _).
  exists g'. split; [exact Hg|].
  destruct (Hfull eq_refl) as (Hc & Hd & Hr).
  split; [|split; assumption].
  rewrite Hc. cbn in Hg. injection Hg as <-. reflexivity.
Defined.

(** X2. for a goal with finite amounts, a positive target and
    [0 <= currentAmount <= targetAmount], the progress lies between 0 and
    100, so that the bar width [Math.min(progress, 100)] is the progress
    itself; what remains is not negative; and the goal is completed
    exactly when the progress is 100, which is exactly when nothing
    remains. *)
Theorem progress_within_bounds (g : SavingsGoal) (t c : Q) :
  targetAmount g = JS.Fin t -> currentAmount g = JS.Fin c ->
  (0 < t)%Q -> amount_invariant g ->
  JS.le (JS.of_Z 0) (progress g) = true /\
  JS.le (progress g) (JS.of_Z 100) = true /\
  JS.Math_min (progress g) (JS.of_Z 100) = progress g /\
  JS.le (JS.of_Z 0) (remaining g) = true /\
  (isCompleted g = true <-> progress g = JS.of_Z 100) /\
  (isCompleted g = true <-> remaining g = JS.of_Z 0).
Proof.
  intros Ht Hc Hpos [H0 Hle].
  unfold progress, remaining, isCompleted, JS.ge.
  rewrite Ht, Hc in *. cbn in H0, Hle.
  apply Qle_bool_iff in H0. apply Qle_bool_iff in Hle.
  unfold inject_Z in H0.
  rewrite div_finite by lra.
  cbn [JS.mul JS.fin JS.of_Z JS.sub JS.le].
  assert (Hq : (0 <= c / t)%Q /\ (c / t <= 1)%Q).
  { split.
    - apply Qle_shift_div_l; lra.
    - apply Qle_shift_div_r; lra. }
  destruct Hq as [Hq0 Hq1].
  assert (Hp : (Qred (Qred (c / t) * inject_Z 100) == c / t * 100)%Q).
  { rewrite !Qred_correct. unfold inject_Z. reflexivity. }
  assert (H100 : (0 <= c / t * 100)%Q /\ (c / t * 100 <= 100)%Q).
  { split; [apply Qmult_le_0_compat; lra|].
    apply Qle_trans with (1 * 100)%Q; [apply Qmult_le_compat_r; lra | lra]. }
  split; [apply Qle_bool_iff; rewrite Hp; unfold inject_Z; lra|].
  split; [apply Qle_bool_iff; rewrite Hp; unfold inject_Z; lra|].
  split.
  { unfold JS.Math_min, JS.fin, JS.of_Z, JS.lt.
    match goal with
    | |- context [Qle_bool ?a ?b] =>
        assert (E : Qle_bool a b = true)
          by (apply Qle_bool_iff; rewrite Hp; unfold inject_Z; lra);
        rewrite E
    end.
    reflexivity. }
  split; [apply Qle_bool_iff; rewrite Qred_correct; unfold inject_Z; lra|].
  assert (Hdone : Qle_bool t c = true <-> (c == t)%Q).
  { rewrite Qle_bool_iff. split; intros H; lra. }
  split.
  - rewrite Hdone. split.
    + intros E. unfold JS.fin, JS.of_Z. f_equal.
      change (inject_Z 100) with (Qred (inject_Z 100)) at 2.
      apply Qred_complete.
      rewrite Qred_correct, E. unfold inject_Z. field. lra.
    + intros E. injection E as E.
      assert (E' : (c / t * 100 == 100)%Q).
      { rewrite <- Hp. unfold Qeq. cbn [Qnum Qden]. rewrite E. reflexivity. }
      assert (E2 : (c / t == 1)%Q) by lra.
      assert (E3 : (c == c / t * t)%Q) by (field; lra).
      rewrite E3, E2. lra.
  - rewrite Hdone. split.
    + intros E. apply fin_zero. lra.
    + intros E. injection E as E.
      assert (E' : (t - c == 0)%Q).
      { rewrite <- (Qred_correct (t - c)). rewrite E. reflexivity. }
      lra.
Qed.

Lemma progress_within_bounds_witness :
  amount_invariant Samples.emergency_fund /\
  JS.Math_min (progress Samples.emergency_fund) (JS.of_Z 100) =
    progress Samples.emergency_fund /\
  JS.le (progress Samples.emergency_fund) (JS.of_Z 100) = true.
Proof.
  assert (Hi : amount_invariant Samples.emergency_fund) by (split; reflexivity).
  split; [exact Hi|].
  destruct (progress_within_bounds Samples.emergency_fund 1000 250
              eq_refl eq_refl eq_refl Hi) as (_ & Hle & Hmin & _).
  split; assumption.
Defined.

(** X3. for a deadline and a current time that are finite time stamps,
    the days remaining are positive exactly when the deadline is later
    than the current time; the card shows "Overdue" from the instant of
    the deadline on. *)
Theorem days_left_positive_iff (getTime : string -> number) (today : number)
    (goal : SavingsGoal) (d n : Q) :
  getTime (deadline goal) = JS.Fin d -> today = JS.Fin n ->
  (JS.gt (getDaysRemaining getTime today goal) (JS.of_Z 0) = true <-> (n < d)%Q).
Proof.
  intros Hd Hn. unfold getDaysRemaining, JS.gt. rewrite Hd, Hn.
  cbn [JS.sub]. unfold JS.fin, JS.of_Z at 2.
  rewrite div_finite by (unfold inject_Z; intros H; discriminate).
  unfold JS.fin, JS.Math_ceil, JS.of_Z, JS.lt.
  rewrite negb_true_iff, <- not_true_iff_false, Qle_bool_iff.
  set (q := Qred (Qred (d - n) / inject_Z (1000 * 3600 * 24))).
  assert (Hq : (q == (d - n) / 86400000)%Q).
  { unfold q. rewrite !Qred_correct. reflexivity. }
  assert (Hsign : (0 < q)%Q <-> (n < d)%Q).
  { rewrite Hq. split; intros H.
    - assert (H1 : (0 < (d - n) / 86400000 * 86400000)%Q)
        by (apply Qmult_lt_0_compat; lra).
      assert (H2 : ((d - n) / 86400000 * 86400000 == d - n)%Q) by field.
      lra.
    - apply Qlt_shift_div_l; lra. }
  rewrite <- Hsign.
  pose proof (Qle_ceiling q) as Hup.
  pose proof (Qceiling_lt q) as Hlow.
  rewrite <- Zle_Qle.
  split; intros H.
  - assert (Hz : (1 <= Qceiling q)%Z) by lia.
    rewrite Zle_Qle in Hz.
    assert (E : (inject_Z (Qceiling q - 1) == inject_Z (Qceiling q) - 1)%Q).
    { unfold Zminus. rewrite inject_Z_plus. reflexivity. }
    rewrite E in Hlow. unfold inject_Z at 1 in Hz. lra.
  - intros Hz. rewrite Zle_Qle in Hz. unfold inject_Z at 2 in Hz. lra.
Qed.

Lemma days_left_positive_iff_witness :
  JS.iso_date_getTime (deadline Samples.emergency_fund) = JS.of_Z 1767139200000 /\
  JS.gt (getDaysRemaining JS.iso_date_getTime (JS.of_Z 1767139200000)
           Samples.emergency_fund) (JS.of_Z 0) = false /\
  JS.gt (getDaysRemaining JS.iso_date_getTime (JS.of_Z 1767139199999)
           Samples.emergency_fund) (JS.of_Z 0) = true.
Proof.
  split; [reflexivity|]. split.
  - apply not_true_iff_false. intros H.
    apply (days_left_positive_iff JS.iso_date_getTime _ Samples.emergency_fund
             1767139200000 1767139200000 eq_refl eq_refl) in H.
    revert H. apply Qlt_irrefl.
  - apply (days_left_positive_iff JS.iso_date_getTime _ Samples.emergency_fund
             1767139200000 1767139199999 eq_refl eq_refl).
    reflexivity.
Defined.

Lemma not_le_lt a : a <> JS.NaN ->
  JS.le a (JS.of_Z 0) = false -> JS.lt (JS.of_Z 0) a = true.
Proof.
  destruct a as [| | |q]; cbn; try congruence.
  intros _ H. now rewrite H.
Qed.

(** X4. [handleAddMoney] keeps [0 <= currentAmount <= targetAmount] on
    every goal of the store whenever the text of the input is empty or
    [parseFloat] reads a number from it: the text is either rejected, and
    the store and the input are left as they are, or it is a positive
    amount that is added with the clamp, and the input is cleared. *)
Theorem handleAddMoney_keeps_invariant (goal : SavingsGoal) (st : State) :
  addAmount st = "" \/ JS.parseFloat (addAmount st) <> JS.NaN ->
  Forall amount_invariant (savingsGoals st) ->
  let st' := handleAddMoney goal st in
  Forall amount_invariant (savingsGoals st') /\
  length (savingsGoals st') = length (savingsGoals st) /\
  ((savingsGoals st' = savingsGoals st /\ addAmount st' = addAmount st /\
    alerts st' = alerts st ++ [("Error", "Please enter a valid amount")]) \/
   (JS.lt (JS.of_Z 0) (JS.parseFloat (addAmount st)) = true /\
    savingsGoals st' =
      updateSavingsGoal (id goal) (JS.parseFloat (addAmount st)) (savingsGoals st) /\
    addAmount st' = "" /\
    alerts st' = alerts st ++
      [("Success", "Amount added and saved successfully!")])).
Proof.
  intros Htext Hinv. cbv zeta. unfold handleAddMoney.
  destruct (negb (JS.truthy (addAmount st))
            || JS.le (JS.parseFloat (addAmount st)) (JS.of_Z 0)) eqn:Hguard;
    cbn [savingsGoals addAmount alerts].
  - split; [exact Hinv|]. split; [reflexivity|]. left. now repeat split.
  - apply orb_false_iff in Hguard as [Hne Hle].
    apply negb_false_iff in Hne. apply truthy_iff in Hne.
    destruct Htext as [E | Hnum]; [contradiction|].
    pose proof (not_le_lt _ Hnum Hle) as Hpos.
    split; [now apply updateSavingsGoal_invariant|].
    split; [apply length_map|]. right. now repeat split.
Qed.

Lemma handleAddMoney_keeps_invariant_witness :
  let st := {| savingsGoals := [Samples.emergency_fund; Samples.vacation];
               addAmount := "900.50"; alerts := [] |} in
  JS.parseFloat (addAmount st) <> JS.NaN /\
  Forall amount_invariant (savingsGoals st) /\
  Forall amount_invariant
    (savingsGoals (handleAddMoney Samples.emergency_fund st)) /\
  List.map currentAmount (savingsGoals (handleAddMoney Samples.emergency_fund st))
    = [JS.of_Z 1000; JS.of_Z 0].
Proof.
  intros st.
  assert (Hn : JS.parseFloat (addAmount st) <> JS.NaN) by (vm_compute; discriminate).
  assert (Hi : Forall amount_invariant (savingsGoals st))
    by (repeat constructor).
  split; [exact Hn|]. split; [exact Hi|].
  destruct (handleAddMoney_keeps_invariant Samples.emergency_fund st
              (or_intror Hn) Hi) as (H & _).
  split; [exact H|]. reflexivity.
Defined.

(** X5. a text that is not empty and from which [parseFloat] reads no
    number is not rejected by [handleAddMoney]: the guard
    [parseFloat(addAmount) <= 0] is false for [NaN], the success dialog
    is shown, and every goal with the id of the card gets the current
    amount [NaN], while the other goals are left as they are. *)
Theorem handleAddMoney_accepts_unreadable_text (goal : SavingsGoal) (st : State) :
  addAmount st <> "" -> JS.parseFloat (addAmount st) = JS.NaN ->
  let st' := handleAddMoney goal st in
  alerts st' = alerts st ++ [("Success", "Amount added and saved successfully!")] /\
  Forall2
    (fun g g' =>
       if String.eqb (id g) (id goal)
       then g' = with_currentAmount g JS.NaN /\ ~ amount_invariant g'
       else g' = g)
    (savingsGoals st) (savingsGoals st').
Proof.
  intros Hne Hnan. cbv zeta. unfold handleAddMoney.
  apply truthy_iff in Hne. rewrite Hne, Hnan.
  cbn [negb orb JS.le savingsGoals addAmount alerts]. split; [reflexivity|].
  unfold updateSavingsGoal.
  induction (savingsGoals st) as [|g l IH]; cbn [List.map]; constructor; [|exact IH].
  destruct (String.eqb (id g) (id goal)); [|reflexivity].
  assert (E : JS.Math_min (targetAmount g) (JS.add (currentAmount g) JS.NaN) = JS.NaN).
  { destruct (currentAmount g), (targetAmount g); reflexivity. }
  rewrite E. split; [reflexivity|].
  intros [H _]. cbn in H. discriminate.
Qed.

Lemma handleAddMoney_accepts_unreadable_text_witness :
  let st := {| savingsGoals := [Samples.emergency_fund; Samples.vacation];
               addAmount := "."; alerts := [] |} in
  addAmount st <> "" /\ JS.parseFloat (addAmount st) = JS.NaN /\
  alerts (handleAddMoney Samples.emergency_fund st) =
    [("Success", "Amount added and saved successfully!")] /\
  savingsGoals (handleAddMoney Samples.emergency_fund st) =
    [with_currentAmount Samples.emergency_fund JS.NaN; Samples.vacation].
Proof.
  intros st.
  assert (Hne : addAmount st <> "") by discriminate.
  assert (Hnan : JS.parseFloat (addAmount st) = JS.NaN) by reflexivity.
  split; [exact Hne|]. split; [exact Hnan|].
  destruct (handleAddMoney_accepts_unreadable_text Samples.emergency_fund st
              Hne Hnan) as (Ha & _).
  split; [exact Ha|reflexivity].
Defined.

End CardFacts.

(** ** The savings-goal form on readable targets *)

Section SavingsFormOutcome.
Import SavingsContext AddSavingsGoalForm SavingsSpec.

(** X6. when a field of the savings-goal form is empty or [parseFloat]
    reads a number from the target text, [handleSubmit] either rejects
    the form, keeping the store and what was typed, or puts one goal in
    front of the store and clears the form; that goal has the time of the
    call as id, the current amount 0 and a strictly positive target, so
    that [0 <= currentAmount <= targetAmount] holds for it. *)
Theorem savings_form_outcome (now : Z) (st : State) :
  ~ filled (formData st) \/
  JS.parseFloat (targetAmount (formData st)) <> JS.NaN ->
  let st' := handleSubmit now st in
  (savingsGoals st' = savingsGoals st /\ formData st' = formData st /\
   exists m, alerts st' = alerts st ++ [("Error", m)]) \/
  (exists goal,
     savingsGoals st' = goal :: savingsGoals st /\
     formData st' = empty_form /\
     alerts st' = alerts st ++
       [("Success", "Savings goal created and saved successfully!")] /\
     id goal = JS.Z_toString now /\
     SavingsContext.title goal = title (formData st) /\
     SavingsContext.targetAmount goal = JS.parseFloat (targetAmount (formData st)) /\
     currentAmount goal = JS.of_Z 0 /\
     JS.lt (JS.of_Z 0) (SavingsContext.targetAmount goal) = true /\
     amount_invariant goal).
Proof.
  intros Hin. cbv zeta. unfold handleSubmit.
  destruct (negb (JS.truthy (title (formData st)))
            || negb (JS.truthy (targetAmount (formData st)))
            || negb (JS.truthy (deadline (formData st)))
            || negb (JS.truthy (category (formData st)))) eqn:Hblank.
  { left. split; [reflexivity|]. split; [reflexivity|now eexists]. }
  destruct (JS.le (JS.parseFloat (targetAmount (formData st))) (JS.of_Z 0)) eqn:Hle.
  { left. split; [reflexivity|]. split; [reflexivity|now eexists]. }
  assert (Hfilled : filled (formData st)).
  { repeat (apply orb_false_iff in Hblank as [Hblank ?]).
    repeat split; apply truthy_iff; now apply negb_false_iff. }
  destruct Hin as [Hn | Hnum]; [contradiction|].
  assert (Hpos : JS.lt (JS.of_Z 0) (JS.parseFloat (targetAmount (formData st))) = true).
  { destruct (JS.parseFloat (targetAmount (formData st))) as [| | |q]; cbn in *;
      try congruence. now rewrite Hle. }
  right. eexists. split; [reflexivity|]. cbn.
  repeat split; try assumption. now apply lt_le.
Qed.

Lemma savings_form_outcome_witness :
  let st := {| savingsGoals := [Samples.emergency_fund];
               formData := {| title := "Car"; targetAmount := "5000";
                              deadline := "2026-01-01"; category := "Transport" |};
               alerts := [] |} in
  JS.parseFloat (targetAmount (formData st)) <> JS.NaN /\
  List.map id (savingsGoals (handleSubmit 1700000001000 st)) =
    ["1700000001000"; "1700000000000"] /\
  Forall amount_invariant (savingsGoals (handleSubmit 1700000001000 st)).
Proof.
  intros st.
  assert (Hn : JS.parseFloat (targetAmount (formData st)) <> JS.NaN)
    by (vm_compute; discriminate).
  split; [exact Hn|]. split; [reflexivity|].
  destruct (savings_form_outcome 1700000001000 st (or_intror Hn))
    as [(E & _) | (goal & E & _ & _ & _ & _ & _ & _ & _ & Hinv)].
  - exfalso. apply (f_equal (@length _)) in E. discriminate.
  - rewrite E. constructor; [exact Hinv|]. repeat constructor.
Defined.

End SavingsFormOutcome.

(** ** Identifiers and the sessions of the savings screen *)

Section Identifiers.
Import SavingsContext.







Import SavingsApp SavingsSpec.







End Identifiers.

(** ** One goal, one position *)

Section Positions.
Import SavingsContext.

Lemma unique_id_position (goals : list SavingsGoal) i j g g' :
  NoDup (List.map id goals) ->
  goals !! i = Some g -> goals !! j = Some g' -> id g' = id g -> i = j.
Proof.
  intros Hnd Hi Hj E.
  apply (NoDup_lookup (List.map id goals) i j (id g) Hnd).
  - change (@List.map) with (@fmap list _). now rewrite list_lookup_fmap, Hi.
  - change (@List.map) with (@fmap list _). now rewrite list_lookup_fmap, Hj, <- E.
Qed.

(** X8. when the ids of the store are unique, a contribution to the goal
    at a position replaces the goal at that position by its clamped copy
    and changes nothing else. *)
Theorem updateSavingsGoal_one_position (goals : list SavingsGoal) (i : nat)
    (g : SavingsGoal) (amount : number) :
  NoDup (List.map id goals) -> goals !! i = Some g ->
  updateSavingsGoal (id g) amount goals =
  <[i := with_currentAmount g
           (JS.Math_min (targetAmount g) (JS.add (currentAmount g) amount))]> goals.
Proof.
  intros Hnd Hi. apply list_eq. intros j.
  destruct (goals !! j) as [g'|] eqn:Hj.
  - unfold updateSavingsGoal. change (@List.map) with (@fmap list _).
    rewrite list_lookup_fmap, Hj. cbn [fmap option_fmap option_map].
    destruct (String.eqb_spec (id g') (id g)) as [E | Hne].
    + pose proof (unique_id_position _ _ _ _ _ Hnd Hi Hj E) as <-.
      rewrite list_lookup_insert_eq by (now apply lookup_lt_Some in Hi).
      congruence.
    + rewrite list_lookup_insert_ne; [now rewrite Hj|].
      intros <-. congruence.
  - pose proof Hj as Hlen. apply lookup_ge_None in Hlen.
    rewrite !lookup_ge_None_2; [reflexivity| |].
    + now rewrite length_insert.
    + unfold updateSavingsGoal. now rewrite length_map.
Qed.

Lemma updateSavingsGoal_one_position_witness :
  NoDup (List.map id [Samples.emergency_fund; Samples.vacation]) /\
  updateSavingsGoal "1700000000500" (JS.of_Z 20)
    [Samples.emergency_fund; Samples.vacation] =
  [Samples.emergency_fund; with_currentAmount Samples.vacation (JS.of_Z 20)].
Proof.
  assert (Hnd : NoDup (List.map id [Samples.emergency_fund; Samples.vacation])).
  { apply NoDup_cons_2; [|apply NoDup_singleton].
    intros H. apply list_elem_of_singleton in H. discriminate. }
  split; [exact Hnd|].
  exact (updateSavingsGoal_one_position
           [Samples.emergency_fund; Samples.vacation] 1 Samples.vacation
           (JS.of_Z 20) Hnd eq_refl).
Defined.

(** X9. when the ids of the store are unique, a confirmed delete of the
    goal at a position removes the goal at that position and nothing
    else: the list is one goal shorter and keeps its order. *)
Theorem deleteSavingsGoal_one_position (goals : list SavingsGoal) (i : nat)
    (g : SavingsGoal) :
  NoDup (List.map id goals) -> goals !! i = Some g ->
  deleteSavingsGoal (id g) Delete goals = delete i goals /\
  S (length (deleteSavingsGoal (id g) Delete goals)) = length goals.
Proof.
  intros Hnd Hi.
  assert (E : deleteSavingsGoal (id g) Delete goals = delete i goals).
  { cbn [deleteSavingsGoal]. revert i Hnd Hi.
    induction goals as [|g0 l IH]; intros i Hnd Hi; [discriminate|].
    cbn [List.map] in Hnd. apply NoDup_cons in Hnd as [Hfresh Hnd].
    destruct i as [|i]; cbn [List.filter].
    - injection Hi as ->. rewrite String.eqb_refl. cbn [negb].
      apply filter_all_true. apply Forall_forall. intros x Hx.
      apply negb_true_iff, String.eqb_neq. intros Ex. apply Hfresh.
      rewrite <- Ex. apply list_elem_of_In, in_map. now apply list_elem_of_In.
    - cbn in Hi. destruct (String.eqb_spec (id g0) (id g)) as [Ex | Hne].
      + exfalso. apply Hfresh. rewrite Ex.
        apply list_elem_of_In, in_map. apply list_elem_of_In.
        eapply list_elem_of_lookup_2. exact Hi.
      + cbn [negb]. cbn. f_equal. now apply IH. }
  split; [exact E|]. rewrite E, length_delete by (now exists g).
  apply lookup_lt_Some in Hi. lia.
Qed.

Lemma deleteSavingsGoal_one_position_witness :
  NoDup (List.map id [Samples.emergency_fund; Samples.vacation]) /\
  deleteSavingsGoal "1700000000000" Delete
    [Samples.emergency_fund; Samples.vacation] = [Samples.vacation].
Proof.
  assert (Hnd : NoDup (List.map id [Samples.emergency_fund; Samples.vacation])).
  { apply NoDup_cons_2; [|apply NoDup_singleton].
    intros H. apply list_elem_of_singleton in H. discriminate. }
  split; [exact Hnd|].
  exact (proj1 (deleteSavingsGoal_one_position
                  [Samples.emergency_fund; Samples.vacation] 0
                  Samples.emergency_fund Hnd eq_refl)).
Defined.

End Positions.

(** ** Sessions of the savings-goal provider *)

Section Sessions.
Import JS SavingsContext SavingsProvider SavingsSession.

(** [loadSavingsGoals] from any state. *)
Lemma load_run st :
  loadSavingsGoals st =
  (Returned tt,
   match storage st !! STORAGE_KEY with
   | Some text =>
       if JS.truthy text then
         match JS.JSON_parse text with
         | Some v =>
             {| savingsGoals := v; isLoading := false; storage := storage st;
                alerts := alerts st; console := console st |}
         | None =>
             {| savingsGoals := savingsGoals st; isLoading := false;
                storage := storage st;
                alerts := alerts st ++
                  [("Error", "Failed to load savings goals from storage")];
                console := console st ++
                  [("Error loading savings goals:", "SyntaxError")] |}
         end
       else
         {| savingsGoals := savingsGoals st; isLoading := false;
            storage := storage st; alerts := alerts st; console := console st |}
   | None =>
       {| savingsGoals := savingsGoals st; isLoading := false;
          storage := storage st; alerts := alerts st; console := console st |}
   end).
Proof.
  unfold loadSavingsGoals, try_finally, try_catch, bind, AsyncStorage_getItem.
  destruct (storage st !! STORAGE_KEY) as [text|]; [|reflexivity].
  destruct (JS.truthy text); [|reflexivity].
  unfold JSON_parse. destruct (JS.JSON_parse text); reflexivity.
Qed.

Lemma load_returns st :
  exists st',
    loadSavingsGoals st = (Returned tt, st') /\
    isLoading st' = false /\ storage st' = storage st.
Proof.
  eexists. split; [apply load_run|].
  destruct (storage st !! STORAGE_KEY) as [text|]; [|now split].
  destruct (JS.truthy text); [|now split].
  destruct (JS.JSON_parse text); now split.
Qed.

(** X10. [loadSavingsGoals] never writes to the storage, whatever state it
    starts from; it always returns and leaves [isLoading] false.  The
    list in memory is replaced only by a payload that parses, and then
    without a dialog; otherwise it is kept, and the only dialog that can
    be added is the one of a payload that does not parse. *)
Theorem loadSavingsGoals_frame (st : State) :
  exists st',
    loadSavingsGoals st = (Returned tt, st') /\
    isLoading st' = false /\
    storage st' = storage st /\
    ((savingsGoals st' = savingsGoals st /\
      (alerts st' = alerts st \/
       alerts st' = alerts st ++
         [("Error", "Failed to load savings goals from storage")])) \/
     (exists text,
        storage st !! STORAGE_KEY = Some text /\
        JS.JSON_parse text = Some (savingsGoals st') /\
        alerts st' = alerts st)).
Proof.
  eexists. split; [apply load_run|].
  destruct (storage st !! STORAGE_KEY) as [text|] eqn:Hs.
  - destruct (JS.truthy text).
    + destruct (JS.JSON_parse text) as [v|] eqn:Hp; cbn.
      * repeat split. right. exists text. now repeat split.
      * repeat split. left. split; [reflexivity|now right].
    + cbn. repeat split. left. split; [reflexivity|now left].
  - cbn. repeat split. left. split; [reflexivity|now left].
Qed.

Lemma save_effect_loaded st :
  isLoading st = false ->
  save_effect st =
  (Returned tt,
   {| savingsGoals := savingsGoals st; isLoading := false;
      storage := <[STORAGE_KEY := JSON_stringify (savingsGoals st)]> (storage st);
      alerts := alerts st; console := console st |}).
Proof.
  intros H. unfold save_effect. rewrite H, save_run, H. reflexivity.
Qed.

Lemma mount_run stored :
  mount (initial stored) =
  let st1 := snd (loadSavingsGoals (initial stored)) in
  (Returned tt,
   {| savingsGoals := savingsGoals st1; isLoading := false;
      storage := <[STORAGE_KEY := JSON_stringify (savingsGoals st1)]> stored;
      alerts := alerts st1; console := console st1 |}).
Proof.
  unfold mount, bind. cbn [save_effect initial isLoading ret].
  change ({| savingsGoals := VArr []; isLoading := true; storage := stored;
             alerts := []; console := [] |}) with (initial stored).
  destruct (load_returns (initial stored)) as (st1 & Hrun & Hl & Hs).
  rewrite Hrun. cbn [snd]. rewrite (save_effect_loaded _ Hl), Hs. reflexivity.
Qed.

(** X11. when the provider has mounted, the text under the storage key is
    the serialisation of the list in memory, whatever the storage held
    before: the save effect does not write while [isLoading] is true, and
    writes the list once [loadSavingsGoals] has completed.  No other key
    is touched. *)
Theorem mount_synchronises_storage (stored : gmap string string) :
  exists st',
    mount (initial stored) = (Returned tt, st') /\
    isLoading st' = false /\
    savingsGoals st' = savingsGoals (snd (loadSavingsGoals (initial stored))) /\
    storage st' !! STORAGE_KEY = Some (JSON_stringify (savingsGoals st')) /\
    (forall k, k <> STORAGE_KEY -> storage st' !! k = stored !! k) /\
    storage (snd (save_effect (initial stored))) = stored.
Proof.
  eexists. split; [apply mount_run|]. cbv zeta. cbn [isLoading savingsGoals storage].
  repeat split.
  - apply lookup_insert_eq.
  - intros k Hk. now apply lookup_insert_ne.
Qed.

Lemma mount_synchronises_storage_witness :
  let stored : gmap string string := {[ "theme" := "dark" ]} in
  "theme" <> STORAGE_KEY /\
  exists st',
    mount (initial stored) = (Returned tt, st') /\
    storage st' !! STORAGE_KEY = Some "[]" /\
    storage st' !! "theme" = Some "dark".
Proof.
  intros stored.
  assert (Hk : "theme" <> STORAGE_KEY) by discriminate.
  split; [exact Hk|].
  destruct (mount_synchronises_storage stored)
    as (st' & Hrun & _ & Hg & Hs & Hframe & _).
  exists st'. split; [exact Hrun|]. split.
  - rewrite Hs, Hg. reflexivity.
  - rewrite (Hframe _ Hk). apply lookup_singleton_eq.
Defined.

(** X12. a stored payload that [JSON.parse] rejects is lost at the start
    of the session: [loadSavingsGoals] leaves the list empty and the save
    effect that follows writes "[]" over the payload. *)
Theorem mount_overwrites_unreadable_payload (stored : gmap string string)
    (text : string) :
  stored !! STORAGE_KEY = Some text -> JS.JSON_parse text = None ->
  savingsGoals (snd (mount (initial stored))) = VArr [] /\
  storage (snd (mount (initial stored))) !! STORAGE_KEY = Some "[]".
Proof.
  intros Hs Hp. rewrite mount_run. cbv zeta. cbn [snd savingsGoals storage].
  rewrite lookup_insert_eq.
  assert (E : savingsGoals (snd (loadSavingsGoals (initial stored))) = VArr []).
  { rewrite load_run. cbn [snd initial storage]. rewrite Hs.
    destruct (JS.truthy text); [rewrite Hp|]; reflexivity. }
  rewrite E. split; reflexivity.
Qed.

Lemma mount_overwrites_unreadable_payload_witness :
  ({[STORAGE_KEY := Samples.broken_payload]} : gmap string string) !! STORAGE_KEY
    = Some Samples.broken_payload /\
  JS.JSON_parse Samples.broken_payload = None /\
  storage (snd (mount (initial {[STORAGE_KEY := Samples.broken_payload]})))
    !! STORAGE_KEY = Some "[]".
Proof.
  assert (Hs : ({[STORAGE_KEY := Samples.broken_payload]} : gmap string string)
                 !! STORAGE_KEY = Some Samples.broken_payload)
    by apply lookup_singleton_eq.
  assert (Hp : JS.JSON_parse Samples.broken_payload = None) by reflexivity.
  split; [exact Hs|]. split; [exact Hp|].
  exact (proj2 (mount_overwrites_unreadable_payload _ _ Hs Hp)).
Defined.

Lemma clearAllData_run st :
  clearAllData st =
  (Returned tt,
   {| savingsGoals := VArr []; isLoading := isLoading st;
      storage := delete STORAGE_KEY (storage st);
      alerts := alerts st ++ [("Success", "All savings goals cleared")];
      console := console st |}).
Proof. reflexivity. Qed.

(** X13. [clearAllData] removes the payload and empties the list in memory,
    whatever was stored, and shows the success dialog.  The next session
    starts with the empty list and no error dialog, whether or not the
    save effect has written the empty list back before the app was
    closed. *)
Theorem clearAllData_then_restart (st : State) :
  let st1 := snd (clearAllData st) in
  let st2 := snd (save_effect st1) in
  fst (clearAllData st) = Returned tt /\
  storage st1 !! STORAGE_KEY = None /\
  (forall k, k <> STORAGE_KEY -> storage st1 !! k = storage st !! k) /\
  savingsGoals st1 = VArr [] /\
  alerts st1 = alerts st ++ [("Success", "All savings goals cleared")] /\
  savingsGoals (snd (restart st1)) = VArr [] /\
  alerts (snd (restart st1)) = [] /\
  savingsGoals (snd (restart st2)) = VArr [] /\
  alerts (snd (restart st2)) = [].
Proof.
  cbv zeta. rewrite clearAllData_run. cbn [fst snd storage savingsGoals alerts].
  split; [reflexivity|].
  split; [apply lookup_delete_eq|].
  split; [intros k Hk; now apply lookup_delete_ne|].
  split; [reflexivity|]. split; [reflexivity|].
  assert (Hnone : forall stored : gmap string string,
            stored !! STORAGE_KEY = None ->
            savingsGoals (snd (restart {| savingsGoals := VArr [];
                                          isLoading := isLoading st;
                                          storage := stored;
                                          alerts := alerts st ++
                                            [("Success", "All savings goals cleared")];
                                          console := console st |})) = VArr [] /\
            alerts (snd (restart {| savingsGoals := VArr [];
                                    isLoading := isLoading st;
                                    storage := stored;
                                    alerts := alerts st ++
                                      [("Success", "All savings goals cleared")];
                                    console := console st |})) = []).
  { intros stored Hs. unfold restart. cbn [storage].
    rewrite mount_run. cbv zeta.
    rewrite (load_nothing stored (or_introl Hs)). now split. }
  destruct (Hnone _ (lookup_delete_eq (storage st) STORAGE_KEY)) as [H1 H2].
  split; [exact H1|]. split; [exact H2|].
  unfold save_effect. cbn [isLoading].
  destruct (isLoading st).
  - cbn [ret snd]. now split.
  - rewrite save_run. cbn [snd savingsGoals storage]. unfold restart.
    cbn [storage]. rewrite mount_run. cbv zeta.
    erewrite load_parsed;
      [ | apply lookup_insert_eq | reflexivity | reflexivity ].
    now split.
Qed.

Lemma clearAllData_then_restart_witness :
  let st := {| savingsGoals := goals_value [Samples.emergency_fund];
               isLoading := false;
               storage := {[ STORAGE_KEY := Samples.broken_payload;
                             "theme" := "dark" ]};
               alerts := []; console := [] |} in
  "theme" <> STORAGE_KEY /\
  storage (snd (clearAllData st)) !! "theme" = Some "dark" /\
  storage (snd (clearAllData st)) !! STORAGE_KEY = None /\
  savingsGoals (snd (restart (snd (clearAllData st)))) = VArr [].
Proof.
  intros st.
  assert (Hk : "theme" <> STORAGE_KEY) by discriminate.
  split; [exact Hk|].
  destruct (clearAllData_then_restart st)
    as (_ & Hnone & Hframe & _ & _ & Hgoals & _).
  split; [|split; [exact Hnone|exact Hgoals]].
  rewrite (Hframe _ Hk). reflexivity.
Defined.

(** X14. a contribution made on a card is there after a restart.  When the
    list has been loaded, the goals in memory have finite amounts and the
    text of the input is read as a finite number, the list that
    [handleAddMoney] leaves is written by the save effect, and the next
    session loads that very list, without a dialog, and writes the same
    text again. *)
Theorem contribution_survives_restart (goal : SavingsGoal)
    (card : SavingsGoalCard.State) (q : Q) (st : State) :
  isLoading st = false ->
  Forall storable (SavingsGoalCard.savingsGoals card) ->
  JS.parseFloat (SavingsGoalCard.addAmount card) = Fin q ->
  let goals' := SavingsGoalCard.savingsGoals
                  (SavingsGoalCard.handleAddMoney goal card) in
  let st1 := snd (commit goals' st) in
  savingsGoals st1 = goals_value goals' /\
  storage st1 !! STORAGE_KEY = Some (JSON_stringify (goals_value goals')) /\
  restart st1 =
  (Returned tt,
   {| savingsGoals := goals_value goals'; isLoading := false;
      storage := storage st1; alerts := []; console := [] |}).
Proof.
  intros Hl Hst Hq. cbv zeta.
  pose proof (handleAddMoney_storable goal card q Hq Hst) as Hst'.
  set (goals' := SavingsGoalCard.savingsGoals
                   (SavingsGoalCard.handleAddMoney goal card)) in *.
  unfold commit, bind, setSavingsGoals.
  rewrite save_effect_loaded by exact Hl.
  cbn [snd savingsGoals storage alerts console].
  split; [reflexivity|]. split; [apply lookup_insert_eq|].
  unfold restart. cbn [storage]. rewrite mount_run. cbv zeta.
  erewrite load_parsed;
    [ | apply lookup_insert_eq | apply stringify_goals_truthy
      | now apply JSON_parse_stringify_goals ].
  cbn [snd savingsGoals alerts console].
  now rewrite insert_insert_eq.
Qed.

Lemma contribution_survives_restart_witness :
  let card := {| SavingsGoalCard.savingsGoals :=
                   [Samples.emergency_fund; Samples.vacation];
                 SavingsGoalCard.addAmount := "99.5";
                 SavingsGoalCard.alerts := [] |} in
  let st := {| savingsGoals := goals_value [Samples.emergency_fund; Samples.vacation];
               isLoading := false; storage := ∅; alerts := []; console := [] |} in
  let goals' := SavingsGoalCard.savingsGoals
                  (SavingsGoalCard.handleAddMoney Samples.vacation card) in
  Forall storable (SavingsGoalCard.savingsGoals card) /\
  JS.parseFloat (SavingsGoalCard.addAmount card) = Fin (199 # 2) /\
  List.map currentAmount goals' = [JS.of_Z 250; Fin (199 # 2)] /\
  savingsGoals (snd (restart (snd (commit goals' st)))) = goals_value goals'.
Proof.
  intros card st goals'.
  assert (Hst : Forall storable (SavingsGoalCard.savingsGoals card)).
  { repeat constructor. }
  assert (Hq : JS.parseFloat (SavingsGoalCard.addAmount card) = Fin (199 # 2))
    by reflexivity.
  split; [exact Hst|]. split; [exact Hq|]. split; [reflexivity|].
  destruct (contribution_survives_restart Samples.vacation card (199 # 2) st
              eq_refl Hst Hq) as (_ & _ & H).
  fold goals' in H. now rewrite H.
Defined.

End Sessions.

(** ** The transaction store and its form *)

Section TransactionStore.
Import TransactionContext.

Lemma deleteTransaction_In id0 prev t :
  In t (deleteTransaction id0 prev) <-> In t prev /\ id t <> id0.
Proof.
  unfold deleteTransaction. rewrite filter_In, negb_true_iff, String.eqb_neq.
  reflexivity.
Qed.

(** X15. [deleteTransaction] removes every transaction with the id and
    nothing else: what is left are the transactions with another id, in
    the order they had; unique ids stay unique; and two deletes give the
    same list in either order. *)
Theorem deleteTransaction_removes_exactly (id0 id1 : string)
    (prev : list Transaction) :
  (forall t, In t (deleteTransaction id0 prev) <-> In t prev /\ id t <> id0) /\
  sublist (deleteTransaction id0 prev) prev /\
  (NoDup (List.map id prev) -> NoDup (List.map id (deleteTransaction id0 prev))) /\
  deleteTransaction id0 (deleteTransaction id1 prev) =
    deleteTransaction id1 (deleteTransaction id0 prev).
Proof.
  split; [intros t; apply deleteTransaction_In|].
  split; [|split].
  - unfold deleteTransaction.
    induction prev as [|t l IH]; cbn [List.filter]; [constructor|].
    destruct (negb _); now constructor.
  - unfold deleteTransaction.
    induction prev as [|t l IH]; cbn [List.filter List.map]; [trivial|].
    intros Hnd. apply NoDup_cons in Hnd as [Hfresh Hnd].
    destruct (negb _); [|now apply IH].
    cbn [List.map]. apply NoDup_cons_2; [|now apply IH].
    intros Hin. apply Hfresh.
    apply list_elem_of_In, in_map_iff in Hin as (t0 & E & Hin).
    apply filter_In in Hin as [Hin _].
    rewrite <- E. apply list_elem_of_In, in_map. exact Hin.
  - unfold deleteTransaction.
    induction prev as [|t l IH]; cbn [List.filter]; [reflexivity|].
    destruct (negb (String.eqb (id t) id1)) eqn:E1,
             (negb (String.eqb (id t) id0)) eqn:E0;
      cbn [List.filter]; rewrite ?E1, ?E0, IH; reflexivity.
Qed.

Lemma deleteTransaction_removes_exactly_witness :
  NoDup (List.map id [Samples.coffee "Food"; Samples.salary "Salary"]) /\
  NoDup (List.map id (deleteTransaction "1"
                        [Samples.coffee "Food"; Samples.salary "Salary"])) /\
  deleteTransaction "1" [Samples.coffee "Food"; Samples.salary "Salary"] =
    [Samples.salary "Salary"].
Proof.
  assert (Hnd : NoDup (List.map id [Samples.coffee "Food"; Samples.salary "Salary"])).
  { apply NoDup_cons_2; [|apply NoDup_singleton].
    intros H. apply list_elem_of_singleton in H. discriminate. }
  split; [exact Hnd|].
  destruct (deleteTransaction_removes_exactly "1" "2"
              [Samples.coffee "Food"; Samples.salary "Salary"]) as (_ & _ & H & _).
  split; [exact (H Hnd)|reflexivity].
Defined.

(** X16. a transaction that was added is removed again by a delete of its
    id, together with every older transaction of that id; when the id is
    new to the store, the delete gives back the store as it was before
    the transaction was added, and the ids stay unique. *)
Theorem addTransaction_then_delete (tx : Transaction) (prev : list Transaction) :
  deleteTransaction (id tx) (addTransaction tx prev) =
    deleteTransaction (id tx) prev /\
  (Forall (fun t => id t <> id tx) prev ->
   deleteTransaction (id tx) (addTransaction tx prev) = prev /\
   (NoDup (List.map id prev) ->
    NoDup (List.map id (addTransaction tx prev)))).
Proof.
  assert (E : deleteTransaction (id tx) (addTransaction tx prev) =
              deleteTransaction (id tx) prev).
  { unfold deleteTransaction, addTransaction. cbn [List.filter].
    now rewrite String.eqb_refl. }
  split; [exact E|]. intros Hnew. split.
  - rewrite E. unfold deleteTransaction. apply filter_all_true.
    eapply Forall_impl; [exact Hnew|].
    intros t Ht. now apply negb_true_iff, String.eqb_neq.
  - intros Hnd. unfold addTransaction. cbn [List.map].
    apply NoDup_cons_2; [|exact Hnd].
    intros Hin. apply list_elem_of_In, in_map_iff in Hin as (t & Et & Hin).
    rewrite Forall_forall in Hnew. apply (Hnew t); [|exact Et].
    now apply list_elem_of_In.
Qed.

Lemma addTransaction_then_delete_witness :
  Forall (fun t => id t <> id (Samples.coffee "Food")) [Samples.salary "Salary"] /\
  deleteTransaction "1"
    (addTransaction (Samples.coffee "Food") [Samples.salary "Salary"]) =
    [Samples.salary "Salary"].
Proof.
  assert (Hnew : Forall (fun t => id t <> id (Samples.coffee "Food"))
                   [Samples.salary "Salary"]).
  { repeat constructor. discriminate. }
  split; [exact Hnew|].
  exact (proj1 (proj2 (addTransaction_then_delete (Samples.coffee "Food")
                         [Samples.salary "Salary"]) Hnew)).
Defined.

End TransactionStore.

Section TransactionForm.
Import TransactionContext AddExpenseScreen.

Lemma trimEnd_idempotent s : JS.trimEnd (JS.trimEnd s) = JS.trimEnd s.
Proof.
  induction s as [|c r IH]; [reflexivity|].
  cbn [JS.trimEnd].
  destruct (JS.is_space c && String.eqb (JS.trimEnd r) "") eqn:E; [reflexivity|].
  cbn [JS.trimEnd]. now rewrite IH, E.
Qed.

Lemma trimStart_head s :
  match JS.trimStart s with
  | String c _ => JS.is_space c = false
  | EmptyString => True
  end.
Proof.
  induction s as [|c r IH]; [exact I|].
  cbn [JS.trimStart]. destruct (JS.is_space c) eqn:E; [exact IH|exact E].
Qed.

Lemma trim_idempotent s : JS.trim (JS.trim s) = JS.trim s.
Proof.
  unfold JS.trim. pose proof (trimStart_head s) as H.
  destruct (JS.trimStart s) as [|c r]; [reflexivity|].
  cbn [JS.trimEnd]. rewrite H. cbn [andb JS.trimStart]. rewrite H.
  cbn [JS.trimEnd]. rewrite H. cbn [andb]. now rewrite trimEnd_idempotent.
Qed.

(** X17. [handleSubmit] of the transaction form either rejects the input
    with an error dialog and leaves the transactions as they are, or puts
    one transaction in front of them whose amount is the number read from
    the amount text and strictly positive (so neither [NaN] nor zero nor
    negative), and whose title is the trimmed title text and not empty.
    Positive amounts in the store stay positive. *)
Theorem transaction_form_outcome (uuid today : string) (st : State) :
  let st' := handleSubmit uuid today st in
  ((transactions st' = transactions st /\
    exists m, alerts st' = alerts st ++ [("Error", m)]) \/
   (exists tx,
      transactions st' = tx :: transactions st /\
      TransactionContext.id tx = uuid /\
      TransactionContext.amount tx = JS.parseFloat (amount st) /\
      JS.lt (JS.of_Z 0) (TransactionContext.amount tx) = true /\
      TransactionContext.title tx = JS.trim (title st) /\
      TransactionContext.title tx <> "" /\
      JS.trim (TransactionContext.title tx) = TransactionContext.title tx /\
      TransactionContext.type tx = type st /\
      TransactionContext.category tx = category st /\
      TransactionContext.date tx = today)) /\
  (Forall (fun t => JS.lt (JS.of_Z 0) (TransactionContext.amount t) = true)
     (transactions st) ->
   Forall (fun t => JS.lt (JS.of_Z 0) (TransactionContext.amount t) = true)
     (transactions st')).
Proof.
  cbv zeta. unfold handleSubmit.
  destruct (negb (JS.truthy (JS.trim (title st)))) eqn:Ht.
  { split; [left; split; [reflexivity|now eexists] | now intros H]. }
  destruct (negb (JS.truthy (amount st))
            || JS.isNaN (JS.parseFloat (amount st))
            || JS.le (JS.parseFloat (amount st)) (JS.of_Z 0)) eqn:Ha.
  { split; [left; split; [reflexivity|now eexists] | now intros H]. }
  apply orb_false_iff in Ha as [Ha Hle]. apply orb_false_iff in Ha as [_ Hnan].
  assert (Hpos : JS.lt (JS.of_Z 0) (JS.parseFloat (amount st)) = true).
  { destruct (JS.parseFloat (amount st)) as [| | |q]; cbn in *;
      try discriminate; try reflexivity. now rewrite Hle. }
  apply negb_false_iff, truthy_iff in Ht.
  cbn [transactions alerts]. unfold addTransaction. split.
  - right. eexists. split; [reflexivity|].
    cbn. repeat split; try assumption. apply trim_idempotent.
  - intros H. constructor; [exact Hpos|exact H].
Qed.

Lemma transaction_form_outcome_witness :
  let st := {| transactions := [Samples.salary "Salary"]; title := "  Coffee ";
               amount := "4.50"; type := expense; category := "Food";
               alerts := [] |} in
  Forall (fun t => JS.lt (JS.of_Z 0) (TransactionContext.amount t) = true)
    (transactions st) /\
  Forall (fun t => JS.lt (JS.of_Z 0) (TransactionContext.amount t) = true)
    (transactions (handleSubmit "uuid-1" "1/2/2024" st)) /\
  List.map TransactionContext.title
    (transactions (handleSubmit "uuid-1" "1/2/2024" st)) = ["Coffee"; "Salary"].
Proof.
  intros st.
  assert (H : Forall (fun t => JS.lt (JS.of_Z 0) (TransactionContext.amount t) = true)
                (transactions st)) by (repeat constructor).
  split; [exact H|].
  split; [exact (proj2 (transaction_form_outcome "uuid-1" "1/2/2024" st) H)|].
  reflexivity.
Defined.

End TransactionForm.

(** ** Sessions of the transaction screens *)

Section TransactionSessions.
Import TransactionContext AddExpenseScreen TransactionApp.

Lemma step_well_formed (st : State) (e : Event) :
  match e with
  | PickCategory value => In value (categoryOptions (type st))
  | _ => True
  end ->
  Forall well_formed (transactions st) ->
  In (category st) (categoryOptions (type st)) ->
  Forall well_formed (transactions (step st e)) /\
  In (category (step st e)) (categoryOptions (type (step st e))).
Proof.
  intros Hoff Hwf Hcat.
  destruct e as [| | | text | text | value | uuid today | id0 title0 pressed];
    cbn [step transactions category type].
  - split; [exact Hwf|]. now left.
  - split; [exact Hwf|]. now left.
  - split; [exact Hwf|]. now left.
  - now split.
  - now split.
  - now split.
  - unfold handleSubmit.
    destruct (negb (JS.truthy (JS.trim (title st)))) eqn:Ht; [now split|].
    destruct (negb (JS.truthy (amount st))
              || JS.isNaN (JS.parseFloat (amount st))
              || JS.le (JS.parseFloat (amount st)) (JS.of_Z 0)) eqn:Ha;
      [now split|].
    cbn [transactions category type]. split; [|exact Hcat].
    apply orb_false_iff in Ha as [Ha Hle]. apply orb_false_iff in Ha as [_ Hnan].
    apply negb_false_iff, truthy_iff in Ht.
    constructor; [|exact Hwf].
    split; [|split; [exact Ht|exact Hcat]].
    cbn [TransactionContext.amount].
    destruct (JS.parseFloat (amount st)) as [| | |q]; cbn in *;
      try discriminate; try reflexivity. now rewrite Hle.
  - unfold handleDelete.
    destruct pressed; cbn [alert transactions category type]; [now split|].
    split; [|exact Hcat]. now apply Forall_filter_list.
Qed.

(** X18. along a session of the transaction screens (mounting the form,
    the type toggle, typing, picking one of the categories that the
    picker offers for the selected type, submitting, deleting) the
    category of the form is always one of the options of its type, and
    every transaction of the store has a strictly positive amount, a
    title that is not empty and a category from the options of its own
    type. *)
Theorem transaction_session_invariant (events : list Event) (st : State) :
  Forall well_formed (transactions st) ->
  In (category st) (categoryOptions (type st)) ->
  offered events st ->
  Forall well_formed (transactions (run events st)) /\
  In (category (run events st)) (categoryOptions (type (run events st))).
Proof.
  revert st. induction events as [|e events IH]; intros st Hwf Hcat Hoff;
    [now split|].
  destruct Hoff as [He Hoff].
  destruct (step_well_formed st e He Hwf Hcat) as [Hwf' Hcat'].
  cbn [run List.fold_left]. now apply IH.
Qed.

Lemma transaction_session_invariant_witness :
  let events := [ ChangeTitle " Pay day "; ChangeAmount "1200"; PressIncome;
                  PickCategory "Bonus"; PressSubmit "uuid-1" "1/2/2024";
                  Mount; ChangeTitle "Bus"; ChangeAmount "2.40";
                  PickCategory "Transport"; PressSubmit "uuid-2" "1/3/2024";
                  PressDelete "uuid-9" "Lunch" SavingsContext.Delete ] in
  offered events start /\
  Forall well_formed (transactions (run events start)) /\
  List.map (fun t => (TransactionContext.title t, TransactionContext.category t))
    (transactions (run events start)) = [("Bus", "Transport"); ("Pay day", "Bonus")].
Proof.
  intros events.
  assert (Hoff : offered events start).
  { cbn. repeat split; auto 20. }
  split; [exact Hoff|].
  split; [|reflexivity].
  apply (transaction_session_invariant events start); [constructor|now left|exact Hoff].
Defined.

End TransactionSessions.

(** ** What the derived views leave of the heap *)

Section Frames.
Import TransactionContext ExpensesScreen QuerySpec.

(** A run of [processedTransactions] allocates arrays and writes to no
    array but, at most, the one of the store. *)
Lemma processedTransactions_heap getTime toLowerCase (h : Heap.heap Transaction) r ts q f s :
  h !! r = Some ts ->
  exists r' h',
    processedTransactions getTime toLowerCase r q f s h = Some (r', h') /\
    forall r0 a, r0 <> r -> h !! r0 = Some a -> h' !! r0 = Some a.
Proof.
  intros H.
  unfold processedTransactions.
  destruct (JS.truthy q).
  - unfold Heap.bind at 1. rewrite (Array_filter_run _ _ _ _ H).
    destruct f.
    + unfold Heap.bind at 1. unfold Heap.ret at 1. unfold Heap.bind at 1.
      rewrite (Array_sort_run _ _ _ _ (lookup_alloc_new _ _)).
      unfold Heap.ret. eexists. eexists. split; [reflexivity|].
      intros r0 a Hne Hr0. pose proof (lookup_lt_Some _ _ _ Hr0).
      rewrite list_lookup_insert_ne by lia. now apply lookup_alloc_old.
    + rewrite (Array_filter_sort_run _ _ _ _ _ (lookup_alloc_new _ _)).
      eexists. eexists. split; [reflexivity|].
      intros r0 a Hne Hr0. now do 2 apply lookup_alloc_old.
    + rewrite (Array_filter_sort_run _ _ _ _ _ (lookup_alloc_new _ _)).
      eexists. eexists. split; [reflexivity|].
      intros r0 a Hne Hr0. now do 2 apply lookup_alloc_old.
  - unfold Heap.bind at 1. unfold Heap.ret at 1.
    destruct f.
    + unfold Heap.bind at 1. unfold Heap.ret at 1. unfold Heap.bind at 1.
      rewrite (Array_sort_run _ _ _ _ H).
      unfold Heap.ret. eexists. eexists. split; [reflexivity|].
      intros r0 a Hne Hr0. rewrite list_lookup_insert_ne by congruence. exact Hr0.
    + rewrite (Array_filter_sort_run _ _ _ _ _ H).
      eexists. eexists. split; [reflexivity|].
      intros r0 a Hne Hr0. now apply lookup_alloc_old.
    + rewrite (Array_filter_sort_run _ _ _ _ _ H).
      eexists. eexists. split; [reflexivity|].
      intros r0 a Hne Hr0. now apply lookup_alloc_old.
Qed.

Lemma filter_In_length {A} (p : A -> bool) (l : list A) :
  (forall x, In x (List.filter p l) -> In x l) /\
  (length (List.filter p l) <= length l)%nat.
Proof.
  split.
  - intros x Hx. now apply filter_In in Hx.
  - apply List.filter_length_le.
Qed.

(** X19. a run of [processedTransactions] neither drops nor invents a
    transaction.  What the store holds afterwards is a rearrangement of
    what it held; every displayed transaction is one of the store, and
    the display list is no longer than the stored one; and every other
    array of the heap is as it was. *)
Theorem processedTransactions_loses_nothing (getTime : string -> number)
    (toLowerCase : string -> string)
    (h : Heap.heap Transaction) (r : Heap.ref) (ts : list Transaction)
    (q : string) (f : FilterType.t) (s : SortType) :
  h !! r = Some ts ->
  exists r' h' out stored,
    processedTransactions getTime toLowerCase r q f s h = Some (r', h') /\
    h' !! r' = Some out /\ h' !! r = Some stored /\
    Permutation stored ts /\
    (forall t, In t out -> In t ts) /\
    (length out <= length ts)%nat /\
    (forall r0 a, r0 <> r -> h !! r0 = Some a -> h' !! r0 = Some a).
Proof.
  intros H.
  destruct (processedTransactions_result getTime toLowerCase h r ts q f s H)
    as (r' & h' & Hrun & Hd & Hs).
  destruct (processedTransactions_heap getTime toLowerCase h r ts q f s H)
    as (r2 & h2 & Hrun2 & Hframe).
  rewrite Hrun in Hrun2. injection Hrun2 as <- <-.
  exists r', h', (pipeline getTime toLowerCase q f s ts),
    (if sorts_store_array q f then pipeline getTime toLowerCase q f s ts else ts).
  split; [exact Hrun|]. split; [exact Hd|]. split; [exact Hs|].
  destruct (search_stage_filter toLowerCase q ts) as (p1 & _ & E1).
  destruct (type_stage_filter f (search_stage toLowerCase q ts)) as (p2 & _ & E2).
  assert (Hperm : Permutation (pipeline getTime toLowerCase q f s ts)
                    (List.filter p2 (List.filter p1 ts))).
  { unfold pipeline. rewrite E2, E1. apply stable_sort_perm. }
  split; [|split; [|split; [|exact Hframe]]].
  - unfold sorts_store_array, pipeline, type_stage, search_stage.
    destruct (JS.truthy q); cbn [negb andb]; [reflexivity|].
    destruct f; cbn; [apply stable_sort_perm|reflexivity|reflexivity].
  - intros t Ht. apply (Permutation_in _ Hperm) in Ht.
    now apply filter_In_length, filter_In_length in Ht.
  - rewrite (Permutation_length Hperm).
    etransitivity; [apply filter_In_length|apply filter_In_length].
Qed.

Lemma processedTransactions_loses_nothing_witness :
  [[Samples.coffee "Food"; Samples.salary "Salary"]] !! 0%nat =
    Some [Samples.coffee "Food"; Samples.salary "Salary"] /\
  exists r' h' out stored,
    processedTransactions JS.iso_date_getTime JS.toLowerCase 0%nat "" FilterType.all highest
      [[Samples.coffee "Food"; Samples.salary "Salary"]] = Some (r', h') /\
    h' !! r' = Some out /\ h' !! 0%nat = Some stored /\
    Permutation stored [Samples.coffee "Food"; Samples.salary "Salary"] /\
    (length out <= 2)%nat.
Proof.
  split; [reflexivity|].
  destruct (processedTransactions_loses_nothing JS.iso_date_getTime JS.toLowerCase
              [[Samples.coffee "Food"; Samples.salary "Salary"]] 0
              [Samples.coffee "Food"; Samples.salary "Salary"] ""
              FilterType.all highest eq_refl)
    as (r' & h' & out & stored & Hrun & Hd & Hs & Hp & _ & Hl & _).
  exists r', h', out, stored. now repeat split.
Defined.

(** The comparators never put both of two transactions after the
    other. *)
Lemma compare_antisym getTime s a b :
  JS.lt (JS.of_Z 0) (compare getTime s a b) = true ->
  JS.lt (JS.of_Z 0) (compare getTime s b a) = false.
Proof.
  assert (Hsub : forall x y, JS.lt (JS.of_Z 0) (JS.sub x y) = true ->
                             JS.lt (JS.of_Z 0) (JS.sub y x) = false).
  { intros x y. destruct x as [| | |p], y as [| | |p']; cbn; try congruence.
    rewrite !negb_true_iff, !negb_false_iff. intros Hlt.
    apply not_true_iff_false in Hlt. apply Qle_bool_iff.
    rewrite Qred_correct. unfold inject_Z.
    assert (~ (p - p' <= 0)%Q).
    { intros Hle. apply Hlt. apply Qle_bool_iff. rewrite Qred_correct.
      unfold inject_Z. exact Hle. }
    lra. }
  destruct s; cbn [compare]; apply Hsub.
Qed.

Lemma stable_sort_fixpoint {T} (cmp : T -> T -> number) (l : list T) :
  Sorted (fun x y => JS.lt (JS.of_Z 0) (cmp x y) = false) l ->
  Heap.stable_sort cmp l = l.
Proof.
  induction 1 as [|x l Hs IH Hhd]; [reflexivity|].
  cbn [Heap.stable_sort List.fold_right]. fold (Heap.stable_sort cmp l).
  rewrite IH. destruct Hhd as [|y l Hxy]; [reflexivity|].
  cbn [Heap.insert_sorted]. now rewrite Hxy.
Qed.

Lemma stable_sort_idempotent getTime s (l : list Transaction) :
  Heap.stable_sort (compare getTime s) (Heap.stable_sort (compare getTime s) l) =
  Heap.stable_sort (compare getTime s) l.
Proof.
  apply stable_sort_fixpoint.
  apply (stable_sort_Sorted (compare getTime s) _ (fun _ => True)).
  - intros x y _ _ Hxy. exact Hxy.
  - intros x y _ _ Hxy. now apply compare_antisym.
  - now apply Forall_forall.
Qed.

(** X20. when no sort key of the stored transactions is [NaN],
    computing the display list again with the same query gives the same
    display list and leaves the store as the first run left it: the
    reordering of the store by the in-place sort happens once. *)
Theorem processedTransactions_rerun (getTime : string -> number)
    (toLowerCase : string -> string)
    (h : Heap.heap Transaction) (r : Heap.ref) (ts : list Transaction)
    (q : string) (f : FilterType.t) (s : SortType) :
  h !! r = Some ts ->
  Forall (fun t => sort_key getTime s t <> JS.NaN) ts ->
  exists r1 h1 r2 h2 out,
    processedTransactions getTime toLowerCase r q f s h = Some (r1, h1) /\
    processedTransactions getTime toLowerCase r q f s h1 = Some (r2, h2) /\
    h1 !! r1 = Some out /\ h2 !! r2 = Some out /\
    h2 !! r = h1 !! r.
Proof.
  intros H _.
  destruct (processedTransactions_result getTime toLowerCase h r ts q f s H)
    as (r1 & h1 & Hrun1 & Hd1 & Hs1).
  destruct (processedTransactions_result getTime toLowerCase h1 r _ q f s Hs1)
    as (r2 & h2 & Hrun2 & Hd2 & Hs2).
  exists r1, h1, r2, h2, (pipeline getTime toLowerCase q f s ts).
  split; [exact Hrun1|]. split; [exact Hrun2|]. split; [exact Hd1|].
  rewrite Hd2, Hs2, Hs1.
  unfold sorts_store_array, pipeline, type_stage, search_stage.
  destruct (JS.truthy q); cbn [negb andb]; [now split|].
  destruct f; cbn [andb]; [|now split|now split].
  now rewrite !stable_sort_idempotent.
Qed.

Lemma processedTransactions_rerun_witness :
  let ts := [Samples.coffee "Food"; Samples.salary "Salary"] in
  [ts] !! 0%nat = Some ts /\
  Forall (fun t => sort_key JS.iso_date_getTime highest t <> JS.NaN) ts /\
  exists r1 h1 r2 h2 out,
    processedTransactions JS.iso_date_getTime JS.toLowerCase 0%nat ""
      FilterType.all highest [ts] = Some (r1, h1) /\
    processedTransactions JS.iso_date_getTime JS.toLowerCase 0%nat ""
      FilterType.all highest h1 = Some (r2, h2) /\
    h1 !! r1 = Some out /\ h2 !! r2 = Some out /\ h2 !! 0%nat = h1 !! 0%nat.
Proof.
  intros ts.
  assert (Hok : Forall (fun t => sort_key JS.iso_date_getTime highest t <> JS.NaN) ts).
  { repeat constructor; discriminate. }
  split; [reflexivity|]. split; [exact Hok|].
  exact (processedTransactions_rerun JS.iso_date_getTime JS.toLowerCase
           [ts] 0 ts "" FilterType.all highest eq_refl Hok).
Defined.

(** X21. [analytics] writes to no array: it allocates the two arrays of
    its filters behind the arrays that exist, and each of those, the
    array of the store included, holds afterwards what it held. *)
Theorem analytics_writes_nothing (h : Heap.heap Transaction) (r : Heap.ref)
    (ts : list Transaction) :
  h !! r = Some ts ->
  exists a h',
    analytics r h = Some (a, h') /\
    length h' = (length h + 2)%nat /\
    (forall r0 l, h !! r0 = Some l -> h' !! r0 = Some l) /\
    (forall l, In l (drop (length h) h') ->
               forall t, In t l -> In t ts).
Proof.
  intros H. eexists. eexists. split; [apply (analytics_run h r ts H)|].
  split; [rewrite !length_app; cbn; lia|]. split.
  - intros r0 l Hl. rewrite app_assoc. now do 2 apply lookup_alloc_old.
  - intros l Hl t Ht. rewrite drop_app_length in Hl.
    destruct Hl as [<- | [<- | []]]; now apply filter_In in Ht.
Qed.

Lemma analytics_writes_nothing_witness :
  [Samples.analytics_example] !! 0%nat = Some Samples.analytics_example /\
  exists a h',
    analytics 0%nat [Samples.analytics_example] = Some (a, h') /\
    length h' = 3%nat /\ h' !! 0%nat = Some Samples.analytics_example.
Proof.
  split; [reflexivity|].
  destruct (analytics_writes_nothing [Samples.analytics_example] 0
              Samples.analytics_example eq_refl) as (a & h' & Hrun & Hl & Hf & _).
  exists a, h'. split; [exact Hrun|]. split; [exact Hl|]. now apply Hf.
Defined.

(** X22. the header "N of M" of the list never shows more displayed
    transactions than stored ones.  When the screen computes the display
    list and then the analytics, the display list is still there after
    [analytics] ran, its length N is at most the [transactionCount] M,
    which is the number of stored transactions also when the sort has
    reordered the store, and N is M when there is neither a query nor a
    type filter. *)
Theorem list_header_counts (getTime : string -> number)
    (toLowerCase : string -> string)
    (h : Heap.heap Transaction) (r : Heap.ref) (ts : list Transaction)
    (q : string) (f : FilterType.t) (s : SortType) :
  h !! r = Some ts ->
  exists r' h1 a h2 out,
    processedTransactions getTime toLowerCase r q f s h = Some (r', h1) /\
    analytics r h1 = Some (a, h2) /\
    h2 !! r' = Some out /\
    (length out <= transactionCount a)%nat /\
    transactionCount a = length ts /\
    (sorts_store_array q f = true -> length out = transactionCount a).
Proof.
  intros H.
  destruct (processedTransactions_result getTime toLowerCase h r ts q f s H)
    as (r' & h1 & Hrun & Hd & Hs).
  pose proof (analytics_run h1 r _ Hs) as Ha.
  eexists r', h1, _, _, (pipeline getTime toLowerCase q f s ts).
  split; [exact Hrun|]. split; [exact Ha|].
  split; [rewrite app_assoc; now do 2 apply lookup_alloc_old|].
  cbn [transactionCount].
  destruct (search_stage_filter toLowerCase q ts) as (p1 & _ & E1).
  destruct (type_stage_filter f (search_stage toLowerCase q ts)) as (p2 & _ & E2).
  assert (Hlen : length (pipeline getTime toLowerCase q f s ts) =
                 length (type_stage f (search_stage toLowerCase q ts))).
  { unfold pipeline. apply Permutation_length, stable_sort_perm. }
  assert (Hstored : length (if sorts_store_array q f
                            then pipeline getTime toLowerCase q f s ts else ts) = length ts).
  { destruct (sorts_store_array q f) eqn:E; [|reflexivity].
    rewrite Hlen. unfold sorts_store_array in E.
    apply andb_true_iff in E as [Eq Ef]. apply negb_true_iff in Eq.
    unfold search_stage, type_stage. rewrite Eq. now destruct f. }
  rewrite Hstored. split; [|split; [reflexivity|]].
  - rewrite Hlen, E2, E1.
    etransitivity; [apply filter_In_length|apply filter_In_length].
  - intros E. rewrite E in Hstored. exact Hstored.
Qed.

Lemma list_header_counts_witness :
  [[Samples.coffee "Food"; Samples.salary "Salary"]] !! 0%nat =
    Some [Samples.coffee "Food"; Samples.salary "Salary"] /\
  exists r' h1 a h2 out,
    processedTransactions JS.iso_date_getTime JS.toLowerCase 0%nat "cof" FilterType.all newest
      [[Samples.coffee "Food"; Samples.salary "Salary"]] = Some (r', h1) /\
    analytics 0%nat h1 = Some (a, h2) /\
    h2 !! r' = Some out /\
    (length out <= transactionCount a)%nat /\
    transactionCount a = 2%nat.
Proof.
  split; [reflexivity|].
  destruct (list_header_counts JS.iso_date_getTime JS.toLowerCase
              [[Samples.coffee "Food"; Samples.salary "Salary"]] 0
              [Samples.coffee "Food"; Samples.salary "Salary"] "cof"
              FilterType.all newest eq_refl)
    as (r' & h1 & a & h2 & out & Hrun & Ha & Hd & Hle & Hc & _).
  exists r', h1, a, h2, out. now repeat split.
Defined.

End Frames.

(** ** Signing in and the routes *)

Section Routes.
Import AuthContext.

(** The users that [find] retrieves from the table. *)
Lemma find_user name :
  List.find (fun u => String.eqb (username u) name) DUMMY_USERS =
  if String.eqb "user1" name
  then Some {| username := "user1"; role := Role.user |}
  else if String.eqb "admin1" name
       then Some {| username := "admin1"; role := Role.admin |}
       else None.
Proof. reflexivity. Qed.

Lemma login_run name password user :
  login name password user =
  if String.eqb "user1" name && String.eqb "1234" password
  then (JS.VObj [("success", JS.VBool true)],
        Some {| username := "user1"; role := Role.user |})
  else if String.eqb "admin1" name && String.eqb "admin123" password
       then (JS.VObj [("success", JS.VBool true)],
             Some {| username := "admin1"; role := Role.admin |})
       else (JS.VObj [("success", JS.VBool false);
                      ("message", JS.VStr "Invalid credentials")], user).
Proof.
  unfold login. rewrite find_user.
  destruct (String.eqb_spec "user1" name) as [<- | Hu].
  - cbn. destruct (String.eqb "1234" password); reflexivity.
  - destruct (String.eqb_spec "admin1" name) as [<- | Ha]; [|reflexivity].
    cbn. destruct (String.eqb "admin123" password); reflexivity.
Qed.

Lemma snoc_neq {A} (l : list A) x : l ++ [x] <> l.
Proof.
  intros H. apply (f_equal (@length A)) in H.
  rewrite length_app in H. simpl in H. lia.
Qed.

(** X23. [login] succeeds for the two pairs of the tables and for nothing
    else; a success puts the user of the table into the session, with
    the role of the table, and a failure keeps the session as it is and
    carries the message "Invalid credentials". *)
Theorem login_succeeds_iff (name password : string) (user : option User) :
  let result := Some (fst (login name password user)) in
  let user' := snd (login name password user) in
  (JSObject.truthy (JSObject.get result "success") = true <->
   (name = "user1" /\ password = "1234") \/
   (name = "admin1" /\ password = "admin123")) /\
  (JSObject.truthy (JSObject.get result "success") = true ->
   exists u, user' = Some u /\ In u DUMMY_USERS /\ username u = name) /\
  (JSObject.truthy (JSObject.get result "success") = false ->
   user' = user /\
   JSObject.get result "message" = Some (JS.VStr "Invalid credentials")).
Proof.
  cbv zeta. rewrite login_run.
  destruct (String.eqb_spec "user1" name) as [<- | Hu];
    [destruct (String.eqb_spec "1234" password) as [<- | Hp]|]; cbn [andb].
  - cbn. split; [|split]; try discriminate; [tauto|].
    intros _. eexists. repeat split. now left.
  - cbn. split; [split|split]; try discriminate; try tauto.
    intros [[_ E] | [E _]]; [now subst | discriminate].
  - destruct (String.eqb_spec "admin1" name) as [<- | Ha];
      [destruct (String.eqb_spec "admin123" password) as [<- | Hp]|];
      cbn [andb]; cbn.
    + split; [|split]; try discriminate; [tauto|].
      intros _. eexists. repeat split. right. now left.
    + split; [split|split]; try discriminate; try tauto.
      intros [[E _] | [_ E]]; [discriminate | now subst].
    + split; [split|split]; try discriminate; try tauto.
      intros [[E _] | [E _]]; now subst.
Qed.

Lemma login_succeeds_iff_witness :
  JSObject.truthy
    (JSObject.get (Some (fst (login "admin1" "admin123" None))) "success") = true /\
  (exists u, snd (login "admin1" "admin123" None) = Some u /\
             In u DUMMY_USERS /\ username u = "admin1") /\
  JSObject.truthy
    (JSObject.get (Some (fst (login "admin1" "1234" None))) "success") = false /\
  snd (login "admin1" "1234" None) = None.
Proof.
  pose proof (login_succeeds_iff "admin1" "admin123" None) as (_ & Hs & _).
  pose proof (login_succeeds_iff "admin1" "1234" None) as (_ & _ & Hf).
  cbv zeta in Hs, Hf.
  split; [reflexivity|]. split; [apply Hs; reflexivity|].
  split; [reflexivity|]. apply Hf. reflexivity.
Defined.

Import LoginScreen.

(** X24. [handleLogin] with a pair of the tables signs the user in and
    sends the router to "/expenses", for the admin as well as for the
    user; with a blank field it shows "Please fill in all fields" and with
    any other input "Invalid credentials", and in both cases the session
    and the route are left alone. *)
Theorem handleLogin_outcome (st : State) :
  let st' := handleLogin st in
  ((LoginScreen.username st = "user1" /\ password st = "1234") \/
   (LoginScreen.username st = "admin1" /\ password st = "admin123") ->
   navigations st' = navigations st ++ ["/expenses"] /\
   alerts st' = alerts st /\
   exists u, user st' = Some u /\ In u DUMMY_USERS /\
             AuthContext.username u = LoginScreen.username st) /\
  (~ ((LoginScreen.username st = "user1" /\ password st = "1234") \/
      (LoginScreen.username st = "admin1" /\ password st = "admin123")) ->
   navigations st' = navigations st /\
   user st' = user st /\
   alerts st' = alerts st ++
     [("Error",
       if negb (JS.truthy (JS.trim (LoginScreen.username st)))
          || negb (JS.truthy (JS.trim (password st)))
       then "Please fill in all fields" else "Invalid credentials")]).
Proof.
  cbv zeta. unfold handleLogin.
  destruct (negb (JS.truthy (JS.trim (LoginScreen.username st)))
            || negb (JS.truthy (JS.trim (password st)))) eqn:Hblank.
  - split; [|intros _; now cbn].
    intros [[Eu Ep] | [Eu Ep]]; rewrite Eu, Ep in Hblank; discriminate.
  - rewrite login_run.
    destruct (String.eqb_spec "user1" (LoginScreen.username st)) as [Eu | Hu];
      [destruct (String.eqb_spec "1234" (password st)) as [Ep | Hp]|];
      cbn [andb].
    + cbn. split; [|intros H; exfalso; apply H; left; now split].
      intros _. repeat split. eexists. repeat split; [now left | exact Eu].
    + destruct (String.eqb_spec "admin1" (LoginScreen.username st))
        as [Ea | Ha]; [congruence|]. cbn.
      split; [|now intros _].
      intros [[_ E] | [E _]]; congruence.
    + destruct (String.eqb_spec "admin1" (LoginScreen.username st)) as [Ea | Ha];
        [destruct (String.eqb_spec "admin123" (password st)) as [Ep | Hp]|];
        cbn [andb]; cbn.
      * split; [|intros H; exfalso; apply H; right; now split].
        intros _. repeat split. eexists.
        repeat split; [right; now left | exact Ea].
      * split; [|now intros _]. intros [[E _] | [_ E]]; congruence.
      * split; [|now intros _]. intros [[E _] | [E _]]; congruence.
Qed.

Lemma handleLogin_outcome_witness :
  let admin := {| LoginScreen.username := "admin1"; password := "admin123";
                  isLoading := false; user := None; navigations := ["/login"];
                  alerts := [] |} in
  let padded := {| LoginScreen.username := " user1"; password := "1234";
                   isLoading := false; user := None; navigations := ["/login"];
                   alerts := [] |} in
  navigations (handleLogin admin) = ["/login"; "/expenses"] /\
  (exists u, user (handleLogin admin) = Some u /\ In u DUMMY_USERS /\
             AuthContext.username u = "admin1") /\
  navigations (handleLogin padded) = ["/login"] /\
  alerts (handleLogin padded) = [("Error", "Invalid credentials")].
Proof.
  intros admin padded.
  pose proof (handleLogin_outcome admin) as (Hs & _).
  pose proof (handleLogin_outcome padded) as (_ & Hf).
  cbv zeta in Hs, Hf.
  destruct Hs as (Hn & _ & Hu); [right; split; reflexivity|].
  destruct Hf as (Hn' & _ & Ha').
  { intros [[E _] | [E _]]; discriminate. }
  split; [exact Hn|]. split; [exact Hu|]. split; [exact Hn'|exact Ha'].
Defined.

(** X25. [handleLogin] never sends the router to "/admin/admin" and never
    shows "Login failed": the object that [login] returns has no [user]
    and, on a failure, always a [message].  An admin who signs in is sent
    to "/expenses", where [Index] and [TabLayout] would send the session
    to "/admin". *)
Theorem handleLogin_dead_branches (st : State) :
  let st' := handleLogin st in
  (navigations st' = navigations st \/
   navigations st' = navigations st ++ ["/expenses"]) /\
  (alerts st' = alerts st \/
   alerts st' = alerts st ++ [("Error", "Please fill in all fields")] \/
   alerts st' = alerts st ++ [("Error", "Invalid credentials")]) /\
  (TabLayout.is_admin (user st') = true ->
   navigations st' <> navigations st ->
   navigations st' = navigations st ++ ["/expenses"] /\
   Index.redirect true (user st') (navigations st') =
     navigations st' ++ ["/admin"] /\
   TabLayout.redirect true (user st') (navigations st') =
     navigations st' ++ ["/admin"]).
Proof.
  cbv zeta. unfold handleLogin.
  destruct (negb (JS.truthy (JS.trim (LoginScreen.username st)))
            || negb (JS.truthy (JS.trim (password st)))) eqn:Hblank.
  - cbn. split; [now left|]. split; [right; now left|]. intros _ H. now destruct H.
  - rewrite login_run.
    destruct (String.eqb "user1" (LoginScreen.username st)
              && String.eqb "1234" (password st));
      [|destruct (String.eqb "admin1" (LoginScreen.username st)
                  && String.eqb "admin123" (password st))]; cbn.
    + split; [now right|]. split; [now left|]. discriminate.
    + split; [now right|]. split; [now left|]. intros _ _. now repeat split.
    + split; [now left|]. split; [right; now right|].
      intros _ H. now destruct H.
Qed.

Lemma handleLogin_dead_branches_witness :
  let admin := {| LoginScreen.username := "admin1"; password := "admin123";
                  isLoading := false; user := None; navigations := [];
                  alerts := [] |} in
  TabLayout.is_admin (user (handleLogin admin)) = true /\
  navigations (handleLogin admin) = ["/expenses"] /\
  Index.redirect true (user (handleLogin admin)) (navigations (handleLogin admin))
    = ["/expenses"; "/admin"].
Proof.
  intros admin.
  pose proof (handleLogin_dead_branches admin) as (_ & _ & H).
  cbv zeta in H.
  destruct H as (Hn & Hi & _); [reflexivity | discriminate |].
  split; [reflexivity|]. split; [exact Hn|exact Hi].
Defined.

(** X26. the two route guards agree.  Once mounted, [TabLayout] renders the
    tabs exactly for the sessions that [Index] sends to "/expenses", it
    redirects exactly when it renders nothing, and then to the route that
    [Index] chooses; before they are ready neither of them navigates. *)
Theorem route_guards_agree (user : option User) (navs : list string) :
  (TabLayout.renders_tabs user = true <->
   Index.redirect true user navs = navs ++ ["/expenses"]) /\
  (TabLayout.renders_tabs user = true <->
   TabLayout.redirect true user navs = navs) /\
  (TabLayout.renders_tabs user = false ->
   TabLayout.redirect true user navs = Index.redirect true user navs) /\
  Index.redirect false user navs = navs /\
  TabLayout.redirect false user navs = navs.
Proof.
  destruct user as [[name []]|]; cbn.
  - repeat split; auto; try discriminate.
  - repeat split; auto; try discriminate.
    + intros H. apply app_inv_head in H. discriminate.
    + intros H. now apply snoc_neq in H.
  - repeat split; auto; try discriminate.
    + intros H. apply app_inv_head in H. discriminate.
    + intros H. now apply snoc_neq in H.
Qed.

Lemma route_guards_agree_witness :
  TabLayout.renders_tabs None = false /\
  TabLayout.redirect true None [] = ["/login"] /\
  Index.redirect true None [] = ["/login"].
Proof.
  pose proof (route_guards_agree None []) as (_ & _ & H & _).
  split; [reflexivity|]. split; [reflexivity|].
  rewrite <- H; reflexivity.
Defined.

End Routes.
